(** * TechChat backend: the socket messaging core of [src/server.js]

    A shallow embedding of the connection-authenticated publish/subscribe
    layer of the TechChat backend:

    - the Sequelize models and associations of [src/config/supabase.js]
      (tables [Users], [Channels], [Messages] with their not-null rule and
      foreign keys);
    - the [io.use] authentication middleware, the [join_channel],
      [send_message] and [disconnect] handlers of [src/server.js];
    - the part of the socket.io runtime those handlers call: the in-memory
      room adapter ([socket.join], [io.to(room).emit], the [leaveAll] done by
      a socket's teardown) and the rule that the [connection] listener only
      runs for a socket whose middleware called [next()] without an error.

    The [send_message] handler is an [async] function with two [await]s, so
    it is embedded as a task that is suspended at each [await] and resumed
    by an explicit step when the awaited store call settles.  A run of the
    server is a list of such steps, in the order the event loop takes them.

    JavaScript values are restricted to what the handlers are written for:
    channel ids and contents are strings or [undefined] ([None]), and the
    [send_message] payload is [undefined], [null] or an object with
    string-valued fields.

    The database is Postgres behind Sequelize.  What it makes of a string
    depends on the column: a [UUID] column reads it as a uuid and keeps the
    canonical spelling, a [TEXT] column keeps what Sequelize hands over.
    These conversions are the store's, not the repository's; they are
    parameters of the model. *)

From stdpp Require Import gmap strings list fin_maps sorting.

Open Scope string_scope.
Open Scope list_scope.

Set Warnings "-clear-no-such-hyp".

(** ** Identifiers *)

Abbreviation UserId := string (only parsing).
Abbreviation ChannelId := string (only parsing).
Abbreviation MsgId := string (only parsing).
(** [socket.id]. *)
Abbreviation Sid := string (only parsing).
(** A room name as the handlers pass it to socket.io: the client-supplied
    [channelId], a string, or [undefined] when the client sent none. *)
Abbreviation Room := (option string) (only parsing).
(** A [Date], as a count of clock ticks. *)
Abbreviation Time := nat (only parsing).

(** ** The store ([src/config/supabase.js]) *)

(** A row of [Users]; the primary key [id] is the key of the table. *)
Record UsersRow := mkUsersRow {
  username : string;
  email : string;
  password : string;
  avatar_color : string;
  status : string
}.

(** A row of [Channels]. *)
Record ChannelsRow := mkChannelsRow {
  name : string;
  description : option string;
  is_private : bool;
  created_by : UserId
}.

(** A row of [Messages]: [content] is [allowNull: false]; [user_id] and
    [channel_id] are the foreign keys the associations add, and nothing in
    the models makes [channel_id] mandatory. *)
Record MessagesRow := mkMessagesRow {
  content : string;
  created_at : Time;
  channel_id : option ChannelId;
  user_id : UserId
}.

Record Db := mkDb {
  Users : gmap string UsersRow;
  Channels : gmap string ChannelsRow;
  Messages : gmap string MessagesRow
}.

(** Why a store call rejects. *)
Inductive DbError :=
| SequelizeValidationError
| SequelizeDatabaseError
| SequelizeUniqueConstraintError
| SequelizeForeignKeyConstraintError
| SequelizeConnectionError.

(** The settled state of the promise a store call returns. *)
Inductive Settled (A : Type) :=
| Resolves (a : A)
| Rejects (e : DbError).
Arguments Resolves {A} a.
Arguments Rejects {A} e.

(** [socket.user]: [Users.findByPk(id, { attributes: ['id', 'username',
    'avatar_color'] })]. *)
Record SocketUser := mkSocketUser {
  su_id : UserId;
  su_username : string;
  su_avatar_color : string
}.

(** The [sender] include of a message: attributes [id], [username],
    [avatar_color], [status]. *)
Record Sender := mkSender {
  sender_id : UserId;
  sender_username : string;
  sender_avatar_color : string;
  sender_status : string
}.

(** [messageWithSender]: the message row and its joined sender. *)
Record MessageWithSender := mkMessageWithSender {
  msg_id : MsgId;
  msg_content : string;
  msg_created_at : Time;
  msg_channel_id : option ChannelId;
  msg_user_id : UserId;
  msg_sender : option Sender
}.

(** The foreign key [channel_id] of a row, a uuid as the store keeps it,
    references [Channels]; a null reference satisfies it. *)
Definition channel_fk_ok (d : Db) (c : option ChannelId) : bool :=
  match c with
  | None => true
  | Some c => bool_decide (is_Some (Channels d !! c))
  end.

(** The foreign key [user_id] references [Users]. *)
Definition user_fk_ok (d : Db) (u : UserId) : bool :=
  bool_decide (is_Some (Users d !! u)).

(** The [sender] join of a message row. *)
Definition sender_of (d : Db) (u : UserId) : option Sender :=
  r ← Users d !! u;
  Some (mkSender u (username r) (avatar_color r) (status r)).

(** [Messages.findByPk(id, { include: [{ model: Users, as: 'sender', ... }] })]. *)
Definition Messages_findByPk (d : Db) (up : bool) (id : MsgId)
  : Settled (option MessageWithSender) :=
  if up then
    Resolves (r ← Messages d !! id;
              Some (mkMessageWithSender id (content r) (created_at r)
                      (channel_id r) (user_id r) (sender_of d (user_id r))))
  else Rejects SequelizeConnectionError.

(** ** Events the server emits *)

(** A packet is a pair of the socket it is written to and the event. *)
Inductive ServerEvent :=
| connect_error (msg : string)
| receive_message (m : option MessageWithSender)
| error (msg : string).

Global Instance Sender_eq_dec : EqDecision Sender.
Proof. solve_decision. Defined.
Global Instance MessageWithSender_eq_dec : EqDecision MessageWithSender.
Proof. solve_decision. Defined.
Global Instance ServerEvent_eq_dec : EqDecision ServerEvent.
Proof. solve_decision. Defined.

(** The message id a [receive_message] event carries. *)
Definition event_msg_id (e : ServerEvent) : option MsgId :=
  match e with
  | receive_message (Some m) => Some (msg_id m)
  | _ => None
  end.

(** ** The socket.io room adapter *)

(** [adapter.rooms.get(room)], empty for a room nobody is in. *)
Definition members (rooms : gmap (option string) (gset string)) (r : Room)
  : gset string :=
  default ∅ (rooms !! r).

(** [socket.join(room)]: [adapter.addAll(socket.id, new Set([room]))] adds
    the id to the room's [Set]. *)
Definition adapter_addAll (sid : Sid) (r : Room)
    (rooms : gmap (option string) (gset string))
  : gmap (option string) (gset string) :=
  <[r := {[sid]} ∪ members rooms r]> rooms.

(** [socket.leaveAll()]: [adapter.delAll(socket.id)] removes the id from
    every room and drops the rooms left empty. *)
Definition adapter_delAll (sid : Sid)
    (rooms : gmap (option string) (gset string))
  : gmap (option string) (gset string) :=
  omap (λ s : gset string,
          if decide (s ∖ {[sid]} = ∅) then None else Some (s ∖ {[sid]})) rooms.

(** ** Credentials *)

Inductive JwtError := JsonWebTokenError | TokenExpiredError | NotBeforeError.

(** What [jwt.verify(token, JWT_SECRET)] does: throw, or return the decoded
    payload, of which the middleware reads [decoded.id]. *)
Inductive JwtOutcome :=
| JwtThrows (e : JwtError)
| JwtDecoded (id : option UserId).

(** How the middleware leaves: [next()] with [socket.user] attached, or
    [next(new Error(msg))]. *)
Inductive MwResult :=
| Next (user : SocketUser)
| NextErr (msg : string).

(** ** The payload of [send_message] *)

(** The argument the client gave to [send_message]: [undefined] (none given)
    or [null], which cannot be destructured, or any other value, of which
    the handler reads the fields [channelId] and [content]. *)
Inductive Payload :=
| Nullish
| Object (fields : gmap string string).

(** [data.channelId], [data.content]. *)
Global Instance Payload_lookup : Lookup string string Payload :=
  λ k data, match data with
            | Nullish => None
            | Object fields => fields !! k
            end.

(** ** Suspended [send_message] handlers *)

(** A handler waiting at [await Messages.create(...)] (with the arguments of
    the call, [user_id] being [socket.user.id] read when the call was made)
    or at [await Messages.findByPk(newMessage.id, ...)]. *)
Inductive Task :=
| AwaitCreate (sid : Sid) (channelId : Room) (content : option string)
    (user_id : UserId)
| AwaitFind (sid : Sid) (channelId : Room) (newMessage_id : MsgId).

(** ** The server *)

Record Server := mkServer {
  db : Db;
  (** [io.sockets.sockets]: the connected sockets and their [socket.user]. *)
  sockets : gmap string SocketUser;
  (** Ids of sockets that were torn down.  Socket ids are generated per
      connection and never handed out twice. *)
  closed : gset string;
  (** [adapter.rooms]. *)
  rooms : gmap (option string) (gset string);
  (** The suspended [send_message] handlers, by the number of their call. *)
  tasks : gmap nat Task;
  (** How many times the [send_message] handler has been called. *)
  next_task : nat
}.

Definition init (d : Db) : Server := mkServer d ∅ ∅ ∅ ∅ 0.

(** What the event loop does next. *)
Inductive Action :=
| Connection (sid : Sid) (token : option string) (now : Time) (db_up : bool)
| Join_channel (sid : Sid) (channelId : Room)
| Send_message (sid : Sid) (data : Payload)
| Create_settles (t : nat) (db_up : bool) (uuid : MsgId) (now : Time)
| Find_settles (t : nat) (db_up : bool)
| Disconnect (sid : Sid).

(** [socket.emit(ev)]: a packet for this socket, dropped when the socket is
    no longer connected. *)
Definition socket_emit (σ : Server) (sid : Sid) (ev : ServerEvent)
  : list (string * ServerEvent) :=
  if decide (is_Some (sockets σ !! sid)) then [(sid, ev)] else [].

(** [io.to(room).emit(ev)]: the adapter walks the room's set of ids and
    writes one packet to each id that names a connected socket.  The order
    among the members within one broadcast is that of [elements]; nothing
    below depends on it. *)
Definition io_to_emit (σ : Server) (r : Room) (ev : ServerEvent)
  : list (string * ServerEvent) :=
  (λ sid, (sid, ev)) <$>
    filter (λ sid, is_Some (sockets σ !! sid)) (elements (members (rooms σ) r)).

Definition send_error : string := "Message could notqv be sent".

(** ** The adapter's sets *)

Lemma elem_of_members_addAll (sid s : string) (r r' : option string)
    (rooms : gmap (option string) (gset string)) :
  s ∈ members (adapter_addAll sid r rooms) r' ↔
  (r = r' ∧ s = sid) ∨ s ∈ members rooms r'.
Proof.
  unfold adapter_addAll, members at 1.
  destruct (decide (r = r')) as [->|Hne].
  - rewrite lookup_insert_eq. simpl. set_solver.
  - rewrite lookup_insert_ne by done. fold (members rooms r'). naive_solver.
Qed.

Lemma elem_of_members_delAll (sid s : string) (r : option string)
    (rooms : gmap (option string) (gset string)) :
  s ∈ members (adapter_delAll sid rooms) r ↔ s ≠ sid ∧ s ∈ members rooms r.
Proof.
  unfold adapter_delAll, members. rewrite lookup_omap.
  destruct (rooms !! r) as [X|]; simpl; [|set_solver].
  case_decide; simpl; set_solver.
Qed.

(** Joining a room twice is joining it once: the room is a set. *)
Lemma adapter_addAll_idemp (sid : string) (r : option string)
    (rooms : gmap (option string) (gset string)) :
  adapter_addAll sid r (adapter_addAll sid r rooms) = adapter_addAll sid r rooms.
Proof.
  unfold adapter_addAll at 1. apply insert_id.
  unfold adapter_addAll, members. rewrite !lookup_insert_eq. simpl.
  f_equal. set_solver.
Qed.

(** ** Lists without repetition *)

Lemma filter_eq_not_elem_of (x : string) (l : list string) :
  x ∉ l → filter (λ s, s = x) l = [].
Proof.
  induction l as [|y l IH]; [done|]. intros Hx.
  rewrite filter_cons, decide_False; [apply IH|]; set_solver.
Qed.

Lemma length_filter_eq_NoDup (x : string) (l : list string) :
  NoDup l → x ∈ l → length (filter (λ s, s = x) l) = 1.
Proof.
  induction 1 as [|y l Hy Hnd IH]; intros Hin.
  - by apply elem_of_nil in Hin.
  - rewrite filter_cons. destruct (decide (y = x)) as [->|Hne].
    + by rewrite filter_eq_not_elem_of.
    + apply IH. apply elem_of_cons in Hin as [?|?]; [congruence|done].
Qed.

(** ** Packets *)

(** Some packet of [out] is a [receive_message] for message [id]. *)
Definition receives (id : MsgId) (out : list (string * ServerEvent)) : Prop :=
  ∃ s e, (s, e) ∈ out ∧ event_msg_id e = Some id.

(** How many [receive_message] packets for message [id] are addressed to
    socket [s]. *)
Definition deliveries (s : Sid) (id : MsgId) (out : list (string * ServerEvent))
  : nat :=
  length (filter (λ p, p.1 = s ∧ event_msg_id p.2 = Some id) out).

Lemma receives_app id o1 o2 :
  receives id (o1 ++ o2) ↔ receives id o1 ∨ receives id o2.
Proof.
  unfold receives. setoid_rewrite elem_of_app. naive_solver.
Qed.

Lemma receives_nil id : ¬ receives id [].
Proof. intros (s & e & Hin & _). by apply elem_of_nil in Hin. Qed.

Lemma deliveries_app s id o1 o2 :
  deliveries s id (o1 ++ o2) = deliveries s id o1 + deliveries s id o2.
Proof. unfold deliveries. by rewrite filter_app, length_app. Qed.

Lemma deliveries_silent s id out : ¬ receives id out → deliveries s id out = 0.
Proof.
  unfold deliveries, receives. intros Hno.
  induction out as [|[s' e] out IH]; [done|].
  rewrite filter_cons. case_decide as Hp; simpl in *.
  - destruct Hno. exists s', e. split; [left|]. by destruct Hp.
  - apply IH. intros (s2 & e2 & Hin & He). apply Hno.
    exists s2, e2. split; [by right|done].
Qed.

Lemma elem_of_socket_emit σ sid ev s e :
  (s, e) ∈ socket_emit σ sid ev ↔
  s = sid ∧ e = ev ∧ is_Some (sockets σ !! sid).
Proof.
  unfold socket_emit. case_decide.
  - rewrite list_elem_of_singleton. naive_solver.
  - rewrite elem_of_nil. naive_solver.
Qed.

Lemma elem_of_io_to_emit σ r ev s e :
  (s, e) ∈ io_to_emit σ r ev ↔
  e = ev ∧ s ∈ members (rooms σ) r ∧ is_Some (sockets σ !! s).
Proof.
  unfold io_to_emit. rewrite list_elem_of_fmap. split.
  - intros (x & [= -> ->] & Hx). apply list_elem_of_filter in Hx as [Hc Hx].
    by apply elem_of_elements in Hx.
  - intros (-> & Hm & Hc). exists s. split; [done|].
    apply list_elem_of_filter. split; [done|]. by apply elem_of_elements.
Qed.

(** A list without repetition addresses each of its sockets once. *)
Lemma deliveries_fmap_NoDup (l : list string) s id ev :
  NoDup l → event_msg_id ev = Some id →
  deliveries s id ((λ x, (x, ev)) <$> l) = if decide (s ∈ l) then 1 else 0.
Proof.
  intros Hnd Hev. unfold deliveries.
  induction Hnd as [|x l Hx Hnd IH].
  - case_decide as H; [by apply elem_of_nil in H|done].
  - rewrite fmap_cons, filter_cons. cbn [fst snd].
    destruct (decide (x = s)) as [->|Hne].
    + rewrite decide_True by done. cbn [length]. rewrite IH.
      rewrite (decide_False (P := s ∈ l)) by done.
      by rewrite decide_True by left.
    + rewrite decide_False by naive_solver. rewrite IH.
      destruct (decide (s ∈ l)) as [Hin|Hin].
      * by rewrite decide_True by (by right).
      * rewrite decide_False; [done|].
        intros [?|?]%elem_of_cons; congruence.
Qed.

(** [io.to(room).emit] writes exactly one packet to each connected member of
    the room and none to anyone else. *)
Lemma deliveries_io_to_emit σ r m s :
  deliveries s (msg_id m) (io_to_emit σ r (receive_message (Some m))) =
  if decide (s ∈ members (rooms σ) r ∧ is_Some (sockets σ !! s)) then 1 else 0.
Proof.
  unfold io_to_emit.
  rewrite (deliveries_fmap_NoDup _ s (msg_id m))
    by (done || apply NoDup_filter, NoDup_elements).
  apply decide_ext. rewrite list_elem_of_filter, elem_of_elements. tauto.
Qed.

(** ** Blank content *)

(** The characters [String.prototype.trim] strips, within ASCII. *)
Definition is_whitespace (a : Ascii.ascii) : bool :=
  Nat.eqb (Ascii.nat_of_ascii a) 32 ||
  (Nat.leb 9 (Ascii.nat_of_ascii a) && Nat.leb (Ascii.nat_of_ascii a) 13).

(** Empty or whitespace-only. *)
Fixpoint whitespace_only (s : string) : bool :=
  match s with
  | EmptyString => true
  | String a s => is_whitespace a && whitespace_only s
  end.

(** ** Store calls on what clients send *)

Section server.

(** What a [UUID] column makes of a string: [None] when the database refuses
    it ([invalid input syntax for type uuid]), else the uuid in the spelling
    the database keeps and returns.  The primary keys of the tables are in
    that spelling. *)
Variable uuid_in : string → option string.

(** What a [TEXT] column keeps of a string Sequelize binds to it. *)
Variable text_in : string → string.

(** [Users.findByPk(decoded.id, ...)] of the middleware.  For an id that is
    [undefined] Sequelize returns [null] without a query.  Otherwise the id
    goes into [WHERE id = ...]: the call rejects when the database does not
    answer ([up] tells whether it does) or refuses the id, and resolves to
    the row of that uuid, with the id as the row has it, or to [null]. *)
Definition Users_findByPk (d : Db) (up : bool) (id : option UserId)
  : Settled (option SocketUser) :=
  match id with
  | None => Resolves None
  | Some i =>
      if up then
        match uuid_in i with
        | None => Rejects SequelizeDatabaseError
        | Some k =>
            Resolves (u ← Users d !! k;
                      Some (mkSocketUser k (username u) (avatar_color u)))
        end
      else Rejects SequelizeConnectionError
  end.

(** What the [channel_id] column makes of the [channelId] of a request:
    [NULL] for [undefined], else the uuid the string spells; [None] when the
    database refuses the string. *)
Definition channel_in (channelId : option string) : option (option ChannelId) :=
  match channelId with
  | None => Some None
  | Some c => k ← uuid_in c; Some (Some k)
  end.

(** [Messages.create({ content, channel_id, user_id })].  [uuid] and [now]
    are the [UUIDV4] default of [id] and the [created_at] timestamp Sequelize
    draws for the new row; [user_id] is the [id] of a user read from the
    store.  Validation ([content] is [allowNull: false], and that is its
    only rule) runs before any query; the INSERT itself fails when the
    database does not answer, on a [channel_id] that is no uuid, on a
    primary key already taken, and on a foreign key naming no row.  The row
    stored has the content and the channel id as their columns keep them.  A
    rejected call leaves the store as it was. *)
Definition Messages_create (d : Db) (up : bool) (uuid : MsgId) (now : Time)
    (content : option string) (channel_id : option string) (user_id : UserId)
  : Db * Settled MsgId :=
  match content with
  | None => (d, Rejects SequelizeValidationError)
  | Some c =>
      if negb up then (d, Rejects SequelizeConnectionError)
      else match channel_in channel_id with
           | None => (d, Rejects SequelizeDatabaseError)
           | Some ch =>
               if bool_decide (is_Some (Messages d !! uuid))
               then (d, Rejects SequelizeUniqueConstraintError)
               else if negb (channel_fk_ok d ch && user_fk_ok d user_id)
               then (d, Rejects SequelizeForeignKeyConstraintError)
               else (mkDb (Users d) (Channels d)
                          (<[uuid := mkMessagesRow (text_in c) now ch user_id]>
                             (Messages d)),
                     Resolves uuid)
           end
  end.

(** ** What a store call can do to the store *)

Lemma Messages_create_Rejects d up uuid now c ch u d' e :
  Messages_create d up uuid now c ch u = (d', Rejects e) → d' = d.
Proof.
  unfold Messages_create. intros H.
  repeat case_match; by simplify_eq.
Qed.

Lemma Messages_create_Resolves d up uuid now c ch u d' id :
  Messages_create d up uuid now c ch u = (d', Resolves id) →
  ∃ s k, c = Some s ∧ up = true ∧ id = uuid ∧ Messages d !! uuid = None ∧
         channel_in ch = Some k ∧
         channel_fk_ok d k = true ∧ user_fk_ok d u = true ∧
         d' = mkDb (Users d) (Channels d)
                (<[uuid := mkMessagesRow (text_in s) now k u]> (Messages d)).
Proof.
  unfold Messages_create. intros H.
  destruct c as [s|]; [|done].
  destruct up; simpl in H; [|done].
  destruct (channel_in ch) as [k|] eqn:Hk; [|done].
  case_bool_decide as Hpk; [done|].
  destruct (channel_fk_ok d k) eqn:Hc, (user_fk_ok d u) eqn:Hu;
    simpl in H; try done.
  simplify_eq. exists s, k. repeat split; try done.
  by apply eq_None_not_Some.
Qed.

(** When the store accepts the row, the call stores it. *)
Lemma Messages_create_accepts d uuid now s ch k u :
  Messages d !! uuid = None → channel_in ch = Some k →
  channel_fk_ok d k = true → user_fk_ok d u = true →
  Messages_create d true uuid now (Some s) ch u
  = (mkDb (Users d) (Channels d)
       (<[uuid := mkMessagesRow (text_in s) now k u]> (Messages d)),
     Resolves uuid).
Proof.
  intros Hnew Hk Hc Hu. unfold Messages_create. simpl. rewrite Hk.
  rewrite bool_decide_eq_false_2 by (rewrite Hnew; by intros [? ?]).
  by rewrite Hc, Hu.
Qed.

(** A channel id that the database refuses, or that is the uuid of no
    channel. *)
Definition names_no_channel (d : Db) (c : string) : Prop :=
  ∀ k, uuid_in c = Some k → Channels d !! k = None.

Lemma Messages_create_no_channel d up uuid now c ch u :
  names_no_channel d ch →
  ∃ e, Messages_create d up uuid now c (Some ch) u = (d, Rejects e).
Proof.
  intros Hno. unfold Messages_create.
  destruct c as [s|]; [|eauto]. destruct up; simpl; [|eauto].
  destruct (uuid_in ch) as [k|] eqn:Hk; simpl; [|eauto].
  case_bool_decide; [eauto|].
  rewrite bool_decide_eq_false_2; [simpl; eauto|].
  rewrite (Hno k Hk). by intros [? ?].
Qed.

(** [jwt.verify(token, JWT_SECRET)] at a given time: signature, format and
    expiry are the library's business. *)
Variable jwt_verify : Time → string → JwtOutcome.

(** The [io.use] middleware. *)
Definition io_use_auth (d : Db) (up : bool) (now : Time) (token : option string)
  : MwResult :=
  match token with
  | None => NextErr "Authentication error"
  | Some t =>
      if decide (t = "") then NextErr "Authentication error"
      else match jwt_verify now t with
           | JwtThrows _ => NextErr "Authentication error"
           | JwtDecoded id =>
               match Users_findByPk d up id with
               | Rejects _ => NextErr "Authentication error"
               | Resolves None => NextErr "User not found"
               | Resolves (Some user) => Next user
               end
           end
  end.

(** One step of the server, with the packets it writes.

    - [Connection]: a handshake, under a socket id that is neither in use
      nor already torn down (a step naming such an id does nothing).  The
      middleware runs; on [next(err)] the client gets [connect_error] and
      the socket is never registered, so the [connection] listener does not
      run and no handler exists for it.  On [next()] the socket is
      registered, joins the room of its own id (as every socket.io socket
      does) and gets its handlers.
    - [Join_channel], [Send_message]: a client event on a connected socket.
      [Send_message] runs the handler up to its first [await].  The
      handler destructures its argument before it enters its [try]: on
      [undefined] or [null] that throws, the handler ends there without a
      store call or an [emit], and the promise it returns rejects with
      nobody to handle it.  What Node then does is not the handlers'
      business: it warns, or (its default since version 15) it ends the
      process, and with it the run.
    - [Create_settles], [Find_settles]: the awaited store call settles and
      the handler runs on, to the next [await] or to its end.  The store
      calls of different handlers settle in any order (the queries go out
      over a connection pool), so these steps can come in any order.
    - [Disconnect]: the transport closes; socket.io leaves all rooms and
      unregisters the socket, then the [disconnect] handler logs. *)
Definition step (σ : Server) (a : Action) : Server * list (string * ServerEvent) :=
  match a with
  | Connection sid token now db_up =>
      if decide (sid ∈ dom (sockets σ) ∪ closed σ) then (σ, [])
      else match io_use_auth (db σ) db_up now token with
           | NextErr msg => (σ, [(sid, connect_error msg)])
           | Next user =>
               (mkServer (db σ) (<[sid := user]> (sockets σ)) (closed σ)
                  (adapter_addAll sid (Some sid) (rooms σ))
                  (tasks σ) (next_task σ), [])
           end
  | Join_channel sid channelId =>
      match sockets σ !! sid with
      | None => (σ, [])
      | Some _ =>
          (mkServer (db σ) (sockets σ) (closed σ)
             (adapter_addAll sid channelId (rooms σ))
             (tasks σ) (next_task σ), [])
      end
  | Send_message sid data =>
      match sockets σ !! sid with
      | None => (σ, [])
      | Some user =>
          (mkServer (db σ) (sockets σ) (closed σ) (rooms σ)
             (match data with
              | Nullish => tasks σ
              | Object _ =>
                  <[next_task σ :=
                      AwaitCreate sid (data !! "channelId") (data !! "content")
                        (su_id user)]> (tasks σ)
              end)
             (S (next_task σ)), [])
      end
  | Create_settles t db_up uuid now =>
      match tasks σ !! t with
      | Some (AwaitCreate sid channelId content user_id) =>
          match Messages_create (db σ) db_up uuid now content channelId user_id with
          | (d, Resolves newMessage_id) =>
              (mkServer d (sockets σ) (closed σ) (rooms σ)
                 (<[t := AwaitFind sid channelId newMessage_id]> (tasks σ))
                 (next_task σ), [])
          | (d, Rejects _) =>
              (mkServer d (sockets σ) (closed σ) (rooms σ)
                 (delete t (tasks σ)) (next_task σ),
               socket_emit σ sid (error send_error))
          end
      | _ => (σ, [])
      end
  | Find_settles t db_up =>
      match tasks σ !! t with
      | Some (AwaitFind sid channelId newMessage_id) =>
          (mkServer (db σ) (sockets σ) (closed σ) (rooms σ)
             (delete t (tasks σ)) (next_task σ),
           match Messages_findByPk (db σ) db_up newMessage_id with
           | Resolves messageWithSender =>
               io_to_emit σ channelId (receive_message messageWithSender)
           | Rejects _ => socket_emit σ sid (error send_error)
           end)
      | _ => (σ, [])
      end
  | Disconnect sid =>
      match sockets σ !! sid with
      | None => (σ, [])
      | Some _ =>
          (mkServer (db σ) (delete sid (sockets σ)) ({[sid]} ∪ closed σ)
             (adapter_delAll sid (rooms σ)) (tasks σ) (next_task σ), [])
      end
  end.

(** A run: the steps in order, with everything written so far. *)
Fixpoint run (σ : Server) (acts : list Action)
  : Server * list (string * ServerEvent) :=
  match acts with
  | [] => (σ, [])
  | a :: acts =>
      let '(σ1, out1) := step σ a in
      let '(σ2, out2) := run σ1 acts in
      (σ2, out1 ++ out2)
  end.

(** The states the server can be in: those a run reaches from a start with
    no socket, no room and no pending handler. *)
Definition reachable (σ : Server) : Prop :=
  ∃ d acts, (run (init d) acts).1 = σ.

(** ** Runs *)

Lemma run_app σ l1 l2 :
  run σ (l1 ++ l2) =
  ((run (run σ l1).1 l2).1, (run σ l1).2 ++ (run (run σ l1).1 l2).2).
Proof.
  revert σ. induction l1 as [|a l1 IH]; intros σ; cbn [run app fst snd].
  - by destruct (run σ l2).
  - destruct (step σ a) as [σ1 o1]. rewrite IH.
    destruct (run σ1 l1) as [σ2 o2]. cbn [fst snd].
    destruct (run σ2 l2) as [σ3 o3]. cbn [fst snd]. by rewrite app_assoc.
Qed.

Lemma run_cons σ a l :
  run σ (a :: l) =
  ((run (step σ a).1 l).1, (step σ a).2 ++ (run (step σ a).1 l).2).
Proof.
  cbn [run]. destruct (step σ a) as [σ1 o1]. cbn [fst snd].
  by destruct (run σ1 l).
Qed.

Lemma reachable_init d : reachable (init d).
Proof. by exists d, []. Qed.

Lemma reachable_run σ acts : reachable σ → reachable (run σ acts).1.
Proof.
  intros (d & l & <-). exists d, (l ++ acts). by rewrite run_app.
Qed.

(** ** Invariants of the reachable states *)

(** Every id in a room names a connected socket. *)
Definition rooms_live (σ : Server) : Prop :=
  ∀ r s, s ∈ members (rooms σ) r → is_Some (sockets σ !! s).

(** A torn-down socket is not connected. *)
Definition closed_dead (σ : Server) : Prop :=
  ∀ s, s ∈ closed σ → sockets σ !! s = None.

(** Task numbers in use lie below the next one to hand out. *)
Definition tasks_below (σ : Server) : Prop :=
  ∀ t, is_Some (tasks σ !! t) → t < next_task σ.

(** A handler waiting for the read-back holds the id of a stored message,
    stored under the channel its [channelId] spells. *)
Definition find_stored (σ : Server) : Prop :=
  ∀ t sid ch id, tasks σ !! t = Some (AwaitFind sid ch id) →
    ∃ row, Messages (db σ) !! id = Some row ∧
           channel_in ch = Some (channel_id row).

(** No two handlers wait for the read-back of the same message. *)
Definition find_unique (σ : Server) : Prop :=
  ∀ t1 t2 sid1 ch1 sid2 ch2 id,
    tasks σ !! t1 = Some (AwaitFind sid1 ch1 id) →
    tasks σ !! t2 = Some (AwaitFind sid2 ch2 id) → t1 = t2.

Record wf (σ : Server) : Prop := mk_wf {
  wf_rooms_live : rooms_live σ;
  wf_closed_dead : closed_dead σ;
  wf_tasks_below : tasks_below σ;
  wf_find_stored : find_stored σ;
  wf_find_unique : find_unique σ
}.

Ltac wf_cases :=
  split;
  unfold rooms_live, closed_dead, tasks_below, find_stored, find_unique in *;
  simpl; try done.

Lemma wf_init d : wf (init d).
Proof.
  split; unfold init; intros ?; simpl; intros;
    try (by rewrite ?lookup_empty in *; try set_solver).
Qed.

Lemma step_Connection_wf σ sid token now up :
  wf σ → wf (step σ (Connection sid token now up)).1.
Proof.
  intros [H1 H2 H3 H4 H5]. simpl. case_decide as Hin; [done|].
  destruct (io_use_auth _ _ _ _) as [user|msg]; [|done].
  wf_cases.
  - intros r s [[_ ->]|Hs]%elem_of_members_addAll.
    + rewrite lookup_insert_eq. eauto.
    + destruct (decide (sid = s)) as [->|]; [rewrite lookup_insert_eq; eauto|].
      rewrite lookup_insert_ne by done. eauto.
  - intros s Hs. rewrite lookup_insert_ne; [by apply H2|].
    intros ->. apply Hin. set_solver.
Qed.

Lemma step_Join_channel_wf σ sid ch :
  wf σ → wf (step σ (Join_channel sid ch)).1.
Proof.
  intros [H1 H2 H3 H4 H5]. simpl.
  destruct (sockets σ !! sid) as [user|] eqn:Hs; [|done].
  wf_cases.
  intros r s [[_ ->]|Hm]%elem_of_members_addAll; eauto.
Qed.

Lemma step_Send_message_wf σ sid data :
  wf σ → wf (step σ (Send_message sid data)).1.
Proof.
  intros [H1 H2 H3 H4 H5]. simpl.
  destruct (sockets σ !! sid) as [user|] eqn:Hs; [|done].
  assert (Hfresh : tasks σ !! next_task σ = None).
  { apply eq_None_not_Some. intros Hn%H3. lia. }
  destruct data as [|fields]; wf_cases.
  - intros t Ht%H3. lia.
  - intros t. destruct (decide (next_task σ = t)) as [<-|Hne]; [lia|].
    rewrite lookup_insert_ne by done. intros Ht%H3. lia.
  - intros t s ch id. destruct (decide (next_task σ = t)) as [<-|Hne].
    + by rewrite lookup_insert_eq.
    + rewrite lookup_insert_ne by done. apply H4.
  - intros t1 t2 s1 c1 s2 c2 id.
    destruct (decide (next_task σ = t1)) as [<-|Hne1];
      [by rewrite lookup_insert_eq|].
    destruct (decide (next_task σ = t2)) as [<-|Hne2];
      [by rewrite (lookup_insert_eq _ (next_task σ))|].
    rewrite !lookup_insert_ne by done. apply H5.
Qed.

Lemma step_Create_settles_wf σ t up uuid now :
  wf σ → wf (step σ (Create_settles t up uuid now)).1.
Proof.
  intros [H1 H2 H3 H4 H5]. simpl.
  destruct (tasks σ !! t) as [[sid ch c u|sid ch id]|] eqn:Ht; try done.
  destruct (Messages_create _ _ _ _ _ _ _) as [d [id|e]] eqn:Hc.
  - apply Messages_create_Resolves in Hc
      as (s & k & -> & -> & -> & Hnew & Hk & _ & _ & ->).
    wf_cases.
    + intros t'. destruct (decide (t = t')) as [<-|Hne].
      * intros _. apply H3. eauto.
      * rewrite lookup_insert_ne by done. apply H3.
    + intros t' s' ch' id'. destruct (decide (t = t')) as [<-|Hne].
      * rewrite lookup_insert_eq. intros [= <- <- <-].
        rewrite lookup_insert_eq. eauto.
      * rewrite lookup_insert_ne by done. intros Ht'.
        destruct (H4 _ _ _ _ Ht') as (row & Hrow & Hch).
        exists row. split; [|done].
        rewrite lookup_insert_ne; [done|]. intros <-. congruence.
    + assert (Hother : ∀ t' s' c', t ≠ t' →
                tasks σ !! t' ≠ Some (AwaitFind s' c' uuid)).
      { intros t' s' c' _ Ht'. destruct (H4 _ _ _ _ Ht') as (row & Hrow & _).
        congruence. }
      intros t1 t2 s1 c1 s2 c2 id.
      destruct (decide (t = t1)) as [<-|Hne1];
        destruct (decide (t = t2)) as [<-|Hne2]; try done.
      * rewrite lookup_insert_eq, lookup_insert_ne by done.
        intros [= <- <- <-] Ht2. by destruct (Hother _ _ _ Hne2 Ht2).
      * rewrite lookup_insert_ne, lookup_insert_eq by done.
        intros Ht1 [= <- <- <-]. by destruct (Hother _ _ _ Hne1 Ht1).
      * rewrite !lookup_insert_ne by done. apply H5.
  - apply Messages_create_Rejects in Hc as ->.
    wf_cases.
    + intros t' Ht'. apply H3. destruct (decide (t = t')) as [<-|Hne].
      * by rewrite lookup_delete_eq in Ht'; destruct Ht'.
      * by rewrite lookup_delete_ne in Ht'.
    + intros t' s' ch' id' Ht'. apply (H4 t' s').
      destruct (decide (t = t')) as [<-|Hne];
        [by rewrite lookup_delete_eq in Ht'|by rewrite lookup_delete_ne in Ht'].
    + intros t1 t2 s1 c1 s2 c2 id Ht1 Ht2.
      apply lookup_delete_Some in Ht1 as [_ Ht1].
      apply lookup_delete_Some in Ht2 as [_ Ht2]. eauto.
Qed.

Lemma step_Find_settles_wf σ t up :
  wf σ → wf (step σ (Find_settles t up)).1.
Proof.
  intros [H1 H2 H3 H4 H5]. simpl.
  destruct (tasks σ !! t) as [[sid ch c u|sid ch id]|] eqn:Ht; try done.
  wf_cases.
  - intros t' [x [_ Ht']%lookup_delete_Some]. apply H3. eauto.
  - intros t' s' ch' id' [_ Ht']%lookup_delete_Some. eauto.
  - intros t1 t2 s1 c1 s2 c2 id' [_ Ht1]%lookup_delete_Some
      [_ Ht2]%lookup_delete_Some. eauto.
Qed.

Lemma step_Disconnect_wf σ sid :
  wf σ → wf (step σ (Disconnect sid)).1.
Proof.
  intros [H1 H2 H3 H4 H5]. simpl.
  destruct (sockets σ !! sid) as [user|] eqn:Hs; [|done].
  wf_cases.
  - intros r s [Hne Hm]%elem_of_members_delAll.
    rewrite lookup_delete_ne by done. eauto.
  - intros s Hin. destruct (decide (sid = s)) as [<-|Hne].
    + apply lookup_delete_eq.
    + rewrite lookup_delete_ne by done. apply H2. set_solver.
Qed.

Lemma step_wf σ a : wf σ → wf (step σ a).1.
Proof.
  destruct a; eauto using step_Connection_wf, step_Join_channel_wf,
    step_Send_message_wf, step_Create_settles_wf, step_Find_settles_wf,
    step_Disconnect_wf.
Qed.

Lemma run_wf σ acts : wf σ → wf (run σ acts).1.
Proof.
  revert σ. induction acts as [|a acts IH]; intros σ Hwf; [done|].
  rewrite run_cons. simpl. by apply IH, step_wf.
Qed.

Lemma reachable_wf σ : reachable σ → wf σ.
Proof. intros (d & acts & <-). apply run_wf, wf_init. Qed.

(** ** Stored messages and their broadcast *)

(** No step deletes or rewrites a stored message. *)
Lemma step_Messages_mono σ a id row :
  Messages (db σ) !! id = Some row →
  Messages (db (step σ a).1) !! id = Some row.
Proof.
  intros Hrow.
  destruct a as [sid token now up|sid ch|sid data|t up uuid now|t up|sid];
    simpl.
  - case_decide; [done|]. by destruct (io_use_auth _ _ _ _).
  - by destruct (sockets σ !! sid).
  - by destruct (sockets σ !! sid).
  - destruct (tasks σ !! t) as [[s ch c u|s ch i]|]; try done.
    destruct (Messages_create _ _ _ _ _ _ _) as [d [i|e]] eqn:Hc; simpl.
    + apply Messages_create_Resolves in Hc
        as (c' & k & -> & -> & -> & Hnew & _ & _ & _ & ->).
      simpl. rewrite lookup_insert_ne; [done|]. intros <-. congruence.
    + by apply Messages_create_Rejects in Hc as ->.
  - by destruct (tasks σ !! t) as [[s ch c u|s ch i]|].
  - by destruct (sockets σ !! sid).
Qed.

Lemma run_Messages_mono σ acts id row :
  Messages (db σ) !! id = Some row →
  Messages (db (run σ acts).1) !! id = Some row.
Proof.
  revert σ. induction acts as [|a acts IH]; intros σ Hrow; [done|].
  rewrite run_cons. simpl. by apply IH, step_Messages_mono.
Qed.

(** Some handler is waiting for the read-back of message [id]. *)
Definition pending_find (σ : Server) (id : MsgId) : Prop :=
  ∃ t sid ch, tasks σ !! t = Some (AwaitFind sid ch id).

(** Message [id] is stored and no handler is left that could broadcast it. *)
Definition settled (σ : Server) (id : MsgId) : Prop :=
  is_Some (Messages (db σ) !! id) ∧ ¬ pending_find σ id.

(** A [receive_message] for [id] is only written by the handler that waited
    for the read-back of [id], when that read-back resolves. *)
Lemma step_receives σ a id :
  receives id (step σ a).2 →
  ∃ t sid ch, a = Find_settles t true ∧
              tasks σ !! t = Some (AwaitFind sid ch id).
Proof.
  intros (s & e & Hin & He).
  destruct a as [sid token now up|sid ch|sid data|t up uuid now|t up|sid];
    simpl in Hin.
  - case_decide; [by apply elem_of_nil in Hin|].
    destruct (io_use_auth _ _ _ _); [by apply elem_of_nil in Hin|].
    apply list_elem_of_singleton in Hin as [= -> ->]. done.
  - destruct (sockets σ !! sid); by apply elem_of_nil in Hin.
  - destruct (sockets σ !! sid); by apply elem_of_nil in Hin.
  - destruct (tasks σ !! t) as [[s' ch c u|s' ch i]|];
      try by apply elem_of_nil in Hin.
    destruct (Messages_create _ _ _ _ _ _ _) as [d [i|err]]; simpl in Hin;
      [by apply elem_of_nil in Hin|].
    apply elem_of_socket_emit in Hin as (_ & -> & _). done.
  - destruct (tasks σ !! t) as [[s' ch c u|s' ch i]|] eqn:Ht;
      try by apply elem_of_nil in Hin.
    simpl in Hin. unfold Messages_findByPk in Hin. destruct up.
    + apply elem_of_io_to_emit in Hin as (-> & _ & _).
      destruct (Messages (db σ) !! i) as [row|]; simpl in He; [|done].
      injection He as <-. eauto.
    + apply elem_of_socket_emit in Hin as (_ & -> & _). done.
  - destruct (sockets σ !! sid); by apply elem_of_nil in Hin.
Qed.

(** A handler only starts waiting for a read-back on a message it has just
    stored under a fresh id. *)
Lemma step_pending_find σ a id :
  pending_find (step σ a).1 id →
  pending_find σ id ∨ Messages (db σ) !! id = None.
Proof.
  intros (t' & s' & c' & Ht').
  destruct a as [sid token now up|sid ch|sid data|t up uuid now|t up|sid];
    simpl in Ht'.
  - left. exists t', s', c'. case_decide; [done|].
    by destruct (io_use_auth _ _ _ _).
  - left. exists t', s', c'. by destruct (sockets σ !! sid).
  - left. exists t', s', c'. destruct (sockets σ !! sid); [|done].
    simpl in Ht'. destruct data as [|fields]; [done|].
    apply lookup_insert_Some in Ht' as [[_ ?]|[_ ?]]; done.
  - destruct (tasks σ !! t) as [[s ch c u|s ch i]|] eqn:Ht;
      try (left; by exists t', s', c').
    destruct (Messages_create _ _ _ _ _ _ _) as [d [i|e]] eqn:Hc;
      simpl in Ht'.
    + apply Messages_create_Resolves in Hc
        as (c0 & k & -> & -> & -> & Hnew & _ & _ & _ & ->).
      apply lookup_insert_Some in Ht' as [[_ [= <- <- <-]]|[_ ?]];
        [by right|left; by exists t', s', c'].
    + apply lookup_delete_Some in Ht' as [_ ?]. left. by exists t', s', c'.
  - left. exists t', s', c'.
    destruct (tasks σ !! t) as [[s ch c u|s ch i]|]; try done.
    simpl in Ht'. by apply lookup_delete_Some in Ht' as [_ ?].
  - left. exists t', s', c'. by destruct (sockets σ !! sid).
Qed.

Lemma step_settled σ a id : settled σ id → settled (step σ a).1 id.
Proof.
  intros [[row Hrow] Hnp]. split.
  - exists row. by apply step_Messages_mono.
  - intros [Hp|Hnone]%step_pending_find; [done|congruence].
Qed.

Lemma run_settled σ acts id : settled σ id → settled (run σ acts).1 id.
Proof.
  revert σ. induction acts as [|a acts IH]; intros σ Hs; [done|].
  rewrite run_cons. simpl. by apply IH, step_settled.
Qed.

(** Once a message is settled no step broadcasts it. *)
Lemma run_settled_silent σ acts id :
  settled σ id → ¬ receives id (run σ acts).2.
Proof.
  revert σ. induction acts as [|a acts IH]; intros σ Hs.
  - apply receives_nil.
  - rewrite run_cons. simpl. intros [Hr|Hr]%receives_app.
    + apply step_receives in Hr as (t & s & c & _ & Ht).
      destruct Hs as [_ Hnp]. apply Hnp. by exists t, s, c.
    + by apply (IH (step σ a).1 (step_settled _ a _ Hs)).
Qed.

(** When a read-back settles, whichever way, the message is settled: its
    handler ends and no other waits for it. *)
Lemma Find_settles_settled σ t up sid ch id :
  wf σ → tasks σ !! t = Some (AwaitFind sid ch id) →
  settled (step σ (Find_settles t up)).1 id.
Proof.
  intros Hwf Ht.
  destruct (wf_find_stored σ Hwf _ _ _ _ Ht) as (row & Hrow & _).
  simpl. rewrite Ht. split; simpl; [eauto|].
  intros (t' & s' & c' & Ht'). simpl in Ht'.
  apply lookup_delete_Some in Ht' as [Hne Ht'].
  by destruct Hne, (wf_find_unique σ Hwf _ _ _ _ _ _ _ Ht Ht').
Qed.

(** The broadcast of a message settles it. *)
Lemma step_receives_settled σ a id :
  wf σ → receives id (step σ a).2 → settled (step σ a).1 id.
Proof.
  intros Hwf Hr. apply step_receives in Hr as (t & s & c & -> & Ht).
  by eapply Find_settles_settled.
Qed.

Lemma run_receives_settled σ acts id :
  wf σ → receives id (run σ acts).2 → settled (run σ acts).1 id.
Proof.
  revert σ. induction acts as [|a acts IH]; intros σ Hwf.
  - by intros ?%receives_nil.
  - rewrite run_cons. simpl. intros [Hr|Hr]%receives_app.
    + by apply run_settled, step_receives_settled.
    + by apply IH; [apply step_wf|].
Qed.

(** A message whose read-back is still awaited has not been broadcast. *)
Lemma pending_find_silent σ acts id :
  wf σ → pending_find (run σ acts).1 id → ¬ receives id (run σ acts).2.
Proof.
  intros Hwf Hp Hr. by destruct (run_receives_settled _ _ _ Hwf Hr) as [_ []].
Qed.

(** ** The life of a handler *)

(** A handler waits for a read-back only after its own [Messages.create]
    resolved. *)
Lemma step_AwaitFind_inv σ a t sid ch id :
  tasks (step σ a).1 !! t = Some (AwaitFind sid ch id) →
  tasks σ !! t = Some (AwaitFind sid ch id) ∨
  ∃ up now c u d,
    a = Create_settles t up id now ∧
    tasks σ !! t = Some (AwaitCreate sid ch c u) ∧
    Messages_create (db σ) up id now c ch u = (d, Resolves id).
Proof.
  intros Ht'.
  destruct a as [s token now up|s c|s data|t0 up uuid now|t0 up|s];
    simpl in Ht'.
  - left. case_decide; [done|]. by destruct (io_use_auth _ _ _ _).
  - left. by destruct (sockets σ !! s).
  - left. destruct (sockets σ !! s); [|done].
    simpl in Ht'. destruct data as [|fields]; [done|].
    by apply lookup_insert_Some in Ht' as [[_ ?]|[_ ?]].
  - destruct (tasks σ !! t0) as [[s0 ch0 c0 u0|s0 ch0 i0]|] eqn:Ht0;
      try by left.
    destruct (Messages_create _ _ _ _ _ _ _) as [d [i|e]] eqn:Hc;
      simpl in Ht'.
    + pose proof Hc as Hc'. apply Messages_create_Resolves in Hc'
        as (c' & k & _ & _ & -> & _).
      apply lookup_insert_Some in Ht' as [[<- [= <- <- <-]]|[_ ?]];
        [right; by exists up, now, c0, u0, d|by left].
    + apply lookup_delete_Some in Ht' as [_ ?]. by left.
  - left. destruct (tasks σ !! t0) as [[s0 ch0 c0 u0|s0 ch0 i0]|]; try done.
    simpl in Ht'. by apply lookup_delete_Some in Ht' as [_ ?].
  - left. by destruct (sockets σ !! s).
Qed.

(** ... and that [Messages.create] is a step of the run that led there. *)
Lemma run_AwaitFind_history d acts t sid ch id :
  tasks (run (init d) acts).1 !! t = Some (AwaitFind sid ch id) →
  ∃ pre up now post c u d',
    acts = pre ++ Create_settles t up id now :: post ∧
    tasks (run (init d) pre).1 !! t = Some (AwaitCreate sid ch c u) ∧
    Messages_create (db (run (init d) pre).1) up id now c ch u
      = (d', Resolves id).
Proof.
  induction acts as [|a acts IH] using rev_ind; [done|].
  rewrite run_app. cbn [fst]. rewrite run_cons. cbn [run fst].
  intros [Ht|(up & now & c & u & d' & -> & Ht & Hc)]%step_AwaitFind_inv.
  - destruct (IH Ht) as (pre & up & now & post & c & u & d' & -> & ? & ?).
    exists pre, up, now, (post ++ [a]), c, u, d'.
    by rewrite <-app_assoc, <-app_comm_cons.
  - by exists acts, up, now, [], c, u, d'.
Qed.

(** A packet of a run was written by one of its steps. *)
Lemma run_elem_of σ acts p :
  p ∈ (run σ acts).2 →
  ∃ pre a post, acts = pre ++ a :: post ∧ p ∈ (step (run σ pre).1 a).2.
Proof.
  revert σ. induction acts as [|a acts IH]; intros σ.
  - by intros ?%elem_of_nil.
  - rewrite run_cons. cbn [snd]. intros [Hp|Hp]%elem_of_app.
    + by exists [], a, acts.
    + destruct (IH _ Hp) as (pre & a' & post & -> & Hin).
      exists (a :: pre), a', post. split; [done|].
      by rewrite run_cons.
Qed.

(** A handler that has ended does not come back: task numbers are not
    handed out twice. *)
Lemma step_task_gone σ a t :
  t < next_task σ → tasks σ !! t = None →
  t < next_task (step σ a).1 ∧ tasks (step σ a).1 !! t = None.
Proof.
  intros Hlt Hnone.
  destruct a as [s token now up|s c|s data|t0 up uuid now|t0 up|s]; simpl.
  - case_decide; [done|]. by destruct (io_use_auth _ _ _ _).
  - by destruct (sockets σ !! s).
  - destruct (sockets σ !! s); [|done]. simpl. split; [lia|].
    destruct data as [|fields]; [done|].
    rewrite lookup_insert_ne; [done|lia].
  - destruct (tasks σ !! t0) as [[s0 ch0 c0 u0|s0 ch0 i0]|] eqn:Ht0;
      try done.
    destruct (Messages_create _ _ _ _ _ _ _) as [d [i|e]]; simpl.
    + split; [done|]. rewrite lookup_insert_ne; [done|congruence].
    + split; [done|]. apply lookup_delete_None. by right.
  - destruct (tasks σ !! t0) as [[s0 ch0 c0 u0|s0 ch0 i0]|]; try done.
    simpl. split; [done|]. apply lookup_delete_None. by right.
  - by destruct (sockets σ !! s).
Qed.

Lemma run_task_gone σ acts t :
  t < next_task σ → tasks σ !! t = None →
  tasks (run σ acts).1 !! t = None.
Proof.
  revert σ. induction acts as [|a acts IH]; intros σ Hlt Hnone; [done|].
  rewrite run_cons. cbn [fst].
  by destruct (step_task_gone σ a t Hlt Hnone); apply IH.
Qed.

(** What a [receive_message] packet carries: the stored record of the
    message whose read-back just resolved, with its sender joined. *)
Lemma step_receive_message_inv σ a s m :
  wf σ → (s, receive_message m) ∈ (step σ a).2 →
  ∃ t sid ch id row,
    a = Find_settles t true ∧
    tasks σ !! t = Some (AwaitFind sid ch id) ∧
    Messages (db σ) !! id = Some row ∧
    m = Some (mkMessageWithSender id (content row) (created_at row)
                (channel_id row) (user_id row) (sender_of (db σ) (user_id row))).
Proof.
  intros Hwf Hin.
  destruct a as [s0 token now up|s0 c|s0 data|t0 up uuid now|t0 up|s0];
    simpl in Hin.
  - case_decide; [by apply elem_of_nil in Hin|].
    destruct (io_use_auth _ _ _ _); [by apply elem_of_nil in Hin|].
    by apply list_elem_of_singleton in Hin.
  - destruct (sockets _ !! s0); by apply elem_of_nil in Hin.
  - destruct (sockets _ !! s0); by apply elem_of_nil in Hin.
  - destruct (tasks _ !! t0) as [[s' ch c u|s' ch i]|];
      try by apply elem_of_nil in Hin.
    destruct (Messages_create _ _ _ _ _ _ _) as [d0 [i|err]];
      simpl in Hin; [by apply elem_of_nil in Hin|].
    by apply elem_of_socket_emit in Hin as (_ & ? & _).
  - destruct (tasks _ !! t0) as [[s' ch c u|s' ch i]|] eqn:Ht;
      try by apply elem_of_nil in Hin.
    simpl in Hin. unfold Messages_findByPk in Hin. destruct up.
    + apply elem_of_io_to_emit in Hin as ([= ->] & _ & _).
      destruct (wf_find_stored _ Hwf _ _ _ _ Ht) as (row & Hrow & _).
      exists t0, s', ch, i, row. by rewrite Hrow.
    + by apply elem_of_socket_emit in Hin as (_ & ? & _).
  - destruct (sockets _ !! s0); by apply elem_of_nil in Hin.
Qed.

(** ** Persistence before broadcast *)

(** C1: no broadcast without persistence.  In every run, (1) a
    [receive_message] packet is written by a handler whose own
    [Messages.create] resolved at an earlier step of the run, and it carries
    the record that write stored; and (2) when a handler's [Messages.create]
    rejects, the store is left as it was, the only packet written is [error]
    to the sending socket, and the handler has ended, so that no later step
    finds it to broadcast anything. *)
Theorem no_broadcast_without_persistence d acts :
  (∀ s m, (s, receive_message m) ∈ (run (init d) acts).2 →
     ∃ pre up uuid now mid post t sid ch c u d' row,
       acts = pre ++ Create_settles t up uuid now :: mid
                  ++ Find_settles t true :: post ∧
       tasks (run (init d) pre).1 !! t = Some (AwaitCreate sid ch c u) ∧
       Messages_create (db (run (init d) pre).1) up uuid now c ch u
         = (d', Resolves uuid) ∧
       Messages d' !! uuid = Some row ∧
       m = Some (mkMessageWithSender uuid (content row) (created_at row)
                   (channel_id row) (user_id row)
                   (sender_of
                      (db (run (init d)
                             (pre ++ Create_settles t up uuid now :: mid)).1)
                      (user_id row)))) ∧
  (∀ t up uuid now sid ch c u d' e,
     let σ := (run (init d) acts).1 in
     tasks σ !! t = Some (AwaitCreate sid ch c u) →
     Messages_create (db σ) up uuid now c ch u = (d', Rejects e) →
     db (step σ (Create_settles t up uuid now)).1 = db σ ∧
     (step σ (Create_settles t up uuid now)).2
       = socket_emit σ sid (error send_error) ∧
     (∀ s ev, (s, ev) ∈ (step σ (Create_settles t up uuid now)).2 →
              s = sid ∧ ev = error send_error) ∧
     ∀ acts', tasks (run (step σ (Create_settles t up uuid now)).1 acts').1
                !! t = None).
Proof.
  split.
  - intros s m Hin.
    apply run_elem_of in Hin as (pre2 & a & post & -> & Hin).
    pose proof (reachable_wf _ (reachable_run _ pre2 (reachable_init d)))
      as Hwf.
    apply (step_receive_message_inv _ _ _ _ Hwf) in Hin
      as (t & sid & ch & id & row0 & -> & Ht & Hrow0 & ->).
    destruct (run_AwaitFind_history _ _ _ _ _ _ Ht)
      as (pre & up & now & mid & c & u & d' & -> & Hpre & Hc).
    pose proof Hc as Hc'. apply Messages_create_Resolves in Hc'
      as (c' & k & -> & -> & _ & Hnew & Hk & _ & _ & ->).
    assert (Hrow : Messages (db (run (init d)
                     (pre ++ Create_settles t true id now :: mid)).1) !! id
                   = Some (mkMessagesRow (text_in c') now k u)).
    { rewrite run_app. cbn [fst]. rewrite run_cons. cbn [fst].
      apply run_Messages_mono. simpl. rewrite Hpre, Hc. simpl.
      apply lookup_insert_eq. }
    rewrite Hrow in Hrow0. injection Hrow0 as <-.
    exists pre, true, id, now, mid, post, t, sid, ch, (Some c'), u.
    eexists _, (mkMessagesRow (text_in c') now k u).
    split; [by rewrite <-app_assoc, <-app_comm_cons|].
    split; [done|]. split; [done|].
    split; [apply lookup_insert_eq|done].
  - intros t up uuid now sid ch c u d' e σ Ht Hc.
    pose proof (reachable_wf _ (reachable_run _ acts (reachable_init d)))
      as Hwf. fold σ in Hwf.
    pose proof Hc as ->%Messages_create_Rejects.
    simpl. rewrite Ht, Hc. simpl. repeat split.
    + by apply elem_of_socket_emit in H as (? & ? & _).
    + by apply elem_of_socket_emit in H as (? & ? & _).
    + intros acts'. apply run_task_gone; simpl.
      * apply (wf_tasks_below σ Hwf). eauto.
      * apply lookup_delete_eq.
Qed.

(** ** Fanout *)

(** The statement that every persisted message is fanned out: a handler
    has stored message [id] and waits for its read-back; when the read-back
    settles, whichever way, every connection then in the room of the send's
    channel is written exactly one [receive_message] for [id] over the whole
    run. *)
Definition fanout_every_persisted : Prop :=
  ∀ d pre post t up sid ch id s,
    let σ := (run (init d) pre).1 in
    tasks σ !! t = Some (AwaitFind sid ch id) →
    is_Some (Messages (db σ) !! id) →
    s ∈ members (rooms σ) ch →
    deliveries s id (run (init d) (pre ++ Find_settles t up :: post)).2 = 1.

(** C4, as the code has it: exactly-once fanout of the messages whose
    read-back resolves.  When the read-back of a stored message resolves,
    the handler broadcasts the stored record, whose channel is the one the
    send's [channelId] spells, to the room named by that [channelId] as the
    client wrote it; and over the whole run every connection in that room
    at that moment is written exactly one [receive_message] for it, the
    sender's own connection included if it is in the room; a connection not
    in the room is written none. *)
Theorem fanout_exactly_once d pre post t up sid ch id m :
  let σ := (run (init d) pre).1 in
  let log := (run (init d) (pre ++ Find_settles t up :: post)).2 in
  tasks σ !! t = Some (AwaitFind sid ch id) →
  Messages_findByPk (db σ) up id = Resolves m →
  (∃ row, Messages (db σ) !! id = Some row ∧
          channel_in ch = Some (channel_id row) ∧
          m = Some (mkMessageWithSender id (content row) (created_at row)
                      (channel_id row) (user_id row)
                      (sender_of (db σ) (user_id row)))) ∧
  (∀ s, s ∈ members (rooms σ) ch →
        is_Some (sockets σ !! s) ∧
        deliveries s id log = 1 ∧ (s, receive_message m) ∈ log) ∧
  (sid ∈ members (rooms σ) ch → deliveries sid id log = 1) ∧
  (∀ s, s ∉ members (rooms σ) ch → deliveries s id log = 0).
Proof.
  intros σ log Ht Hfind.
  pose proof (reachable_wf _ (reachable_run _ pre (reachable_init d))) as Hwf.
  fold σ in Hwf.
  destruct (wf_find_stored σ Hwf _ _ _ _ Ht) as (row & Hrow & Hch).
  unfold Messages_findByPk in Hfind. destruct up; [|done].
  rewrite Hrow in Hfind. simpl in Hfind. injection Hfind as <-.
  set (m := mkMessageWithSender id (content row) (created_at row)
              (channel_id row) (user_id row) (sender_of (db σ) (user_id row))).
  assert (Hout : (step σ (Find_settles t true)).2
                 = io_to_emit σ ch (receive_message (Some m))).
  { simpl. rewrite Ht. simpl. unfold Messages_findByPk. by rewrite Hrow. }
  assert (Hlog : log = (run (init d) pre).2
                   ++ io_to_emit σ ch (receive_message (Some m))
                   ++ (run (step σ (Find_settles t true)).1 post).2).
  { unfold log. rewrite run_app. cbn [snd fst]. fold σ.
    rewrite run_cons. cbn [snd]. by rewrite Hout. }
  assert (Hbefore : ∀ s, deliveries s id (run (init d) pre).2 = 0).
  { intros s. apply deliveries_silent, pending_find_silent; [apply wf_init|].
    by exists t, sid, ch. }
  assert (Hafter : ∀ s,
            deliveries s id (run (step σ (Find_settles t true)).1 post).2 = 0).
  { intros s. apply deliveries_silent, run_settled_silent.
    by eapply Find_settles_settled. }
  assert (Hcount : ∀ s, deliveries s id log
            = if decide (s ∈ members (rooms σ) ch ∧ is_Some (sockets σ !! s))
              then 1 else 0).
  { intros s. rewrite Hlog, !deliveries_app, Hbefore, Hafter.
    change id with (msg_id m). rewrite deliveries_io_to_emit. lia. }
  split; [by exists row|].
  split; [|split].
  - intros s Hs. pose proof (wf_rooms_live σ Hwf _ _ Hs) as Hlive.
    split; [done|]. split.
    + by rewrite Hcount, decide_True.
    + rewrite Hlog. apply elem_of_app. right. apply elem_of_app. left.
      by apply elem_of_io_to_emit.
  - intros Hs. rewrite Hcount, decide_True; [done|].
    split; [done|]. by apply (wf_rooms_live σ Hwf _ _ Hs).
  - intros s Hs. rewrite Hcount, decide_False; [done|]. by intros [? _].
Qed.

(** ** A read-back that fails *)

(** C10: the broadcast hangs on the read-back.  When a handler has stored its
    message and the read-back rejects, the record stays in the store for the
    rest of the run, no [receive_message] for it is written anywhere in the
    run, and the step writes [error] to the sending socket and nothing
    else. *)
Theorem read_back_failure_drops_broadcast d pre post t up sid ch id e :
  let σ := (run (init d) pre).1 in
  let fin := run (init d) (pre ++ Find_settles t up :: post) in
  tasks σ !! t = Some (AwaitFind sid ch id) →
  Messages_findByPk (db σ) up id = Rejects e →
  (∃ pre0 up0 now post0 c u d',
     pre = pre0 ++ Create_settles t up0 id now :: post0 ∧
     tasks (run (init d) pre0).1 !! t = Some (AwaitCreate sid ch c u) ∧
     Messages_create (db (run (init d) pre0).1) up0 id now c ch u
       = (d', Resolves id)) ∧
  is_Some (Messages (db σ) !! id) ∧
  is_Some (Messages (db fin.1) !! id) ∧
  ¬ receives id fin.2 ∧
  (step σ (Find_settles t up)).2 = socket_emit σ sid (error send_error) ∧
  (is_Some (sockets σ !! sid) → (sid, error send_error) ∈ fin.2).
Proof.
  intros σ fin Ht Hfind.
  pose proof (reachable_wf _ (reachable_run _ pre (reachable_init d))) as Hwf.
  fold σ in Hwf.
  destruct (wf_find_stored σ Hwf _ _ _ _ Ht) as (row & Hrow & Hch).
  assert (Hout : (step σ (Find_settles t up)).2
                 = socket_emit σ sid (error send_error)).
  { simpl. rewrite Ht. simpl. by rewrite Hfind. }
  assert (Hfin : fin = ((run (step σ (Find_settles t up)).1 post).1,
                        (run (init d) pre).2
                          ++ socket_emit σ sid (error send_error)
                          ++ (run (step σ (Find_settles t up)).1 post).2)).
  { unfold fin. rewrite run_app. cbn [snd fst]. fold σ.
    rewrite run_cons. cbn [snd fst]. by rewrite Hout. }
  assert (Hset : settled (step σ (Find_settles t up)).1 id).
  { by eapply Find_settles_settled. }
  split; [by apply run_AwaitFind_history|].
  split; [eauto|]. rewrite Hfin. cbn [fst snd].
  split; [by apply run_settled|]. split; [|split; [done|]].
  - rewrite !receives_app. intros [Hr|[Hr|Hr]].
    + revert Hr. apply pending_find_silent; [apply wf_init|].
      by exists t, sid, ch.
    + destruct Hr as (s & ev & (_ & -> & _)%elem_of_socket_emit & Hev). done.
    + by apply run_settled_silent in Hr.
  - intros Hs. apply elem_of_app. right. apply elem_of_app. left.
    by apply elem_of_socket_emit.
Qed.

(** ** The sender of a stored message *)

(** [socket.user] is set by the middleware of the socket's own handshake. *)
Lemma step_sockets_inv σ a sid user :
  sockets (step σ a).1 !! sid = Some user →
  sockets σ !! sid = Some user ∨
  ∃ token now up, a = Connection sid token now up ∧
                  io_use_auth (db σ) up now token = Next user.
Proof.
  intros Hs.
  destruct a as [s token now up|s c|s data|t0 up uuid now|t0 up|s];
    simpl in Hs.
  - case_decide; [by left|].
    destruct (io_use_auth _ _ _ _) as [u|msg] eqn:Hmw; [|by left].
    simpl in Hs. apply lookup_insert_Some in Hs as [[<- <-]|[_ ?]];
      [right; by exists token, now, up|by left].
  - left. by destruct (sockets σ !! s).
  - left. by destruct (sockets σ !! s).
  - left. destruct (tasks σ !! t0) as [[s0 ch0 c0 u0|s0 ch0 i0]|]; try done.
    by destruct (Messages_create _ _ _ _ _ _ _) as [d [i|e]].
  - left. by destruct (tasks σ !! t0) as [[s0 ch0 c0 u0|s0 ch0 i0]|].
  - left. destruct (sockets σ !! s); [|done].
    simpl in Hs. by apply lookup_delete_Some in Hs as [_ ?].
Qed.

Lemma run_sockets_history d acts sid user :
  sockets (run (init d) acts).1 !! sid = Some user →
  ∃ pre token now up post,
    acts = pre ++ Connection sid token now up :: post ∧
    io_use_auth (db (run (init d) pre).1) up now token = Next user.
Proof.
  induction acts as [|a acts IH] using rev_ind; [done|].
  rewrite run_app. cbn [fst]. rewrite run_cons. cbn [run fst].
  intros [Hs|(token & now & up & -> & Hmw)]%step_sockets_inv.
  - destruct (IH Hs) as (pre & token & now & up & post & -> & ?).
    exists pre, token, now, up, (post ++ [a]).
    by rewrite <-app_assoc, <-app_comm_cons.
  - by exists acts, token, now, up, [].
Qed.

(** The arguments a suspended [Messages.create] was called with do not
    change while it is awaited. *)
Lemma step_AwaitCreate_inv σ a t x :
  t < next_task σ →
  tasks (step σ a).1 !! t = Some x → (∃ s ch c u, x = AwaitCreate s ch c u) →
  t < next_task (step σ a).1 ∧ tasks σ !! t = Some x.
Proof.
  intros Hlt Ht (s0 & ch0 & c0 & u0 & ->).
  destruct a as [s token now up|s c|s data|t0 up uuid now|t0 up|s];
    simpl in *.
  - case_decide; [done|]. by destruct (io_use_auth _ _ _ _).
  - by destruct (sockets σ !! s).
  - destruct (sockets σ !! s); [|done]. simpl in *. split; [lia|].
    destruct data as [|fields]; [done|].
    apply lookup_insert_Some in Ht as [[? _]|[_ ?]]; [lia|done].
  - destruct (tasks σ !! t0) as [[s1 ch1 c1 u1|s1 ch1 i1]|]; try done.
    destruct (Messages_create _ _ _ _ _ _ _) as [d [i|e]]; simpl in *.
    + by apply lookup_insert_Some in Ht as [[_ ?]|[_ ?]].
    + by apply lookup_delete_Some in Ht as [_ ?].
  - destruct (tasks σ !! t0) as [[s1 ch1 c1 u1|s1 ch1 i1]|]; try done.
    simpl in *. by apply lookup_delete_Some in Ht as [_ ?].
  - by destruct (sockets σ !! s).
Qed.

Lemma step_next_task_mono σ a :
  (next_task σ ≤ next_task (step σ a).1)%nat.
Proof.
  destruct a as [s token now up|s c|s data|t0 up uuid now|t0 up|s]; simpl;
    repeat case_match; simpl; lia.
Qed.

Lemma run_AwaitCreate_inv σ acts t s ch c u :
  t < next_task σ →
  tasks (run σ acts).1 !! t = Some (AwaitCreate s ch c u) →
  tasks σ !! t = Some (AwaitCreate s ch c u).
Proof.
  revert σ. induction acts as [|a acts IH]; intros σ Hlt; [done|].
  rewrite run_cons. cbn [fst]. intros Ht.
  apply IH in Ht; [|pose proof (step_next_task_mono σ a); lia].
  eapply step_AwaitCreate_inv in Ht as [_ ?]; eauto.
Qed.

(** C8: the sender of a stored message is the authenticated identity.  Take
    a connection whose [socket.user] is [user], a [send_message] on it with
    any payload, and the later step where that handler's [Messages.create]
    settles, whatever the server did in between.  If that step stores a
    record, the record's [user_id] is [user.id], and [user] is what the
    middleware resolved at the connection's handshake; the payload only
    supplies [content] and [channel_id], which are stored as their columns
    keep them. *)
Theorem sender_is_authenticated_identity
    d pre sid user data mid up uuid now row :
  let σ := (run (init d) pre).1 in
  let σ2 := (run (step σ (Send_message sid data)).1 mid).1 in
  let σ3 := (step σ2 (Create_settles (next_task σ) up uuid now)).1 in
  sockets σ !! sid = Some user →
  Messages (db σ2) !! uuid = None →
  Messages (db σ3) !! uuid = Some row →
  user_id row = su_id user ∧
  text_in <$> data !! "content" = Some (content row) ∧
  channel_in (data !! "channelId") = Some (channel_id row) ∧
  ∃ pre0 token now0 up0 post0,
    pre = pre0 ++ Connection sid token now0 up0 :: post0 ∧
    io_use_auth (db (run (init d) pre0).1) up0 now0 token = Next user.
Proof.
  intros σ σ2 σ3 Hs Hnone Hrow.
  assert (Ht : tasks σ2 !! next_task σ
               = Some (AwaitCreate sid (data !! "channelId")
                         (data !! "content") (su_id user))).
  { unfold σ3 in Hrow. simpl in Hrow.
    destruct (tasks σ2 !! next_task σ) as [[s1 ch1 c1 u1|s1 ch1 i1]|] eqn:Ht;
      simpl in Hrow; try congruence.
    apply run_AwaitCreate_inv in Ht as Ht1.
    - simpl in Ht1. rewrite Hs in Ht1. simpl in Ht1.
      destruct data as [|fields].
      + pose proof (reachable_wf _ (reachable_run _ pre (reachable_init d)))
          as Hwf.
        assert (next_task σ < next_task σ); [|lia].
        apply (wf_tasks_below _ Hwf). unfold σ. eauto.
      + rewrite lookup_insert_eq in Ht1. congruence.
    - simpl. rewrite Hs. simpl. lia. }
  unfold σ3 in Hrow. simpl in Hrow. rewrite Ht in Hrow.
  destruct (Messages_create _ _ _ _ _ _ _) as [d' [i|e]] eqn:Hc.
  - apply Messages_create_Resolves in Hc
      as (c & k & Hcontent & -> & -> & _ & Hk & _ & _ & ->).
    simpl in Hrow. rewrite lookup_insert_eq in Hrow. injection Hrow as <-.
    simpl. split; [done|]. split; [by rewrite Hcontent|]. split; [done|].
    by apply run_sockets_history.
  - apply Messages_create_Rejects in Hc as ->. simpl in Hrow. congruence.
Qed.

(** ** Teardown *)

Lemma step_closed_mono σ a s : s ∈ closed σ → s ∈ closed (step σ a).1.
Proof.
  intros Hin.
  destruct a as [s0 token now up|s0 c|s0 data|t0 up uuid now|t0 up|s0];
    simpl; repeat case_match; simpl; set_solver.
Qed.

(** No packet is written to a socket that was torn down. *)
Lemma step_closed_silent σ a s ev :
  wf σ → s ∈ closed σ → (s, ev) ∉ (step σ a).2.
Proof.
  intros Hwf Hin Hev.
  pose proof (wf_closed_dead σ Hwf s Hin) as Hdead.
  destruct a as [s0 token now up|s0 c|s0 data|t0 up uuid now|t0 up|s0];
    simpl in Hev.
  - case_decide as Hfresh; [by apply elem_of_nil in Hev|].
    destruct (io_use_auth _ _ _ _); [by apply elem_of_nil in Hev|].
    apply list_elem_of_singleton in Hev as [= -> ->]. set_solver.
  - destruct (sockets σ !! s0); by apply elem_of_nil in Hev.
  - destruct (sockets σ !! s0); by apply elem_of_nil in Hev.
  - destruct (tasks σ !! t0) as [[s1 ch1 c1 u1|s1 ch1 i1]|];
      try by apply elem_of_nil in Hev.
    destruct (Messages_create _ _ _ _ _ _ _) as [d [i|e]]; simpl in Hev;
      [by apply elem_of_nil in Hev|].
    apply elem_of_socket_emit in Hev as (-> & _ & [u Hu]). congruence.
  - destruct (tasks σ !! t0) as [[s1 ch1 c1 u1|s1 ch1 i1]|];
      try by apply elem_of_nil in Hev.
    simpl in Hev. destruct (Messages_findByPk _ _ _).
    + apply elem_of_io_to_emit in Hev as (_ & _ & [u Hu]). congruence.
    + apply elem_of_socket_emit in Hev as (-> & _ & [u Hu]). congruence.
  - destruct (sockets σ !! s0); by apply elem_of_nil in Hev.
Qed.

Lemma run_closed σ acts s :
  wf σ → s ∈ closed σ →
  s ∈ closed (run σ acts).1 ∧ ∀ ev, (s, ev) ∉ (run σ acts).2.
Proof.
  revert σ. induction acts as [|a acts IH]; intros σ Hwf Hin.
  - split; [done|]. intros ev. apply not_elem_of_nil.
  - rewrite run_cons. cbn [fst snd].
    destruct (IH (step σ a).1) as [Hc Hout];
      [by apply step_wf|by apply step_closed_mono|].
    split; [done|]. intros ev [Hev|Hev]%elem_of_app.
    + by apply step_closed_silent in Hev.
    + by apply Hout in Hev.
Qed.

(** C9: teardown cleanup.  When a connection's transport closes, the
    teardown itself takes the socket out of every room, and for the rest of
    the run the socket is in no room and no packet, broadcast or other, is
    written to it. *)
Theorem teardown_cleanup σ sid user acts :
  reachable σ →
  sockets σ !! sid = Some user →
  let σ' := (step σ (Disconnect sid)).1 in
  (∀ r, sid ∉ members (rooms σ') r) ∧
  sockets σ' !! sid = None ∧
  (∀ r, sid ∉ members (rooms (run σ' acts).1) r) ∧
  (∀ ev, (sid, ev) ∉ (run σ' acts).2).
Proof.
  intros Hwf%reachable_wf Hs σ'.
  assert (Hwf' : wf σ') by apply step_wf, Hwf.
  assert (Hin : sid ∈ closed σ').
  { unfold σ'. simpl. rewrite Hs. simpl. set_solver. }
  assert (Hgone : ∀ τ, wf τ → sid ∈ closed τ → ∀ r, sid ∉ members (rooms τ) r).
  { intros τ Hτ Hc r [u Hu]%(wf_rooms_live τ Hτ).
    pose proof (wf_closed_dead τ Hτ sid Hc). congruence. }
  destruct (run_closed σ' acts sid Hwf' Hin) as [Hc Hout].
  split; [by apply Hgone|].
  split; [by apply (wf_closed_dead σ' Hwf')|].
  split; [|done]. apply Hgone; [by apply run_wf|done].
Qed.

(** ** What [send_message] checks *)

(** The statement that a send with blank content, or with a missing or
    unknown channel id, is rejected and stores nothing. *)
Definition send_validates_first : Prop :=
  ∀ σ sid user data up uuid now,
    reachable σ → sockets σ !! sid = Some user →
    ((∃ c, data !! "content" = Some c ∧ whitespace_only c = true) ∨
     data !! "channelId" = None ∨
     (∃ c, data !! "channelId" = Some c ∧ names_no_channel (db σ) c)) →
    let σ1 := (step σ (Send_message sid data)).1 in
    db (step σ1 (Create_settles (next_task σ) up uuid now)).1 = db σ ∧
    ∃ msg, (sid, error msg)
             ∈ (step σ1 (Create_settles (next_task σ) up uuid now)).2.

(** C2, as the code has it: the handler checks nothing before the write.
    (0) On a payload that is [undefined] or [null] it throws before its
    [try]: nothing is stored, no handler is left waiting and no packet is
    written, not even [error].  On any other payload: (1) it hands the
    payload's [channelId] and [content] to [Messages.create] as they are.
    (2) A send without a [content] field, or with a channel id that the
    database refuses or that is the uuid of no channel, is rejected by that
    call: nothing is stored, the handler ends and the sender alone gets
    [error].  (3) Any content that is present, blank or not, is stored
    whenever the store accepts the row (database answering, fresh id,
    channel id missing or spelling the uuid of a channel, sender
    reference satisfied). *)
Theorem send_message_unvalidated σ sid user data up uuid now :
  sockets σ !! sid = Some user →
  let t := next_task σ in
  let σ1 := (step σ (Send_message sid data)).1 in
  let r := step σ1 (Create_settles t up uuid now) in
  (data = Nullish →
   step σ (Send_message sid data)
     = (mkServer (db σ) (sockets σ) (closed σ) (rooms σ) (tasks σ) (S t),
        [])) ∧
  (data ≠ Nullish →
   step σ (Send_message sid data)
     = (mkServer (db σ) (sockets σ) (closed σ) (rooms σ)
          (<[t := AwaitCreate sid (data !! "channelId") (data !! "content")
                    (su_id user)]> (tasks σ)) (S t), []) ∧
   ((data !! "content" = None ∨
     ∃ c, data !! "channelId" = Some c ∧ names_no_channel (db σ) c) →
    db r.1 = db σ ∧ r.2 = [(sid, error send_error)] ∧
    tasks r.1 !! t = None) ∧
   (∀ c ch, data !! "content" = Some c →
            up = true → Messages (db σ) !! uuid = None →
            channel_in (data !! "channelId") = Some ch →
            channel_fk_ok (db σ) ch = true →
            user_fk_ok (db σ) (su_id user) = true →
            Messages (db r.1) !! uuid
              = Some (mkMessagesRow (text_in c) now ch (su_id user)) ∧
            r.2 = [] ∧
            tasks r.1 !! t = Some (AwaitFind sid (data !! "channelId") uuid))).
Proof.
  intros Hs t σ1 r. split.
  - intros ->. simpl. by rewrite Hs.
  - intros Hobj. destruct data as [|fields]; [done|]. clear Hobj.
    set (data := Object fields) in *.
    assert (Hσ1 : step σ (Send_message sid data)
      = (mkServer (db σ) (sockets σ) (closed σ) (rooms σ)
           (<[t := AwaitCreate sid (data !! "channelId") (data !! "content")
                     (su_id user)]> (tasks σ)) (S t), [])).
    { simpl. by rewrite Hs. }
    split; [done|]. unfold r, σ1. rewrite Hσ1. cbn [fst].
    cbn [step tasks db sockets closed rooms next_task].
    rewrite lookup_insert_eq. split.
    + intros Hbad.
      assert (∃ e, Messages_create (db σ) up uuid now (data !! "content")
                     (data !! "channelId") (su_id user) = (db σ, Rejects e))
        as [e He].
      { destruct Hbad as [->|(c & -> & Hc)]; [by eexists|].
        by apply Messages_create_no_channel. }
      rewrite He. cbn [fst snd db tasks]. unfold socket_emit.
      cbn [sockets]. rewrite decide_True by eauto.
      by rewrite lookup_delete_eq.
    + intros c ch Hc -> Hnew Hk Hch Hu.
      rewrite Hc, (Messages_create_accepts _ _ _ _ _ ch) by done.
      cbn [fst snd db tasks Messages]. by rewrite !lookup_insert_eq.
Qed.

(** ** The order of broadcasts *)

(** The state a run is in after its first [n] steps. *)
Definition state_at (d : Db) (acts : list Action) (n : nat) : Server :=
  (run (init d) (take n acts)).1.

(** The statement that sends to one channel are serialised: if the first
    send's record is stored (at step [i]) before the second send begins (at
    step [j]), and the second's record is stored too (at step [k]), then
    every subscriber is written the first message before the second. *)
Definition sends_serialised_per_channel : Prop :=
  ∀ d acts i j k tA upA idA nowA sB dataB upB idB nowB rowA rowB,
    acts !! i = Some (Create_settles tA upA idA nowA) →
    Messages (db (state_at d acts i)) !! idA = None →
    Messages (db (state_at d acts (S i))) !! idA = Some rowA →
    acts !! j = Some (Send_message sB dataB) →
    is_Some (sockets (state_at d acts j) !! sB) →
    acts !! k = Some (Create_settles (next_task (state_at d acts j))
                        upB idB nowB) →
    Messages (db (state_at d acts k)) !! idB = None →
    Messages (db (state_at d acts (S k))) !! idB = Some rowB →
    (i < j)%nat → (j < k)%nat →
    channel_id rowA = channel_id rowB →
    ∀ s p q eA eB,
      (run (init d) acts).2 !! p = Some (s, eA) → event_msg_id eA = Some idA →
      (run (init d) acts).2 !! q = Some (s, eB) → event_msg_id eB = Some idB →
      (p < q)%nat.

(** C3, as the code has it: sends to one channel are not serialised; each
    handler broadcasts when its own read-back settles.  So for two sends to
    the same channel, if the first's read-back settles before the second's,
    every socket that is written both messages is written the first before
    the second, whatever the order in which the two were stored. *)
Theorem broadcast_order_is_read_back_order
    d pre mid post tA upA tB upB sA sB ch idA idB :
  let σA := (run (init d) pre).1 in
  let σB := (run (init d) (pre ++ Find_settles tA upA :: mid)).1 in
  let log := (run (init d) (pre ++ Find_settles tA upA :: mid
                                ++ Find_settles tB upB :: post)).2 in
  tasks σA !! tA = Some (AwaitFind sA ch idA) →
  tasks σB !! tB = Some (AwaitFind sB ch idB) →
  ∀ s p q eA eB,
    log !! p = Some (s, eA) → event_msg_id eA = Some idA →
    log !! q = Some (s, eB) → event_msg_id eB = Some idB →
    (p < q)%nat.
Proof.
  intros σA σB log HA HB s p q eA eB Hp HeA Hq HeB.
  set (X := (run (init d) (pre ++ Find_settles tA upA :: mid)).2).
  set (Y := (run σB (Find_settles tB upB :: post)).2).
  assert (Hlog : log = X ++ Y).
  { unfold log, X, Y, σB.
    by rewrite (app_comm_cons mid), app_assoc, (run_app _ (pre ++ _)). }
  assert (HwfA : wf σA).
  { apply reachable_wf, reachable_run, reachable_init. }
  assert (HX : ¬ receives idB X).
  { apply pending_find_silent; [apply wf_init|]. by exists tB, sB, ch. }
  assert (HY : ¬ receives idA Y).
  { apply run_settled_silent. unfold σB.
    rewrite run_app. cbn [fst]. rewrite run_cons. cbn [fst].
    apply run_settled. by eapply Find_settles_settled. }
  rewrite Hlog in Hp, Hq.
  destruct (decide (p < length X)%nat) as [HpX|HpX].
  - destruct (decide (q < length X)%nat) as [HqX|HqX]; [|lia].
    rewrite lookup_app_l in Hq by done. destruct HX.
    exists s, eB. split; [|done]. by eapply list_elem_of_lookup_2.
  - rewrite lookup_app_r in Hp by lia. destruct HY.
    exists s, eA. split; [|done]. by eapply list_elem_of_lookup_2.
Qed.

(** ** Joining a channel *)

(** The statement that a join to a channel id unknown to the Channel
    Directory fails and adds the connection to no subscriber set. *)
Definition join_checks_directory : Prop :=
  ∀ σ sid c,
    reachable σ → is_Some (sockets σ !! sid) →
    Channels (db σ) !! c = None →
    rooms (step σ (Join_channel sid (Some c))).1 = rooms σ ∧
    ∃ msg, (sid, error msg) ∈ (step σ (Join_channel sid (Some c))).2.

(** C5, as the code has it: [join_channel] never consults the Channel
    Directory.  For a connected socket and any channel id, known to the
    directory or not, the handler adds the socket to that id's room, adds it
    nowhere else, leaves the store alone and reports no error. *)
Theorem join_channel_any_id σ sid user ch :
  sockets σ !! sid = Some user →
  (step σ (Join_channel sid ch)).2 = [] ∧
  sid ∈ members (rooms (step σ (Join_channel sid ch)).1) ch ∧
  db (step σ (Join_channel sid ch)).1 = db σ ∧
  ∀ r s, s ∈ members (rooms (step σ (Join_channel sid ch)).1) r ↔
         (r = ch ∧ s = sid) ∨ s ∈ members (rooms σ) r.
Proof.
  intros Hs. simpl. rewrite Hs. simpl. repeat split; try done.
  - apply elem_of_members_addAll. by left.
  - intros [[<- ->]|H]%elem_of_members_addAll; eauto.
  - intros [[<- ->]|H]; apply elem_of_members_addAll; eauto.
Qed.

(** C6: [join_channel] is idempotent.  A second [join_channel] for the same
    channel on the same connection changes nothing and writes no packet, in
    particular no error, and the room lists the connection exactly once. *)
Theorem join_channel_idempotent σ sid user ch :
  sockets σ !! sid = Some user →
  let σ1 := (step σ (Join_channel sid ch)).1 in
  step σ1 (Join_channel sid ch) = (σ1, []) ∧
  (step σ (Join_channel sid ch)).2 = [] ∧
  length (filter (λ s, s = sid) (elements (members (rooms σ1) ch))) = 1.
Proof.
  intros Hs. simpl. rewrite Hs. simpl. rewrite Hs.
  rewrite adapter_addAll_idemp. repeat split.
  apply length_filter_eq_NoDup; [apply NoDup_elements|].
  apply elem_of_elements, elem_of_members_addAll. by left.
Qed.

(** ** The authentication gate *)

(** A credential that is missing, that [jwt.verify] refuses (malformed, badly
    signed, expired), or whose id names no user: there is none, or it is no
    uuid, or it is the uuid of no user. *)
Definition bad_credential (d : Db) (now : Time) (token : option string) : Prop :=
  token = None ∨ token = Some "" ∨
  (∃ t e, token = Some t ∧ jwt_verify now t = JwtThrows e) ∨
  (∃ t, token = Some t ∧ jwt_verify now t = JwtDecoded None) ∨
  (∃ t i, token = Some t ∧ jwt_verify now t = JwtDecoded (Some i) ∧
          ∀ k, uuid_in i = Some k → Users d !! k = None).

Lemma io_use_auth_bad d up now token :
  bad_credential d now token →
  io_use_auth d up now token = NextErr "Authentication error" ∨
  io_use_auth d up now token = NextErr "User not found".
Proof.
  unfold io_use_auth, Users_findByPk.
  intros [->|[->|[(t & e & -> & Hv)|[(t & -> & Hv)|(t & i & -> & Hv & Hu)]]]];
    try (by left).
  - case_decide; [by left|]. rewrite Hv. by left.
  - case_decide; [by left|]. rewrite Hv. by right.
  - case_decide; [by left|]. rewrite Hv. destruct up; simpl; [|by left].
    destruct (uuid_in i) as [k|] eqn:Hk; [|by left].
    rewrite (Hu k eq_refl). simpl. by right.
Qed.

(** C7: a handshake with a bad credential is refused by the middleware with
    an error ([Authentication error], or [User not found] for a missing id
    or the uuid of no user), and nothing is kept for the connection: the server state is what
    it was, with no [socket.user] and no room for the socket, and a
    [join_channel] or [send_message] from it does nothing. *)
Theorem auth_gate σ sid token now up :
  reachable σ →
  sid ∉ dom (sockets σ) ∪ closed σ →
  bad_credential (db σ) now token →
  ∃ msg, (msg = "Authentication error" ∨ msg = "User not found") ∧
    step σ (Connection sid token now up) = (σ, [(sid, connect_error msg)]) ∧
    sockets σ !! sid = None ∧
    (∀ r, sid ∉ members (rooms σ) r) ∧
    (∀ ch, step σ (Join_channel sid ch) = (σ, [])) ∧
    (∀ data, step σ (Send_message sid data) = (σ, [])).
Proof.
  intros Hwf%reachable_wf Hfresh Hbad.
  assert (Hnone : sockets σ !! sid = None).
  { apply not_elem_of_dom. set_solver. }
  assert (∃ msg, (msg = "Authentication error" ∨ msg = "User not found") ∧
            io_use_auth (db σ) up now token = NextErr msg) as (msg & Hmsg & Hmw).
  { destruct (io_use_auth_bad _ up _ _ Hbad) as [H|H]; eauto. }
  exists msg. split; [done|]. simpl. rewrite decide_False by done.
  rewrite Hmw, Hnone. repeat split; try done.
  intros r Hin. apply (wf_rooms_live σ Hwf) in Hin as [u Hu]. congruence.
Qed.

End server.

(** * A concrete deployment *)

(** ** The store's conversions, as Postgres and Sequelize have them *)

(** The value of a hexadecimal digit. *)
Definition xdigit_value (a : Ascii.ascii) : option nat :=
  let n := Ascii.nat_of_ascii a in
  if Nat.leb 48 n && Nat.leb n 57 then Some (n - 48)
  else if Nat.leb 97 n && Nat.leb n 102 then Some (n - 87)
  else if Nat.leb 65 n && Nat.leb n 70 then Some (n - 55)
  else None.

Definition xdigit (v : nat) : Ascii.ascii :=
  Ascii.ascii_of_nat (if Nat.ltb v 10 then v + 48 else v + 87).

(** Postgres reads a uuid as sixteen bytes of two hexadecimal digits, in
    either case, with an optional hyphen after any group of four digits
    ([i] counts the bytes read) ... *)
Fixpoint read_uuid (i n : nat) (s : string) : option (list nat * string) :=
  match n with
  | 0 => Some ([], s)
  | S n =>
      match s with
      | String a (String b s) =>
          hi ← xdigit_value a;
          lo ← xdigit_value b;
          let s :=
            match s with
            | String c s' =>
                if Nat.eqb (Ascii.nat_of_ascii c) 45 && Nat.odd i
                   && Nat.ltb i 15
                then s' else s
            | EmptyString => s
            end in
          '(ds, rest) ← read_uuid (S i) n s;
          Some (hi :: lo :: ds, rest)
      | _ => None
      end
  end.

(** ... and writes it in lower case, in groups of 8, 4, 4, 4 and 12. *)
Definition write_uuid (ds : list nat) : string :=
  let hex l := String.string_of_list_ascii (xdigit <$> l) in
  hex (take 8 ds) +:+ "-" +:+ hex (take 4 (drop 8 ds)) +:+ "-"
    +:+ hex (take 4 (drop 12 ds)) +:+ "-" +:+ hex (take 4 (drop 16 ds))
    +:+ "-" +:+ hex (drop 20 ds).

(** The input function of Postgres's [uuid]; the whole may stand in
    braces. *)
Definition pg_uuid (s : string) : option string :=
  let '(braces, s) :=
    match s with
    | String a s' =>
        if Nat.eqb (Ascii.nat_of_ascii a) 123 then (true, s') else (false, s)
    | EmptyString => (false, s)
    end in
  '(ds, rest) ← read_uuid 0 16 s;
  if decide (rest = if braces then "}" else "") then Some (write_uuid ds)
  else None.

Example pg_uuid_spellings :
  pg_uuid "a0eebc99-9c0b-4ef8-bb6d-6bb9bd380a11"
    = Some "a0eebc99-9c0b-4ef8-bb6d-6bb9bd380a11" ∧
  pg_uuid "A0EEBC99-9C0B-4EF8-BB6D-6BB9BD380A11"
    = Some "a0eebc99-9c0b-4ef8-bb6d-6bb9bd380a11" ∧
  pg_uuid "{a0eebc99-9c0b4ef8-bb6d6bb9-bd380a11}"
    = Some "a0eebc99-9c0b-4ef8-bb6d-6bb9bd380a11" ∧
  pg_uuid "a0eebc999c0b4ef8bb6d6bb9bd380a11"
    = Some "a0eebc99-9c0b-4ef8-bb6d-6bb9bd380a11" ∧
  pg_uuid "general" = None ∧
  pg_uuid "" = None ∧
  pg_uuid "a0eebc99-9c0b-4ef8-bb6d-6bb9bd380a11 " = None.
Proof. repeat split; vm_compute; reflexivity. Qed.

(** Sequelize rewrites the NUL characters of a string it binds, which
    Postgres would refuse, as a backslash and a zero. *)
Fixpoint pg_text (s : string) : string :=
  match s with
  | EmptyString => EmptyString
  | String a s =>
      if Nat.eqb (Ascii.nat_of_ascii a) 0 then "\0" +:+ pg_text s
      else String a (pg_text s)
  end.

Example pg_text_blank : pg_text "   " = "   " ∧ pg_text "" = "".
Proof. split; reflexivity. Qed.

Example pg_text_NUL :
  pg_text (String (Ascii.ascii_of_nat 0) "a") = "\0a".
Proof. reflexivity. Qed.

(** ** Two users and a channel

    Two users, one channel, and a [jwt.verify] that accepts five tokens
    (one for the id of no user, one for an id that is no uuid, one without
    an id) and finds a sixth expired. *)

Definition alice_id : string := "a11ce000-0000-4000-8000-000000000001".
Definition bob_id : string := "b0b00000-0000-4000-8000-000000000002".
Definition ghost_id : string := "00000000-0000-4000-8000-000000000009".
(** The id of the channel named [general], another spelling of it, and the
    uuid of no channel. *)
Definition general : string := "c0ffee00-0000-4000-8000-00000000000a".
Definition GENERAL : string := "C0FFEE00-0000-4000-8000-00000000000A".
Definition nowhere : string := "00000000-0000-4000-8000-00000000000b".
(** The ids drawn for the messages. *)
Definition m1 : string := "00000000-0000-4000-8000-0000000000e1".
Definition m2 : string := "00000000-0000-4000-8000-0000000000e2".

Definition verify (now : Time) (t : string) : JwtOutcome :=
  if decide (t = "tok-alice") then JwtDecoded (Some alice_id)
  else if decide (t = "tok-bob") then JwtDecoded (Some bob_id)
  else if decide (t = "tok-ghost") then JwtDecoded (Some ghost_id)
  else if decide (t = "tok-junk") then JwtDecoded (Some "junk")
  else if decide (t = "tok-anon") then JwtDecoded None
  else if decide (t = "tok-old") then JwtThrows TokenExpiredError
  else JwtThrows JsonWebTokenError.

Definition db0 : Db :=
  mkDb (<[alice_id := mkUsersRow "alice" "alice@example.org" "$2a$10$a"
                        "bg-blue-600" "online"]>
        (<[bob_id := mkUsersRow "bob" "bob@example.org" "$2a$10$b"
                       "bg-red-600" "online"]> ∅))
       (<[general := mkChannelsRow "general" None false alice_id]> ∅)
       ∅.

Definition alice : SocketUser := mkSocketUser alice_id "alice" "bg-blue-600".
Definition bob : SocketUser := mkSocketUser bob_id "bob" "bg-red-600".

Definition payload (channelId content : string) : Payload :=
  Object (<["channelId" := channelId]> (<["content" := content]> ∅)).

(** The server of this deployment. *)
Abbreviation step0 := (step pg_uuid pg_text verify).
Abbreviation run0 := (run pg_uuid pg_text verify).
Abbreviation reachable0 := (reachable pg_uuid pg_text verify).

(** Alice (socket [A]) and Bob (socket [B]) connect ... *)
Definition connected : list Action :=
  [ Connection "A" (Some "tok-alice") 0 true;
    Connection "B" (Some "tok-bob") 0 true ].

(** ... and join [general]. *)
Definition joined : list Action :=
  connected ++ [ Join_channel "A" (Some general);
                 Join_channel "B" (Some general) ].

(** ... then Alice sends [hi], and the record is stored. *)
Definition stored : list Action :=
  joined ++ [ Send_message "A" (payload general "hi");
              Create_settles 0 true m1 5 ].

(** Alice's and Bob's sends overlap: Alice's record is stored before Bob
    sends, but Bob's read-back settles first. *)
Definition race : list Action :=
  joined ++ [ Send_message "A" (payload general "first");
              Create_settles 0 true m1 1;
              Send_message "B" (payload general "second");
              Create_settles 1 true m2 2;
              Find_settles 1 true;
              Find_settles 0 true ].

(** The record of Alice's [hi] as it is broadcast. *)
Definition hi : MessageWithSender :=
  mkMessageWithSender m1 "hi" 5 (Some general) alice_id
    (Some (mkSender alice_id "alice" "bg-blue-600" "online")).

Example race_log :
  (λ p : string * ServerEvent, (p.1, event_msg_id p.2))
    <$> (run0 (init db0) race).2
  = [("A", Some m2); ("B", Some m2); ("A", Some m1); ("B", Some m1)].
Proof. vm_compute. reflexivity. Qed.

Example hi_log :
  (run0 (init db0) (stored ++ [Find_settles 0 true])).2
  = (λ s, (s, receive_message (Some hi))) <$> ["A"; "B"].
Proof. vm_compute. reflexivity. Qed.

(** With the store unavailable, Alice gets [error] and Bob nothing. *)
Example store_down_log :
  (run0 (init db0)
     (joined ++ [ Send_message "A" (payload general "hi");
                  Create_settles 0 false m1 5 ])).2
  = [("A", error "Message could notqv be sent")].
Proof. vm_compute. reflexivity. Qed.

(** The channel's name is not its id: a send to ["general"] is refused by
    the database. *)
Example name_is_no_id_log :
  (run0 (init db0)
     (joined ++ [ Send_message "A" (payload "general" "hi");
                  Create_settles 0 true m1 5 ])).2
  = [("A", error "Message could notqv be sent")].
Proof. vm_compute. reflexivity. Qed.

(** A send that spells the channel's id in upper case is stored in that
    channel, and broadcast to the room of the upper-case spelling, where
    nobody is. *)
Example other_spelling_log :
  let fin := run0 (init db0)
               (joined ++ [ Send_message "A" (payload GENERAL "hi");
                            Create_settles 0 true m1 5;
                            Find_settles 0 true ]) in
  Messages (db fin.1) !! m1
    = Some (mkMessagesRow "hi" 5 (Some general) alice_id) ∧
  fin.2 = [].
Proof. split; vm_compute; reflexivity. Qed.

(** A [send_message] without a payload leaves nothing behind. *)
Example no_payload_log :
  let σ := (run0 (init db0) joined).1 in
  step0 σ (Send_message "A" Nullish)
  = (mkServer (db σ) (sockets σ) (closed σ) (rooms σ) (tasks σ) 1, []).
Proof. vm_compute. reflexivity. Qed.

(** ** The statements at this deployment *)

Lemma no_broadcast_without_persistence_witness :
  ("B", receive_message (Some hi))
    ∈ (run0 (init db0) (stored ++ [Find_settles 0 true])).2 ∧
  (∃ pre up uuid now mid post t,
     stored ++ [Find_settles 0 true]
       = pre ++ Create_settles t up uuid now :: mid
             ++ Find_settles t true :: post ∧ uuid = m1) ∧
  let σ := (run0 (init db0)
              (joined ++ [Send_message "A" (payload general "hi")])).1 in
  db (step0 σ (Create_settles 0 false m1 5)).1 = db σ ∧
  (step0 σ (Create_settles 0 false m1 5)).2 = [("A", error send_error)].
Proof.
  pose proof (no_broadcast_without_persistence pg_uuid pg_text verify db0
                (stored ++ [Find_settles 0 true])) as [H1 _].
  pose proof (no_broadcast_without_persistence pg_uuid pg_text verify db0
                (joined ++ [Send_message "A" (payload general "hi")]))
    as [_ H2].
  assert (Hin : ("B", receive_message (Some hi))
    ∈ (run0 (init db0) (stored ++ [Find_settles 0 true])).2).
  { compute_done. }
  split; [exact Hin|]. split.
  - destruct (H1 _ _ Hin)
      as (pre & up & uuid & now & mid & post & t & sid & ch & c & u & d'
          & row & Heq & _ & _ & _ & Hm).
    exists pre, up, uuid, now, mid, post, t. split; [exact Heq|].
    unfold hi in Hm. congruence.
  - intros σ.
    destruct (H2 0 false m1 5 "A" (Some general) (Some "hi") alice_id
                (db σ) SequelizeConnectionError)
      as (Hdb & Hout & _); [vm_compute; reflexivity..|].
    split; [exact Hdb|]. etrans; [exact Hout|]. vm_compute. reflexivity.
Defined.

Lemma send_validates_first_fails :
  ¬ send_validates_first pg_uuid pg_text verify.
Proof.
  intros H.
  destruct (H (run0 (init db0) joined).1 "A" alice
              (payload general "   ") true m1 1) as [Hdb _].
  - apply reachable_run, reachable_init.
  - vm_compute. reflexivity.
  - left. exists "   ". split; vm_compute; reflexivity.
  - apply (f_equal (λ d, bool_decide (is_Some (Messages d !! m1)))) in Hdb.
    vm_compute in Hdb. discriminate.
Qed.

Lemma send_message_unvalidated_witness :
  let σ := (run0 (init db0) joined).1 in
  sockets σ !! "A" = Some alice ∧
  whitespace_only "   " = true ∧
  Messages
    (db (step0 (step0 σ (Send_message "A" (payload general "   "))).1
           (Create_settles 0 true m1 1)).1) !! m1
    = Some (mkMessagesRow "   " 1 (Some general) alice_id) ∧
  names_no_channel pg_uuid (db σ) nowhere ∧
  (step0 (step0 σ (Send_message "A" (payload nowhere "hi"))).1
     (Create_settles 0 true m1 1)).2 = [("A", error send_error)] ∧
  names_no_channel pg_uuid (db σ) "general" ∧
  (step0 (step0 σ (Send_message "A" (payload "general" "hi"))).1
     (Create_settles 0 true m1 1)).2 = [("A", error send_error)] ∧
  step0 σ (Send_message "A" Nullish)
  = (mkServer (db σ) (sockets σ) (closed σ) (rooms σ) (tasks σ) 1, []).
Proof.
  intros σ.
  assert (Hs : sockets σ !! "A" = Some alice) by (vm_compute; reflexivity).
  assert (Hno : names_no_channel pg_uuid (db σ) nowhere).
  { intros k Hk. vm_compute in Hk. injection Hk as <-. reflexivity. }
  assert (Hname : names_no_channel pg_uuid (db σ) "general").
  { intros k Hk. vm_compute in Hk. discriminate. }
  split; [exact Hs|]. split; [vm_compute; reflexivity|].
  split; [|split; [exact Hno|split; [|split; [exact Hname|split]]]].
  - destruct (send_message_unvalidated pg_uuid pg_text verify σ "A" alice
                (payload general "   ") true m1 1 Hs) as (_ & H).
    destruct H as (_ & _ & H3); [done|].
    exact (proj1 (H3 "   " (Some general) ltac:(vm_compute; reflexivity)
                    eq_refl ltac:(vm_compute; reflexivity)
                    ltac:(vm_compute; reflexivity)
                    ltac:(vm_compute; reflexivity)
                    ltac:(vm_compute; reflexivity))).
  - destruct (send_message_unvalidated pg_uuid pg_text verify σ "A" alice
                (payload nowhere "hi") true m1 1 Hs) as (_ & H).
    destruct H as (_ & H2 & _); [done|].
    destruct H2 as (_ & Hout & _); [|exact Hout].
    right. exists nowhere. split; [vm_compute; reflexivity|exact Hno].
  - destruct (send_message_unvalidated pg_uuid pg_text verify σ "A" alice
                (payload "general" "hi") true m1 1 Hs) as (_ & H).
    destruct H as (_ & H2 & _); [done|].
    destruct H2 as (_ & Hout & _); [|exact Hout].
    right. exists "general". split; [vm_compute; reflexivity|exact Hname].
  - exact (proj1 (send_message_unvalidated pg_uuid pg_text verify σ "A" alice
                    Nullish true m1 1 Hs) eq_refl).
Defined.

Lemma sends_serialised_per_channel_fails :
  ¬ sends_serialised_per_channel pg_uuid pg_text verify.
Proof.
  intros H.
  set (first := mkMessageWithSender m1 "first" 1 (Some general) alice_id
               (Some (mkSender alice_id "alice" "bg-blue-600" "online"))).
  set (second := mkMessageWithSender m2 "second" 2 (Some general) bob_id
               (Some (mkSender bob_id "bob" "bg-red-600" "online"))).
  assert (2 < 0)%nat; [|lia].
  apply (H db0 race 5 6 7 0 true m1 1 "B" (payload general "second")
           true m2 2
           (mkMessagesRow "first" 1 (Some general) alice_id)
           (mkMessagesRow "second" 2 (Some general) bob_id)
           ltac:(vm_compute; reflexivity) ltac:(vm_compute; reflexivity)
           ltac:(vm_compute; reflexivity) ltac:(vm_compute; reflexivity)
           ltac:(vm_compute; eauto) ltac:(vm_compute; reflexivity)
           ltac:(vm_compute; reflexivity) ltac:(vm_compute; reflexivity)
           ltac:(lia) ltac:(lia) ltac:(reflexivity)
           "A" 2 0 (receive_message (Some first))
           (receive_message (Some second)));
    vm_compute; reflexivity.
Qed.

Lemma broadcast_order_is_read_back_order_witness :
  let pre := joined ++ [ Send_message "A" (payload general "first");
                         Create_settles 0 true m1 1;
                         Send_message "B" (payload general "second");
                         Create_settles 1 true m2 2 ] in
  tasks (run0 (init db0) pre).1 !! 1
    = Some (AwaitFind "B" (Some general) m2) ∧
  tasks (run0 (init db0) (pre ++ [Find_settles 1 true])).1 !! 0
    = Some (AwaitFind "A" (Some general) m1) ∧
  ∀ s p q eA eB,
    (run0 (init db0) race).2 !! p = Some (s, eA) →
    event_msg_id eA = Some m2 →
    (run0 (init db0) race).2 !! q = Some (s, eB) →
    event_msg_id eB = Some m1 →
    (p < q)%nat.
Proof.
  intros pre.
  split; [vm_compute; reflexivity|]. split; [vm_compute; reflexivity|].
  apply (broadcast_order_is_read_back_order pg_uuid pg_text verify db0 pre
           [] [] 1 true 0 true "B" "A" (Some general) m2 m1);
    vm_compute; reflexivity.
Defined.

(** Alice's [hi] is stored, she and Bob are in the room, the read-back
    fails: neither is written the message. *)
Lemma fanout_every_persisted_fails :
  ¬ fanout_every_persisted pg_uuid pg_text verify.
Proof.
  intros H.
  assert (deliveries "B" m1
            (run0 (init db0) (stored ++ Find_settles 0 false :: [])).2 = 1)
    as Hone.
  { apply (H db0 stored [] 0 false "A" (Some general) m1 "B").
    - vm_compute. reflexivity.
    - vm_compute. eauto.
    - compute_done. }
  vm_compute in Hone. discriminate.
Qed.

Lemma fanout_exactly_once_witness :
  let σ := (run0 (init db0) stored).1 in
  let log := (run0 (init db0) (stored ++ [Find_settles 0 true])).2 in
  tasks σ !! 0 = Some (AwaitFind "A" (Some general) m1) ∧
  Messages_findByPk (db σ) true m1 = Resolves (Some hi) ∧
  "A" ∈ members (rooms σ) (Some general) ∧
  "B" ∈ members (rooms σ) (Some general) ∧
  deliveries "A" m1 log = 1 ∧
  deliveries "B" m1 log = 1 ∧
  deliveries "C" m1 log = 0.
Proof.
  intros σ log.
  assert (Ht : tasks σ !! 0 = Some (AwaitFind "A" (Some general) m1))
    by (vm_compute; reflexivity).
  assert (Hf : Messages_findByPk (db σ) true m1 = Resolves (Some hi))
    by (vm_compute; reflexivity).
  assert (HA : "A" ∈ members (rooms σ) (Some general)) by compute_done.
  assert (HB : "B" ∈ members (rooms σ) (Some general)) by compute_done.
  assert (HC : "C" ∉ members (rooms σ) (Some general)) by compute_done.
  destruct (fanout_exactly_once pg_uuid pg_text verify db0 stored [] 0 true
              "A" (Some general) m1 (Some hi) Ht Hf)
    as (_ & Hin & Hself & Hout).
  split; [exact Ht|]. split; [exact Hf|]. split; [exact HA|].
  split; [exact HB|]. split; [exact (Hself HA)|].
  split; [exact (proj1 (proj2 (Hin "B" HB)))|exact (Hout "C" HC)].
Defined.

Lemma join_checks_directory_fails :
  ¬ join_checks_directory pg_uuid pg_text verify.
Proof.
  intros H.
  destruct (H (run0 (init db0) joined).1 "A" nowhere) as [Hrooms _].
  - apply reachable_run, reachable_init.
  - vm_compute. eauto.
  - vm_compute. reflexivity.
  - apply (f_equal (λ m, bool_decide ("A" ∈ members m (Some nowhere))))
      in Hrooms.
    vm_compute in Hrooms. discriminate.
Qed.

Lemma join_channel_any_id_witness :
  let σ := (run0 (init db0) joined).1 in
  sockets σ !! "A" = Some alice ∧
  Channels (db σ) !! nowhere = None ∧
  (step0 σ (Join_channel "A" (Some nowhere))).2 = [] ∧
  "A" ∈ members (rooms (step0 σ (Join_channel "A" (Some nowhere))).1)
          (Some nowhere).
Proof.
  intros σ.
  assert (Hs : sockets σ !! "A" = Some alice) by (vm_compute; reflexivity).
  destruct (join_channel_any_id pg_uuid pg_text verify σ "A" alice
              (Some nowhere) Hs) as (Hout & Hin & _).
  split; [exact Hs|]. split; [vm_compute; reflexivity|].
  split; [exact Hout|exact Hin].
Defined.

Lemma join_channel_idempotent_witness :
  let σ := (run0 (init db0) connected).1 in
  let σ1 := (step0 σ (Join_channel "A" (Some general))).1 in
  sockets σ !! "A" = Some alice ∧
  step0 σ1 (Join_channel "A" (Some general)) = (σ1, []) ∧
  (step0 σ (Join_channel "A" (Some general))).2 = [] ∧
  length (filter (λ s, s = "A") (elements (members (rooms σ1) (Some general))))
    = 1.
Proof.
  intros σ σ1.
  assert (Hs : sockets σ !! "A" = Some alice) by (vm_compute; reflexivity).
  split; [exact Hs|].
  exact (join_channel_idempotent pg_uuid pg_text verify σ "A" alice
           (Some general) Hs).
Defined.

Lemma auth_gate_witness :
  let σ := (run0 (init db0) joined).1 in
  step0 σ (Connection "C" None 0 true)
    = (σ, [("C", connect_error "Authentication error")]) ∧
  step0 σ (Connection "C" (Some "tok-old") 0 true)
    = (σ, [("C", connect_error "Authentication error")]) ∧
  step0 σ (Connection "C" (Some "tok-ghost") 0 true)
    = (σ, [("C", connect_error "User not found")]) ∧
  step0 σ (Connection "C" (Some "tok-junk") 0 true)
    = (σ, [("C", connect_error "Authentication error")]) ∧
  step0 σ (Connection "C" (Some "tok-anon") 0 false)
    = (σ, [("C", connect_error "User not found")]) ∧
  step0 σ (Join_channel "C" (Some general)) = (σ, []) ∧
  step0 σ (Send_message "C" (payload general "hi")) = (σ, []).
Proof.
  intros σ.
  assert (Hr : reachable0 σ) by apply reachable_run, reachable_init.
  assert (Hfresh : "C" ∉ dom (sockets σ) ∪ closed σ) by compute_done.
  destruct (auth_gate pg_uuid pg_text verify σ "C" None 0 true Hr Hfresh)
    as (msg1 & _ & H1 & _); [by left|].
  destruct (auth_gate pg_uuid pg_text verify σ "C" (Some "tok-old") 0 true
              Hr Hfresh) as (msg2 & _ & H2 & _).
  { right. right. left. exists "tok-old", TokenExpiredError.
    split; vm_compute; reflexivity. }
  destruct (auth_gate pg_uuid pg_text verify σ "C" (Some "tok-ghost") 0 true
              Hr Hfresh) as (msg3 & _ & H3 & _ & _ & Hjoin & Hsend).
  { do 4 right. exists "tok-ghost", ghost_id.
    split; [reflexivity|]. split; [vm_compute; reflexivity|].
    intros k Hk. vm_compute in Hk. injection Hk as <-. reflexivity. }
  destruct (auth_gate pg_uuid pg_text verify σ "C" (Some "tok-junk") 0 true
              Hr Hfresh) as (msg4 & _ & H4 & _).
  { do 4 right. exists "tok-junk", "junk".
    split; [reflexivity|]. split; [vm_compute; reflexivity|].
    intros k Hk. vm_compute in Hk. discriminate. }
  destruct (auth_gate pg_uuid pg_text verify σ "C" (Some "tok-anon") 0 false
              Hr Hfresh) as (msg5 & _ & H5 & _).
  { do 3 right. left. exists "tok-anon". split; vm_compute; reflexivity. }
  assert (msg1 = "Authentication error") as ->.
  { pose proof (f_equal snd H1) as E. vm_compute in E.
    injection E as <-. reflexivity. }
  assert (msg2 = "Authentication error") as ->.
  { pose proof (f_equal snd H2) as E. vm_compute in E.
    injection E as <-. reflexivity. }
  assert (msg3 = "User not found") as ->.
  { pose proof (f_equal snd H3) as E. vm_compute in E.
    injection E as <-. reflexivity. }
  assert (msg4 = "Authentication error") as ->.
  { pose proof (f_equal snd H4) as E. vm_compute in E.
    injection E as <-. reflexivity. }
  assert (msg5 = "User not found") as ->.
  { pose proof (f_equal snd H5) as E. vm_compute in E.
    injection E as <-. reflexivity. }
  split; [exact H1|]. split; [exact H2|]. split; [exact H3|].
  split; [exact H4|]. split; [exact H5|].
  split; [exact (Hjoin (Some general))|exact (Hsend _)].
Defined.

Lemma sender_is_authenticated_identity_witness :
  let σ := (run0 (init db0) joined).1 in
  let forged := Object (<["user_id" := bob_id]> (<["sender" := "bob"]>
                  (<["channelId" := general]> (<["content" := "hi"]> ∅)))) in
  let σ2 := (run0 (step0 σ (Send_message "A" forged)).1
               [Send_message "B" (payload general "yo")]).1 in
  let σ3 := (step0 σ2 (Create_settles 0 true m1 5)).1 in
  sockets σ !! "A" = Some alice ∧
  Messages (db σ2) !! m1 = None ∧
  Messages (db σ3) !! m1
    = Some (mkMessagesRow "hi" 5 (Some general) alice_id) ∧
  user_id (mkMessagesRow "hi" 5 (Some general) alice_id) = su_id alice.
Proof.
  intros σ forged σ2 σ3.
  assert (Hs : sockets σ !! "A" = Some alice) by (vm_compute; reflexivity).
  assert (H2 : Messages (db σ2) !! m1 = None) by (vm_compute; reflexivity).
  assert (H3 : Messages (db σ3) !! m1
               = Some (mkMessagesRow "hi" 5 (Some general) alice_id))
    by (vm_compute; reflexivity).
  split; [exact Hs|]. split; [exact H2|]. split; [exact H3|].
  exact (proj1 (sender_is_authenticated_identity pg_uuid pg_text verify db0
                  joined "A" alice forged
                  [Send_message "B" (payload general "yo")]
                  true m1 5 _ Hs H2 H3)).
Defined.

Lemma teardown_cleanup_witness :
  let σ := (run0 (init db0) stored).1 in
  let σ' := (step0 σ (Disconnect "B")).1 in
  sockets σ !! "B" = Some bob ∧
  "B" ∈ members (rooms σ) (Some general) ∧
  (∀ r, "B" ∉ members (rooms σ') r) ∧
  (∀ ev, ("B", ev) ∉ (run0 σ' [Find_settles 0 true]).2) ∧
  (run0 σ' [Find_settles 0 true]).2 = [("A", receive_message (Some hi))].
Proof.
  intros σ σ'.
  assert (Hr : reachable0 σ) by apply reachable_run, reachable_init.
  assert (Hs : sockets σ !! "B" = Some bob) by (vm_compute; reflexivity).
  destruct (teardown_cleanup pg_uuid pg_text verify σ "B" _
              [Find_settles 0 true] Hr Hs) as (Hrooms & _ & _ & Hout).
  split; [exact Hs|]. split; [compute_done|].
  split; [exact Hrooms|]. split; [exact Hout|].
  vm_compute. reflexivity.
Defined.

Lemma read_back_failure_drops_broadcast_witness :
  let σ := (run0 (init db0) stored).1 in
  let fin := run0 (init db0) (stored ++ [Find_settles 0 false]) in
  tasks σ !! 0 = Some (AwaitFind "A" (Some general) m1) ∧
  Messages_findByPk (db σ) false m1 = Rejects SequelizeConnectionError ∧
  is_Some (Messages (db fin.1) !! m1) ∧
  ¬ receives m1 fin.2 ∧
  fin.2 = [("A", error send_error)].
Proof.
  intros σ fin.
  assert (Ht : tasks σ !! 0 = Some (AwaitFind "A" (Some general) m1))
    by (vm_compute; reflexivity).
  assert (Hf : Messages_findByPk (db σ) false m1
               = Rejects SequelizeConnectionError) by reflexivity.
  destruct (read_back_failure_drops_broadcast pg_uuid pg_text verify db0
              stored [] 0 false "A" (Some general) m1
              SequelizeConnectionError Ht Hf)
    as (_ & _ & Hstored & Hsilent & _ & Herr).
  split; [exact Ht|]. split; [exact Hf|].
  split; [exact Hstored|]. split; [exact Hsilent|].
  vm_compute. reflexivity.
Defined.
(** * More on the socket server *)

Section server_more.

Variable uuid_in : string → option string.
Variable text_in : string → string.
Variable jwt_verify : Time → string → JwtOutcome.

Set Default Proof Using "Type".

(** ** The identity of a connection *)

Lemma step_identity σ a sid user :
  sockets σ !! sid = Some user →
  let σ' := (step uuid_in text_in jwt_verify σ a).1 in
  sockets σ' !! sid = Some user ∨
  (sockets σ' !! sid = None ∧ sid ∈ closed σ').
Proof.
  intros Hs.
  destruct a as [s token now up|s c|s data|t0 up uuid now|t0 up|s]; simpl.
  - case_decide as Hin; [by left|].
    destruct (io_use_auth _ _ _ _ _ _); [|by left]. simpl. left.
    rewrite lookup_insert_ne; [done|]. intros ->. apply Hin.
    apply elem_of_union_l, elem_of_dom. eauto.
  - left. by destruct (sockets σ !! s).
  - left. by destruct (sockets σ !! s).
  - left. destruct (tasks σ !! t0) as [[s0 ch0 c0 u0|s0 ch0 i0]|]; try done.
    by destruct (Messages_create _ _ _ _ _ _ _ _ _) as [d [i|e]].
  - left. by destruct (tasks σ !! t0) as [[s0 ch0 c0 u0|s0 ch0 i0]|].
  - destruct (sockets σ !! s) eqn:Hs'; [|by left]. simpl.
    destruct (decide (s = sid)) as [->|Hne].
    + right. rewrite lookup_delete_eq. split; [done|].
      apply elem_of_union_l. by apply elem_of_singleton.
    + left. by rewrite lookup_delete_ne.
Qed.

Lemma step_closed_stays σ a sid :
  sockets σ !! sid = None → sid ∈ closed σ →
  let σ' := (step uuid_in text_in jwt_verify σ a).1 in
  sockets σ' !! sid = None ∧ sid ∈ closed σ'.
Proof.
  intros Hs Hc.
  destruct a as [s token now up|s c|s data|t0 up uuid now|t0 up|s]; simpl.
  - case_decide as Hin; [done|].
    destruct (io_use_auth _ _ _ _ _ _); [|done]. simpl. split; [|done].
    rewrite lookup_insert_ne; [done|]. intros ->. apply Hin.
    by apply elem_of_union_r.
  - by destruct (sockets σ !! s).
  - by destruct (sockets σ !! s).
  - destruct (tasks σ !! t0) as [[s0 ch0 c0 u0|s0 ch0 i0]|]; try done.
    by destruct (Messages_create _ _ _ _ _ _ _ _ _) as [d [i|e]].
  - by destruct (tasks σ !! t0) as [[s0 ch0 c0 u0|s0 ch0 i0]|].
  - destruct (sockets σ !! s) eqn:Hs'; [|done]. simpl. split.
    + destruct (decide (s = sid)) as [->|Hne]; [apply lookup_delete_eq|].
      by rewrite lookup_delete_ne.
    + by apply elem_of_union_r.
Qed.

(** The identity of a connection is settled at its handshake: for as long
    as the socket is connected its [socket.user] is the one the middleware
    attached, whatever happens to the store or to the token; and once the
    socket is gone its id names no connection again. *)
Theorem socket_user_fixed σ sid user acts :
  sockets σ !! sid = Some user →
  let σ' := (run uuid_in text_in jwt_verify σ acts).1 in
  sockets σ' !! sid = Some user ∨
  (sockets σ' !! sid = None ∧ sid ∈ closed σ').
Proof.
  intros Hs.
  assert (Hinv : sockets σ !! sid = Some user ∨
                 (sockets σ !! sid = None ∧ sid ∈ closed σ)) by auto.
  clear Hs. revert σ Hinv.
  induction acts as [|a acts IH]; intros σ Hinv; [done|].
  rewrite run_cons. cbn [fst]. apply IH.
  destruct Hinv as [Hs|[Hs Hc]].
  - by apply step_identity.
  - right. by apply step_closed_stays.
Qed.

(** ** What the socket server writes *)

Lemma step_Users_Channels σ a :
  Users (db (step uuid_in text_in jwt_verify σ a).1) = Users (db σ) ∧
  Channels (db (step uuid_in text_in jwt_verify σ a).1) = Channels (db σ).
Proof.
  destruct a as [s token now up|s c|s data|t0 up uuid now|t0 up|s]; simpl.
  - case_decide; [done|]. by destruct (io_use_auth _ _ _ _ _ _).
  - by destruct (sockets σ !! s).
  - by destruct (sockets σ !! s).
  - destruct (tasks σ !! t0) as [[s0 ch0 c0 u0|s0 ch0 i0]|]; try done.
    destruct (Messages_create _ _ _ _ _ _ _ _ _) as [d [i|e]] eqn:Hc; simpl.
    + by apply Messages_create_Resolves in Hc
        as (c' & k & _ & _ & _ & _ & _ & _ & _ & ->).
    + by apply Messages_create_Rejects in Hc as ->.
  - by destruct (tasks σ !! t0) as [[s0 ch0 c0 u0|s0 ch0 i0]|].
  - by destruct (sockets σ !! s).
Qed.

(** The socket server only ever adds messages: over any run the [Users] and
    [Channels] tables stay as they were, and every stored message stays
    stored, unchanged. *)
Theorem socket_server_only_adds_messages σ acts :
  let σ' := (run uuid_in text_in jwt_verify σ acts).1 in
  Users (db σ') = Users (db σ) ∧
  Channels (db σ') = Channels (db σ) ∧
  ∀ id row, Messages (db σ) !! id = Some row →
            Messages (db σ') !! id = Some row.
Proof.
  split; [|split].
  - revert σ. induction acts as [|a acts IH]; intros σ; [done|].
    rewrite run_cons. cbn [fst]. rewrite IH. apply step_Users_Channels.
  - revert σ. induction acts as [|a acts IH]; intros σ; [done|].
    rewrite run_cons. cbn [fst]. rewrite IH. apply step_Users_Channels.
  - intros id row. apply run_Messages_mono.
Qed.

(** ** Who is in a room *)

Lemma step_members_inv σ a s r :
  s ∈ members (rooms (step uuid_in text_in jwt_verify σ a).1) r →
  s ∈ members (rooms σ) r ∨
  (r = Some s ∧ ∃ token now up, a = Connection s token now up) ∨
  (a = Join_channel s r ∧ is_Some (sockets σ !! s)).
Proof.
  intros Hin.
  destruct a as [s0 token now up|s0 c|s0 data|t0 up uuid now|t0 up|s0];
    simpl in Hin.
  - case_decide; [by left|].
    destruct (io_use_auth _ _ _ _ _ _); [|by left]. simpl in Hin.
    apply elem_of_members_addAll in Hin as [[<- ->]|?]; [|by left].
    right. left. eauto.
  - destruct (sockets σ !! s0) eqn:Hs; [|by left]. simpl in Hin.
    apply elem_of_members_addAll in Hin as [[<- ->]|?]; [|by left].
    right. right. rewrite Hs. eauto.
  - left. by destruct (sockets σ !! s0).
  - left. destruct (tasks σ !! t0) as [[s1 ch0 c0 u0|s1 ch0 i0]|]; try done.
    by destruct (Messages_create _ _ _ _ _ _ _ _ _) as [d [i|e]].
  - left. by destruct (tasks σ !! t0) as [[s1 ch0 c0 u0|s1 ch0 i0]|].
  - left. destruct (sockets σ !! s0); [|done]. simpl in Hin.
    by apply elem_of_members_delAll in Hin as [_ ?].
Qed.

(** Nobody is put into a room by someone else: a socket is in a room only
    if the room is the one of its own id, or the socket itself sent
    [join_channel] for it while connected. *)
Theorem membership_by_own_join d acts s r :
  s ∈ members (rooms (run uuid_in text_in jwt_verify (init d) acts).1) r →
  r = Some s ∨
  ∃ pre post,
    acts = pre ++ Join_channel s r :: post ∧
    is_Some (sockets (run uuid_in text_in jwt_verify (init d) pre).1 !! s).
Proof.
  induction acts as [|a acts IH] using rev_ind.
  - simpl. unfold members. rewrite lookup_empty. simpl.
    by intros ?%not_elem_of_empty.
  - rewrite run_app. cbn [fst]. rewrite run_cons. cbn [run fst].
    intros [Hin|[[-> _]|[-> Hs]]]%step_members_inv.
    + destruct (IH Hin) as [?|(pre & post & -> & ?)]; [by left|].
      right. exists pre, (post ++ [a]).
      by rewrite <-app_assoc, <-app_comm_cons.
    + by left.
    + right. by exists acts, [].
Qed.

(** ** What a teardown leaves alone *)

(** A teardown touches the leaving socket only: the store and the
    suspended handlers, the leaving socket's own included, are as they were,
    and every other socket keeps its identity and its rooms. *)
Theorem disconnect_leaves_others σ sid :
  let σ' := (step uuid_in text_in jwt_verify σ (Disconnect sid)).1 in
  db σ' = db σ ∧ tasks σ' = tasks σ ∧ next_task σ' = next_task σ ∧
  ∀ s, s ≠ sid →
    sockets σ' !! s = sockets σ !! s ∧
    ∀ r, s ∈ members (rooms σ') r ↔ s ∈ members (rooms σ) r.
Proof.
  simpl. destruct (sockets σ !! sid) eqn:Hs; simpl; [|done].
  do 3 (split; [done|]). intros s' Hne. split.
  - by rewrite lookup_delete_ne.
  - intros r. rewrite elem_of_members_delAll. tauto.
Qed.

End server_more.

(** * The HTTP API of [src/server.js]

    The Express side of the server: the [protect] middleware, the
    [/auth/signup] and [/auth/login] routes and the protected [/api]
    routes for creating a channel and for reading and appending a channel's
    messages.  Each handler is run to its end against the store as it is;
    the database may fail at each of its calls.  Request bodies are objects
    with string-valued fields (a missing field is [undefined]).  As on the
    socket side, the ids a handler takes from the store ([req.user.id], the
    id of a row just created) are uuids in the spelling the database keeps;
    strings that come from the client are converted by the column they go
    to. *)

(** ** The store, with channel membership *)

(** [ChannelMembers], the join table of [Users] and [Channels]: its key is
    the pair of foreign keys (user id, channel id), its value the [role]. *)
Record Store := mkStore {
  tables : Db;
  ChannelMembers : gmap (string * string) string
}.

(** How a store read ends for its caller: with the rows, or with a rejection
    (the database does not answer, or refuses the statement), which every
    caller only catches. *)
Inductive Read (A : Type) :=
| Rows (a : A)
| ReadRejects.
Arguments Rows {A} a.
Arguments ReadRejects {A}.

(** The first row of a table that satisfies [P], as [findOne] returns it. *)
Definition find_row {A} (P : string * A → Prop) `{∀ x, Decision (P x)}
    (m : gmap string A) : option (string * A) :=
  head (filter P (map_to_list m)).

(** [Users.findOne({ where })]. *)
Definition Users_findOne (d : Db) (up : bool)
    (P : string * UsersRow → Prop) `{∀ x, Decision (P x)}
  : Read (option (string * UsersRow)) :=
  if up then Rows (find_row P (Users d)) else ReadRejects.

(** [user.update({ status })] on the instance [user] read under [id]: when
    the instance already has that status nothing has changed and no query is
    issued. *)
Definition Users_update_status (d : Db) (up : bool) (id : string)
    (user : UsersRow) (new_status : string)
  : Db * Settled string :=
  if decide (status user = new_status) then (d, Resolves id)
  else if up then
    (mkDb (alter (λ r, mkUsersRow (username r) (email r) (password r)
                         (avatar_color r) new_status) id (Users d))
          (Channels d) (Messages d), Resolves id)
  else (d, Rejects SequelizeConnectionError).

(** [channel.addUser(user, { through: { role } })]: the pair becomes a
    member with that role, whether or not it was one; both foreign keys of
    the join table must name a row. *)
Definition Channels_addUser (st : Store) (up : bool)
    (channel_id user_id role : string)
  : Store * Settled string :=
  if negb up then (st, Rejects SequelizeConnectionError)
  else if negb (channel_fk_ok (tables st) (Some channel_id)
                && user_fk_ok (tables st) user_id)
  then (st, Rejects SequelizeForeignKeyConstraintError)
  else
    (mkStore (tables st) (<[(user_id, channel_id) := role]> (ChannelMembers st)),
     Resolves channel_id).

(** A message row as the [sender] include returns it. *)
Definition with_sender (d : Db) (kv : string * MessagesRow) : MessageWithSender :=
  mkMessageWithSender kv.1 (content kv.2) (created_at kv.2) (channel_id kv.2)
    (user_id kv.2) (sender_of d (user_id kv.2)).

(** The order of [order: [['created_at', 'ASC']]]. *)
Definition created_before (m1 m2 : MessageWithSender) : Prop :=
  (msg_created_at m1 ≤ msg_created_at m2)%nat.

Global Instance created_before_dec m1 m2 : Decision (created_before m1 m2).
Proof. unfold created_before. apply _. Defined.

(** ** Requests and responses *)

(** The [user] object of the signup and login responses. *)
Record PublicUser := mkPublicUser {
  pu_id : string;
  pu_username : string;
  pu_email : string;
  pu_avatar_color : string
}.

(** [req.user]: the user's row without [password]. *)
Record ReqUser := mkReqUser {
  ru_id : string;
  ru_username : string;
  ru_email : string;
  ru_avatar_color : string;
  ru_status : string
}.

(** The bodies the handlers send. *)
Inductive Body :=
| ErrorJson (error : string)
| MessageJson (message : string)
| AuthJson (message : option string) (token : string) (user : PublicUser)
| ChannelJson (id : string) (row : ChannelsRow)
| ChannelsJson (channels : list (string * ChannelsRow))
| MessagesJson (messages : list MessageWithSender)
| MessageWithSenderJson (m : option MessageWithSender).

Record Response := mkResponse {
  res_status : nat;
  res_body : Body
}.

(** The body of [POST /api/channels]; the handler reads [name],
    [description] and [is_private]. *)
Record ChannelBody := mkChannelBody {
  cb_name : option string;
  cb_description : option string;
  cb_is_private : option bool;
  cb_created_by : option string
}.

(** The routes of the [/api] router that are modelled. *)
Inductive ApiRoute :=
| POST_api_channels (body : ChannelBody)
| GET_api_channels_join
| GET_api_messages (channelId : string)
| POST_api_messages (channelId : string) (body : gmap string string).

(** What a request draws from outside the handler: the clock, the [UUIDV4]
    of a new row, the salt of [bcrypt.hash], [Math.floor(Math.random() *
    colors.length)], and whether the database answers the handler's [k]-th
    store call. *)
Record Env := mkEnv {
  env_now : Time;
  env_uuid : string;
  env_salt : string;
  env_random : nat;
  env_up : nat → bool
}.

Definition colors : list string :=
  ["bg-blue-600"; "bg-green-600"; "bg-red-600"; "bg-purple-600";
   "bg-yellow-600"].

(** [header.split(' ')]. *)
Fixpoint split_space (s : string) : list string :=
  match s with
  | EmptyString => [EmptyString]
  | String a s =>
      if Nat.eqb (Ascii.nat_of_ascii a) 32 then EmptyString :: split_space s
      else match split_space s with
           | w :: ws => String a w :: ws
           | [] => [String a EmptyString]
           end
  end.

Fixpoint has_space (s : string) : bool :=
  match s with
  | EmptyString => false
  | String a s => Nat.eqb (Ascii.nat_of_ascii a) 32 || has_space s
  end.

Example split_space_header :
  split_space "Bearer abc.def ghi" = ["Bearer"; "abc.def"; "ghi"] ∧
  split_space "Bearer" = ["Bearer"] ∧
  split_space "Bearer  x" = ["Bearer"; ""; "x"].
Proof. repeat split; reflexivity. Qed.

(** ** Finding a row *)

Lemma find_row_Some {A} (P : string * A → Prop) `{∀ x, Decision (P x)}
    (m : gmap string A) k v :
  find_row P m = Some (k, v) → m !! k = Some v ∧ P (k, v).
Proof.
  unfold find_row. intros Hh%head_Some_elem_of.
  apply list_elem_of_filter in Hh as [HP Hin].
  by apply elem_of_map_to_list in Hin.
Qed.

Lemma find_row_None {A} (P : string * A → Prop) `{∀ x, Decision (P x)}
    (m : gmap string A) :
  find_row P m = None ↔ ∀ k v, m !! k = Some v → ¬ P (k, v).
Proof.
  unfold find_row. rewrite head_None. split.
  - intros Hnil k v Hkv HP.
    assert (Hin : (k, v) ∈ filter P (map_to_list m)).
    { apply list_elem_of_filter. split; [done|]. by apply elem_of_map_to_list. }
    rewrite Hnil in Hin. by apply elem_of_nil in Hin.
  - intros Hno. destruct (filter P (map_to_list m)) as [|[k v] l] eqn:E; [done|].
    assert (Hin : (k, v) ∈ filter P (map_to_list m)) by (rewrite E; left).
    apply list_elem_of_filter in Hin as [HP Hin].
    apply elem_of_map_to_list in Hin. by destruct (Hno k v).
Qed.

(** When one row only satisfies [P], that is the row found. *)
Lemma find_row_unique {A} (P : string * A → Prop) `{∀ x, Decision (P x)}
    (m : gmap string A) k v :
  m !! k = Some v → P (k, v) →
  (∀ k' v', m !! k' = Some v' → P (k', v') → k' = k) →
  find_row P m = Some (k, v).
Proof.
  intros Hkv HP Huniq. destruct (find_row P m) as [[k' v']|] eqn:E.
  - apply find_row_Some in E as [Hkv' HP'].
    assert (k' = k) as -> by eauto. congruence.
  - rewrite find_row_None in E. by destruct (E k v).
Qed.

(** ** Splitting the header *)

Lemma split_space_no_space s : has_space s = false → split_space s = [s].
Proof.
  induction s as [|a s IH]; [done|]. simpl.
  destruct (Nat.eqb (Ascii.nat_of_ascii a) 32); [done|]. simpl.
  intros Hs. by rewrite IH.
Qed.

(** The token of a [Bearer] header comes back out of the split. *)
Lemma split_space_Bearer token :
  has_space token = false →
  split_space (String.append "Bearer " token) !! 1 = Some token.
Proof.
  intros Hs. change (split_space (String.append "Bearer " token))
    with ("Bearer" :: split_space token).
  by rewrite split_space_no_space.
Qed.

(** ** The avatar colour *)

(** Whatever index is drawn, the colour stored is one of the five: an index
    out of range leaves the model's default, which is the first of them. *)
Lemma default_color_in_colors k :
  default "bg-blue-600" (colors !! k) ∈ colors.
Proof.
  unfold colors. do 5 (destruct k as [|k]; [set_solver|]). simpl. set_solver.
Qed.

Section http.

(** What the columns of the store make of a string, as for the socket
    server: a [UUID] column, a [TEXT] column (a string compared with a
    column in a [where] is converted in the same way), and a [VARCHAR(255)]
    column, which refuses a string too long for it ([None]). *)
Variable uuid_in : string → option string.
Variable text_in : string → string.
Variable varchar : string → option string.
(** [jwt.verify] and [jwt.sign] with [JWT_SECRET] (taken to be set),
    [bcrypt.hash] (by salt) and [bcrypt.compare], and the [isEmail]
    validator of the [Users] model. *)
Variable jwt_verify : Time → string → JwtOutcome.
Variable jwt_sign : Time → string → string.
Variable bcrypt_hash : string → string → string.
Variable bcrypt_compare : string → string → bool.
Variable isEmail : string → bool.
(** The order of the database's collation on names. *)
Variable name_le : string → string → bool.

Set Default Proof Using "Type".

(** [Users.findByPk(decoded.id, { attributes: { exclude: ['password'] } })]:
    [null] without a query for an [undefined] id; otherwise the row of the
    uuid the id spells, with the id as the row has it; an id that is no uuid
    is refused by the database. *)
Definition Users_findByPk_public (d : Db) (up : bool) (id : option string)
  : Read (option ReqUser) :=
  match id with
  | None => Rows None
  | Some i =>
      if up then
        match uuid_in i with
        | None => ReadRejects
        | Some k =>
            Rows (r ← Users d !! k;
                  Some (mkReqUser k (username r) (email r) (avatar_color r)
                          (status r)))
        end
      else ReadRejects
  end.

(** [Users.create({ username, email, password, avatar_color, status })]:
    [username] and [email] are [allowNull: false] and [unique], [email] is
    validated by [isEmail], and an [undefined] [avatar_color] takes the
    model's default.  The columns are [VARCHAR(255)]: the database may
    refuse the [username]; the other strings fit (an address [isEmail]
    accepts has at most 254 characters, a bcrypt hash has 60, the colours
    and the status are constants of the source).  The call resolves to the
    new instance, its id and its row as stored. *)
Definition Users_create (d : Db) (up : bool) (uuid : string)
    (new_username new_email : option string) (hashed : string)
    (color : option string) (new_status : string)
  : Db * Settled (string * UsersRow) :=
  match new_username, new_email with
  | Some u, Some e =>
      if negb (isEmail e) then (d, Rejects SequelizeValidationError)
      else if negb up then (d, Rejects SequelizeConnectionError)
      else match varchar u with
           | None => (d, Rejects SequelizeDatabaseError)
           | Some u' =>
               let user := mkUsersRow u' (text_in e) hashed
                             (default "bg-blue-600" color) new_status in
               if bool_decide (is_Some (Users d !! uuid))
                  || bool_decide
                       (is_Some (find_row
                                   (λ kv, username kv.2 = u'
                                          ∨ email kv.2 = text_in e)
                                   (Users d)))
               then (d, Rejects SequelizeUniqueConstraintError)
               else (mkDb (<[uuid := user]> (Users d)) (Channels d)
                       (Messages d),
                     Resolves (uuid, user))
           end
  | _, _ => (d, Rejects SequelizeValidationError)
  end.

(** [Channels.create({ name, description, is_private, created_by })]:
    [name] is [allowNull: false], [unique] and a [VARCHAR(255)], which the
    database may refuse; [description] is a [TEXT].  It resolves to the new
    instance, its id and its row as stored. *)
Definition Channels_create (st : Store) (up : bool) (uuid : string)
    (new_name : option string) (description : option string)
    (is_private : bool) (created_by : string)
  : Store * Settled (string * ChannelsRow) :=
  match new_name with
  | None => (st, Rejects SequelizeValidationError)
  | Some n =>
      if negb up then (st, Rejects SequelizeConnectionError)
      else match varchar n with
           | None => (st, Rejects SequelizeDatabaseError)
           | Some n' =>
               let newChannel :=
                 mkChannelsRow n' (text_in <$> description) is_private
                   created_by in
               if bool_decide (is_Some (Channels (tables st) !! uuid))
                  || bool_decide
                       (is_Some (find_row (λ kv, name kv.2 = n')
                                   (Channels (tables st))))
               then (st, Rejects SequelizeUniqueConstraintError)
               else
                 (mkStore
                    (mkDb (Users (tables st))
                       (<[uuid := newChannel]> (Channels (tables st)))
                       (Messages (tables st)))
                    (ChannelMembers st),
                  Resolves (uuid, newChannel))
           end
  end.

(** [Messages.findAll({ where: { channel_id }, include: sender,
    order: [['created_at', 'ASC']] })]: the messages of the channel whose
    uuid [channelId] spells; a [channelId] that is no uuid is refused by
    the database. *)
Definition Messages_findAll (d : Db) (up : bool) (channelId : string)
  : Read (list MessageWithSender) :=
  if up then
    match uuid_in channelId with
    | None => ReadRejects
    | Some k =>
        Rows (merge_sort created_before
                (filter (λ m, msg_channel_id m = Some k)
                   (with_sender d <$> map_to_list (Messages d))))
    end
  else ReadRejects.

(** The order of [order: [['name', 'ASC']]]. *)
Definition name_before (c1 c2 : string * ChannelsRow) : Prop :=
  name_le (name c1.2) (name c2.2) = true.

Global Instance name_before_dec c1 c2 : Decision (name_before c1 c2).
Proof. unfold name_before. apply _. Defined.

(** [Channels.findAll({ include: [{ model: Users, where: { id } }],
    order: [['name', 'ASC']] })]: the channels joined, through
    [ChannelMembers], to the user of that id. *)
Definition Channels_findAll_of_user (st : Store) (up : bool) (user_id : string)
  : Read (list (string * ChannelsRow)) :=
  if up then
    match uuid_in user_id with
    | None => ReadRejects
    | Some k =>
        Rows (merge_sort name_before
                (filter (λ c, is_Some (ChannelMembers st !! (k, c.1)) ∧
                              is_Some (Users (tables st) !! k))
                   (map_to_list (Channels (tables st)))))
    end
  else ReadRejects.

(** The result of the [protect] middleware: [next()] with [req.user], or a
    response. *)
Inductive Protect :=
| Pass (user : ReqUser)
| Deny (res : Response).

Definition token_failed : Response :=
  mkResponse 401 (ErrorJson "Not authorized, token failed").
Definition no_token : Response :=
  mkResponse 401 (ErrorJson "Not authorized, no token").
Definition user_not_found : Response :=
  mkResponse 401 (ErrorJson "User not found").

(** The [protect] middleware. [jwt.verify] throws on a token that is
    [undefined] or empty. *)
Definition protect (d : Db) (up : bool) (now : Time)
    (authorization : option string) : Protect :=
  match authorization with
  | Some h =>
      if String.prefix "Bearer" h then
        match split_space h !! 1 with
        | None => Deny token_failed
        | Some token =>
            if decide (token = "") then Deny token_failed
            else match jwt_verify now token with
                 | JwtThrows _ => Deny token_failed
                 | JwtDecoded id =>
                     match Users_findByPk_public d up id with
                     | ReadRejects => Deny token_failed
                     | Rows None => Deny user_not_found
                     | Rows (Some user) => Pass user
                     end
                 end
        end
      else Deny no_token
  | None => Deny no_token
  end.

Definition internal_error : Response :=
  mkResponse 500 (MessageJson "Internal server error").
Definition invalid_login : Response :=
  mkResponse 401 (MessageJson "Invalid email or password").

(** [POST /auth/signup].  Store calls: 0 the [findOne], 1 the [create].
    [findOne] throws on an [undefined] value in its [where], and
    [bcrypt.hash] on an [undefined] password. *)
Definition signup (d : Db) (env : Env) (body : gmap string string)
  : Db * Response :=
  match body !! "email", body !! "username" with
  | Some e, Some u =>
      match Users_findOne d (env_up env 0)
              (λ kv, email kv.2 = text_in e ∨ username kv.2 = text_in u) with
      | ReadRejects => (d, internal_error)
      | Rows (Some userExists) =>
          (d, mkResponse 409 (MessageJson "User already exists"))
      | Rows None =>
          match body !! "password" with
          | None => (d, internal_error)
          | Some p =>
              let hashedPassword := bcrypt_hash (env_salt env) p in
              let randomColor := colors !! env_random env in
              match Users_create d (env_up env 1) (env_uuid env) (Some u)
                      (Some e) hashedPassword randomColor "online" with
              | (d', Resolves (id, user)) =>
                  (d', mkResponse 201
                         (AuthJson (Some "User created successfully")
                            (jwt_sign (env_now env) id)
                            (mkPublicUser id (username user) (email user)
                               (avatar_color user))))
              | (d', Rejects _) => (d', internal_error)
              end
          end
      end
  | _, _ => (d, internal_error)
  end.

(** [POST /auth/login].  Store calls: 0 the [findOne], 1 the [update] (if
    one is issued).
    [bcrypt.compare] is only called for a user that exists, and throws on an
    [undefined] password. *)
Definition login (d : Db) (env : Env) (body : gmap string string)
  : Db * Response :=
  match body !! "email" with
  | None => (d, internal_error)
  | Some e =>
      match Users_findOne d (env_up env 0) (λ kv, email kv.2 = text_in e) with
      | ReadRejects => (d, internal_error)
      | Rows None => (d, invalid_login)
      | Rows (Some (id, user)) =>
          match body !! "password" with
          | None => (d, internal_error)
          | Some p =>
              if bcrypt_compare p (password user) then
                match Users_update_status d (env_up env 1) id user "online" with
                | (d', Resolves _) =>
                    (d', mkResponse 200
                           (AuthJson None (jwt_sign (env_now env) id)
                              (mkPublicUser id (username user) (email user)
                                 (avatar_color user))))
                | (d', Rejects _) => (d', internal_error)
                end
              else (d, invalid_login)
          end
      end
  end.

(** The [catch] of [POST /api/channels]. *)
Definition channel_error (e : DbError) : Response :=
  match e with
  | SequelizeUniqueConstraintError =>
      mkResponse 400 (MessageJson "Channel name already exists")
  | _ => mkResponse 500 (MessageJson "Failed to create channel")
  end.

(** [POST /api/channels].  Store calls: 1 the [create], 2 the [addUser]
    (0 is [protect]'s). *)
Definition post_channels (st : Store) (env : Env) (user : ReqUser)
    (body : ChannelBody) : Store * Response :=
  let is_private := default false (cb_is_private body) in
  match Channels_create st (env_up env 1) (env_uuid env) (cb_name body)
          (cb_description body) is_private (ru_id user) with
  | (st', Rejects e) => (st', channel_error e)
  | (st', Resolves (id, newChannel)) =>
      match Channels_addUser st' (env_up env 2) id (ru_id user) "admin" with
      | (st'', Rejects e) => (st'', channel_error e)
      | (st'', Resolves _) =>
          (st'', mkResponse 201 (ChannelJson id newChannel))
      end
  end.

(** [GET /api/channels/join].  Store call: 1 the [findAll]. *)
Definition get_channels_join (st : Store) (env : Env) (user : ReqUser)
  : Response :=
  match Channels_findAll_of_user st (env_up env 1) (ru_id user) with
  | Rows channels => mkResponse 200 (ChannelsJson channels)
  | ReadRejects => mkResponse 500 (MessageJson "Failed to fetch channels")
  end.

(** [GET /api/messages/:channelId].  Store call: 1 the [findAll]. *)
Definition get_messages (d : Db) (env : Env) (channelId : string) : Response :=
  match Messages_findAll d (env_up env 1) channelId with
  | Rows messages => mkResponse 200 (MessagesJson messages)
  | ReadRejects => mkResponse 500 (MessageJson "Failed to fetch messages")
  end.

(** [POST /api/messages/:channelId].  Store calls: 1 the [create], 2 the
    [findByPk]. *)
Definition post_messages (d : Db) (env : Env) (user : ReqUser)
    (channelId : string) (body : gmap string string) : Db * Response :=
  match Messages_create uuid_in text_in d (env_up env 1) (env_uuid env)
          (env_now env) (body !! "content") (Some channelId) (ru_id user) with
  | (d', Rejects _) =>
      (d', mkResponse 500 (MessageJson "Failed to send message"))
  | (d', Resolves newMessage_id) =>
      match Messages_findByPk d' (env_up env 2) newMessage_id with
      | Resolves messageWithSender =>
          (d', mkResponse 201 (MessageWithSenderJson messageWithSender))
      | Rejects _ =>
          (d', mkResponse 500 (MessageJson "Failed to send message"))
      end
  end.

(** A request to the [/api] router: [apiRouter.use(protect)], then the
    route's handler. *)
Definition api (st : Store) (env : Env) (authorization : option string)
    (route : ApiRoute) : Store * Response :=
  match protect (tables st) (env_up env 0) (env_now env) authorization with
  | Deny res => (st, res)
  | Pass user =>
      match route with
      | POST_api_channels body => post_channels st env user body
      | GET_api_channels_join => (st, get_channels_join st env user)
      | GET_api_messages channelId =>
          (st, get_messages (tables st) env channelId)
      | POST_api_messages channelId body =>
          let '(d, res) := post_messages (tables st) env user channelId body in
          (mkStore d (ChannelMembers st), res)
      end
  end.

(** ** The [protect] middleware *)

Lemma protect_inv d up now authorization user :
  protect d up now authorization = Pass user →
  ∃ h token i row,
    authorization = Some h ∧
    String.prefix "Bearer" h = true ∧
    split_space h !! 1 = Some token ∧ token ≠ "" ∧
    jwt_verify now token = JwtDecoded (Some i) ∧
    up = true ∧ uuid_in i = Some (ru_id user) ∧
    Users d !! ru_id user = Some row ∧
    user = mkReqUser (ru_id user) (username row) (email row)
             (avatar_color row) (status row).
Proof.
  unfold protect, Users_findByPk_public. intros Hp.
  destruct authorization as [h|]; [|done].
  destruct (String.prefix "Bearer" h) eqn:Hpre; [|done].
  destruct (split_space h !! 1) as [token|] eqn:Htok; [|done].
  case_decide as Hne; [done|].
  destruct (jwt_verify now token) as [e|[i|]] eqn:Hv; try done.
  destruct up; simpl in Hp; [|done].
  destruct (uuid_in i) as [k|] eqn:Hi; [|done].
  destruct (Users d !! k) as [row|] eqn:Hrow; simpl in Hp; [|done].
  injection Hp as <-. by exists h, token, i, row.
Qed.

Lemma protect_intro d now h token i k row :
  String.prefix "Bearer" h = true →
  split_space h !! 1 = Some token → token ≠ "" →
  jwt_verify now token = JwtDecoded (Some i) →
  uuid_in i = Some k → Users d !! k = Some row →
  protect d true now (Some h)
  = Pass (mkReqUser k (username row) (email row) (avatar_color row)
            (status row)).
Proof.
  intros Hpre Htok Hne Hv Hi Hrow. unfold protect, Users_findByPk_public.
  rewrite Hpre, Htok, decide_False by done. by rewrite Hv, Hi, Hrow.
Qed.

(** [protect] lets a request through exactly when the header starts with
    [Bearer], its second space-separated field is a non-empty token that
    [jwt.verify] decodes to an id spelling the uuid of an existing user, and
    the database answers; [req.user] is then that user's row without the
    password, under the id as the row has it. *)
Theorem protect_Pass d up now authorization user :
  protect d up now authorization = Pass user ↔
  ∃ h token i row,
    authorization = Some h ∧
    String.prefix "Bearer" h = true ∧
    split_space h !! 1 = Some token ∧ token ≠ "" ∧
    jwt_verify now token = JwtDecoded (Some i) ∧
    up = true ∧ uuid_in i = Some (ru_id user) ∧
    Users d !! ru_id user = Some row ∧
    user = mkReqUser (ru_id user) (username row) (email row)
             (avatar_color row) (status row).
Proof.
  split; [apply protect_inv|].
  intros (h & token & i & row & -> & Hpre & Htok & Hne & Hv & -> & Hi & Hrow
          & Hu).
  rewrite Hu. by apply (protect_intro _ _ _ token i).
Qed.

(** A well-formed [Authorization: Bearer <token>] header is enough: the
    token that went into the header is the one verified. *)
Theorem protect_Bearer d now token i k row :
  token ≠ "" → has_space token = false →
  jwt_verify now token = JwtDecoded (Some i) →
  uuid_in i = Some k → Users d !! k = Some row →
  protect d true now (Some (String.append "Bearer " token))
  = Pass (mkReqUser k (username row) (email row) (avatar_color row)
            (status row)).
Proof.
  intros Hne Hs Hv Hi Hrow.
  apply (protect_intro _ _ _ token i); try done.
  by apply split_space_Bearer.
Qed.

(** A header without a space never gets through, whatever [jwt.verify]
    would say of it: there is no second field to verify. *)
Theorem protect_no_second_field d up now h :
  has_space h = false →
  protect d up now (Some h)
  = Deny (if String.prefix "Bearer" h then token_failed else no_token).
Proof.
  intros Hs. unfold protect. destruct (String.prefix "Bearer" h); [|done].
  by rewrite split_space_no_space.
Qed.

(** ** The [/api] router *)

Lemma post_channels_status st env user body :
  res_status (post_channels st env user body).2 ≠ 401.
Proof.
  unfold post_channels.
  destruct (Channels_create _ _ _ _ _ _ _) as [st' [[id ch]|e]];
    [|by destruct e].
  destruct (Channels_addUser _ _ _ _ _) as [st'' [x|e]]; [done|by destruct e].
Qed.

Lemma post_messages_status d env user c body :
  res_status (post_messages d env user c body).2 ≠ 401.
Proof.
  unfold post_messages.
  destruct (Messages_create _ _ _ _ _ _ _ _ _) as [d' [id|e]]; [|done].
  by destruct (Messages_findByPk _ _ _).
Qed.


(** ** Signing up *)

(** No two users share a username or an email. *)
Definition users_unique (d : Db) : Prop :=
  ∀ i j r s, Users d !! i = Some r → Users d !! j = Some s →
    username r = username s ∨ email r = email s → i = j.

Definition user_exists : Response :=
  mkResponse 409 (MessageJson "User already exists").

Lemma Users_create_Rejects d up uuid u e h c s d' err :
  Users_create d up uuid u e h c s = (d', Rejects err) → d' = d.
Proof.
  unfold Users_create. intros H. repeat case_match; by simplify_eq.
Qed.

Lemma Users_create_Resolves d up uuid nu ne h c s d' id row :
  Users_create d up uuid nu ne h c s = (d', Resolves (id, row)) →
  ∃ u e u', nu = Some u ∧ ne = Some e ∧ isEmail e = true ∧ up = true ∧
    varchar u = Some u' ∧ id = uuid ∧
    row = mkUsersRow u' (text_in e) h (default "bg-blue-600" c) s ∧
    Users d !! uuid = None ∧
    (∀ k v, Users d !! k = Some v →
            username v ≠ u' ∧ email v ≠ text_in e) ∧
    d' = mkDb (<[uuid := row]> (Users d)) (Channels d) (Messages d).
Proof.
  unfold Users_create. intros H.
  destruct nu as [u|], ne as [e|]; try done.
  destruct (isEmail e) eqn:He; simpl in H; [|done].
  destruct up; simpl in H; [|done].
  destruct (varchar u) as [u'|] eqn:Hu'; [|done].
  case_bool_decide as Hpk; simpl in H; [done|].
  case_bool_decide as Hfind; simpl in H; [done|].
  apply eq_None_not_Some in Hpk, Hfind. rewrite find_row_None in Hfind.
  simplify_eq. exists u, e, u'. do 8 (split; [done|]). split; [|done].
  intros k v Hkv. specialize (Hfind k v Hkv). simpl in Hfind.
  split; intros Heq; apply Hfind; auto.
Qed.

(** The ways a signup ends: without a write, answered 500 or 409; or with
    the one row of the new user added, answered 201. *)
Lemma signup_inv d env body d' res :
  signup d env body = (d', res) →
  (d' = d ∧ (res = internal_error ∨ res = user_exists)) ∨
  ∃ u e p u',
    let c := default "bg-blue-600" (colors !! env_random env) in
    body !! "username" = Some u ∧ body !! "email" = Some e ∧
    body !! "password" = Some p ∧ isEmail e = true ∧
    varchar u = Some u' ∧
    Users d !! env_uuid env = None ∧
    (∀ k v, Users d !! k = Some v →
            username v ≠ u' ∧ email v ≠ text_in e) ∧
    d' = mkDb (<[env_uuid env :=
                   mkUsersRow u' (text_in e) (bcrypt_hash (env_salt env) p)
                     c "online"]>
                 (Users d)) (Channels d) (Messages d) ∧
    res = mkResponse 201
            (AuthJson (Some "User created successfully")
               (jwt_sign (env_now env) (env_uuid env))
               (mkPublicUser (env_uuid env) u' (text_in e) c)).
Proof.
  unfold signup. intros Hs.
  destruct (body !! "email") as [e|] eqn:He; [|left; simplify_eq; auto].
  destruct (body !! "username") as [u|] eqn:Hu; [|left; simplify_eq; auto].
  destruct (Users_findOne _ _ _) as [[x|]|];
    [left; simplify_eq; auto| |left; simplify_eq; auto].
  destruct (body !! "password") as [p|]; [|left; simplify_eq; auto].
  destruct (Users_create _ _ _ _ _ _ _ _) as [d1 [[id row]|err]] eqn:Hc.
  - apply Users_create_Resolves in Hc
      as (u0 & e0 & u' & [= <-] & [= <-] & Hmail & _ & Hu' & -> & -> & Hnew
          & Hfree & ->).
    simplify_eq. right. by exists u, e, p, u'.
  - apply Users_create_Rejects in Hc as ->. left. simplify_eq. auto.
Qed.

(** A signup whose email or username is taken is answered 409 and leaves
    the store as it was, when the lookup goes through; this comes before the
    password is looked at. *)
Theorem signup_conflict d env body e u i r :
  body !! "email" = Some e → body !! "username" = Some u →
  env_up env 0 = true →
  Users d !! i = Some r → email r = text_in e ∨ username r = text_in u →
  signup d env body = (d, user_exists).
Proof.
  intros He Hu Hup Hr Hm. unfold signup, Users_findOne. rewrite He, Hu, Hup.
  destruct (find_row _ (Users d)) as [x|] eqn:Hf; [done|].
  rewrite find_row_None in Hf. by destruct (Hf i r).
Qed.


(** What a 201 means: the body named a username its column takes, an email
    [isEmail] accepts and a password; no user had that username or email;
    the one row added holds them as stored, the bcrypt hash of the password,
    status [online] and one of the five avatar colours; and the response
    carries a token signed for the new id and the new user's public
    fields. *)
Theorem signup_created d env body d' res :
  signup d env body = (d', res) → res_status res = 201 →
  ∃ u e p c u',
    body !! "username" = Some u ∧ body !! "email" = Some e ∧
    body !! "password" = Some p ∧ isEmail e = true ∧
    varchar u = Some u' ∧ c ∈ colors ∧
    Users d !! env_uuid env = None ∧
    (∀ k v, Users d !! k = Some v →
            username v ≠ u' ∧ email v ≠ text_in e) ∧
    d' = mkDb (<[env_uuid env :=
                   mkUsersRow u' (text_in e) (bcrypt_hash (env_salt env) p)
                     c "online"]>
                 (Users d)) (Channels d) (Messages d) ∧
    res = mkResponse 201
            (AuthJson (Some "User created successfully")
               (jwt_sign (env_now env) (env_uuid env))
               (mkPublicUser (env_uuid env) u' (text_in e) c)).
Proof.
  intros Hs Hst. apply signup_inv in Hs
    as [[-> [-> | ->]]|(u & e & p & u' & He & Hu & Hp & Hmail & Hu' & Hnew
                        & Hfree & -> & ->)];
    [done|done|].
  exists u, e, p, (default "bg-blue-600" (colors !! env_random env)), u'.
  do 5 (split; [done|]). split; [apply default_color_in_colors|].
  by do 3 (split; [done|]).
Qed.

(** Whatever the request, a signup keeps every existing user as it is,
    touches no channel and no message, and keeps usernames and emails
    unique. *)
Theorem signup_preserves_users d env body :
  (∀ i r, Users d !! i = Some r → Users (signup d env body).1 !! i = Some r) ∧
  Channels (signup d env body).1 = Channels d ∧
  Messages (signup d env body).1 = Messages d ∧
  (users_unique d → users_unique (signup d env body).1).
Proof.
  destruct (signup d env body) as [d' res] eqn:Hs. simpl.
  apply signup_inv in Hs
    as [[-> _]|(u & e & p & u' & _ & _ & _ & _ & _ & Hnew & Hfree & -> & _)];
    [done|].
  simpl. repeat split; try done.
  - intros i r Hr. rewrite lookup_insert_ne; [done|]. congruence.
  - intros Hu i j r s Hi Hj Hsame. simpl in Hi, Hj.
    apply lookup_insert_Some in Hi as [[<- <-]|[Hni Hi]];
      apply lookup_insert_Some in Hj as [[<- <-]|[Hnj Hj]]; try done.
    + destruct (Hfree _ _ Hj) as [??]. simpl in Hsame.
      destruct Hsame; congruence.
    + destruct (Hfree _ _ Hi) as [??]. simpl in Hsame.
      destruct Hsame; congruence.
    + eauto.
Qed.

(** ** Logging in *)

(** The ways a login ends: without a write, answered 500 or 401; or
    answered 200 for a user whose password [bcrypt.compare] accepted, whose
    status is then [online]. *)
Lemma login_inv d env body d' res :
  login d env body = (d', res) →
  (d' = d ∧ (res = internal_error ∨ res = invalid_login)) ∨
  ∃ e p id row,
    body !! "email" = Some e ∧ body !! "password" = Some p ∧
    Users d !! id = Some row ∧ email row = text_in e ∧
    bcrypt_compare p (password row) = true ∧
    Users d' !! id = Some (mkUsersRow (username row) (email row)
                             (password row) (avatar_color row) "online") ∧
    (∀ j, j ≠ id → Users d' !! j = Users d !! j) ∧
    Channels d' = Channels d ∧ Messages d' = Messages d ∧
    res = mkResponse 200
            (AuthJson None (jwt_sign (env_now env) id)
               (mkPublicUser id (username row) (email row)
                  (avatar_color row))).
Proof.
  unfold login, Users_findOne, Users_update_status. intros Hl.
  destruct (body !! "email") as [e|] eqn:He; [|left; simplify_eq; auto].
  destruct (env_up env 0); [|left; simplify_eq; auto].
  destruct (find_row _ (Users d)) as [[id row]|] eqn:Hf;
    [|left; simplify_eq; auto].
  apply find_row_Some in Hf as [Hrow Hmail]. simpl in Hmail.
  destruct (body !! "password") as [p|] eqn:Hp; [|left; simplify_eq; auto].
  destruct (bcrypt_compare p (password row)) eqn:Hc;
    [|left; simplify_eq; auto].
  case_decide as Hon.
  - simplify_eq. right. exists e, p, id, row.
    do 5 (split; [done|]). split; [|done].
    rewrite Hrow. by destruct row; simpl in *; subst.
  - destruct (env_up env 1); [|left; simplify_eq; auto].
    simplify_eq. right. exists e, p, id, row. simpl.
    do 5 (split; [done|]). split; [by rewrite lookup_alter_eq, Hrow|].
    split; [|done]. intros j Hj. by rewrite lookup_alter_ne.
Qed.

(** An unknown email and a wrong password get the same answer, and the
    store is left alone: a login whose password [bcrypt.compare] accepts for
    no user with that email is answered 401 [Invalid email or password]. *)
Theorem login_rejected d env body e p :
  body !! "email" = Some e → body !! "password" = Some p →
  env_up env 0 = true →
  (∀ i r, Users d !! i = Some r → email r = text_in e →
          bcrypt_compare p (password r) = false) →
  login d env body = (d, invalid_login).
Proof.
  intros He Hp Hup Hno. unfold login, Users_findOne. rewrite He, Hup.
  destruct (find_row _ (Users d)) as [[id user]|] eqn:Hf; [|done].
  apply find_row_Some in Hf as [Hrow Hmail]. simpl in Hmail.
  by rewrite Hp, (Hno id user).
Qed.

(** Without a [password] field the two cases come apart: 401 for an email
    nobody has, 500 for an email somebody has ([bcrypt.compare] throws on
    the missing password). *)
Theorem login_without_password d env body e :
  body !! "email" = Some e → body !! "password" = None →
  env_up env 0 = true →
  ((∀ i r, Users d !! i = Some r → email r ≠ text_in e) →
   login d env body = (d, invalid_login)) ∧
  (∀ i r, Users d !! i = Some r → email r = text_in e →
          login d env body = (d, internal_error)).
Proof.
  intros He Hp Hup. unfold login, Users_findOne. rewrite He, Hup, Hp. split.
  - intros Hno. destruct (find_row _ (Users d)) as [[id user]|] eqn:Hf; [|done].
    apply find_row_Some in Hf as [Hrow Hmail]. by destruct (Hno id user).
  - intros i r Hr Hmail.
    destruct (find_row _ (Users d)) as [[id user]|] eqn:Hf; [done|].
    rewrite find_row_None in Hf. by destruct (Hf i r).
Qed.


(** Signing up and then logging in with the same email and password works,
    as long as [bcrypt.compare] accepts a password against its own hash and
    the lookup goes through: the login is answered 200 for the same user and
    leaves the store as the signup left it (the user is [online] already, so
    no update is issued). *)
Theorem signup_then_login d env body d' res env' body' :
  (∀ salt p, bcrypt_compare p (bcrypt_hash salt p) = true) →
  signup d env body = (d', res) → res_status res = 201 →
  body' !! "email" = body !! "email" →
  body' !! "password" = body !! "password" →
  env_up env' 0 = true →
  ∃ message token user,
    res_body res = AuthJson message token user ∧
    pu_id user = env_uuid env ∧
    login d' env' body'
    = (d', mkResponse 200
             (AuthJson None (jwt_sign (env_now env') (pu_id user)) user)).
Proof.
  intros Hbc Hs H201 Hmail Hpw Hup0.
  apply signup_inv in Hs
    as [[-> [-> | ->]]|(u & e & p & u' & Hu & He & Hp & _ & _ & Hnew & Hfree
                        & -> & ->)];
    [done|done|].
  eexists _, _, _. split; [done|]. split; [done|].
  unfold login, Users_findOne. rewrite Hmail, He, Hup0. simpl.
  rewrite (find_row_unique _ _ (env_uuid env)
             (mkUsersRow u' (text_in e) (bcrypt_hash (env_salt env) p)
                (default "bg-blue-600" (colors !! env_random env)) "online")).
  - rewrite Hpw, Hp. simpl. by rewrite Hbc.
  - apply lookup_insert_eq.
  - done.
  - intros k v [[<- <-]|[Hne Hk]]%lookup_insert_Some Hv; [done|].
    simpl in Hv. by destruct (Hfree _ _ Hk).
Qed.

(** The token a login (or a signup) hands out opens the door it is meant
    for: presented while [jwt.verify] still decodes it to the user's id, it
    gets a socket connection bound to that user, and as a [Bearer] header it
    gets past [protect] as that user. *)
Theorem issued_token_authenticates d env body d' res message token user now :
  signup d env body = (d', res) ∨ login d env body = (d', res) →
  res_body res = AuthJson message token user →
  token ≠ "" → has_space token = false →
  jwt_verify now token = JwtDecoded (Some (pu_id user)) →
  uuid_in (pu_id user) = Some (pu_id user) →
  io_use_auth uuid_in jwt_verify d' true now (Some token)
  = Next (mkSocketUser (pu_id user) (pu_username user)
            (pu_avatar_color user)) ∧
  protect d' true now (Some (String.append "Bearer " token))
  = Pass (mkReqUser (pu_id user) (pu_username user) (pu_email user)
            (pu_avatar_color user) "online").
Proof.
  intros Hreq Hbody Hne Hsp Hv Hid.
  assert (∃ h, Users d' !! pu_id user
               = Some (mkUsersRow (pu_username user) (pu_email user) h
                         (pu_avatar_color user) "online")) as [h Hrow].
  { destruct Hreq as [Hs|Hl].
    - apply signup_inv in Hs
        as [[-> [-> | ->]]|(u & e & p & u' & _ & _ & _ & _ & _ & _ & _ & ->
                            & ->)];
        [done|done|].
      simpl in Hbody. injection Hbody as <- <- <-. simpl.
      rewrite lookup_insert_eq. eauto.
    - apply login_inv in Hl
        as [[-> [-> | ->]]|(e & p & id & row & _ & _ & _ & _ & _ & Hrow'
                             & _ & _ & _ & ->)]; [done|done|].
      simpl in Hbody. injection Hbody as <- <- <-. simpl.
      rewrite Hrow'. eauto. }
  split.
  - unfold io_use_auth. rewrite decide_False by done. rewrite Hv.
    unfold Users_findByPk. simpl. by rewrite Hid, Hrow.
  - by rewrite (protect_intro d' now (String.append "Bearer " token) token
                  (pu_id user) (pu_id user) _ eq_refl
                  (split_space_Bearer _ Hsp) Hne Hv Hid Hrow).
Qed.

(** ** Creating a channel *)

(** No two channels share a name. *)
Definition channels_unique (st : Store) : Prop :=
  ∀ i j r s, Channels (tables st) !! i = Some r →
    Channels (tables st) !! j = Some s → name r = name s → i = j.

Definition name_exists : Response :=
  mkResponse 400 (MessageJson "Channel name already exists").
Definition create_failed : Response :=
  mkResponse 500 (MessageJson "Failed to create channel").

Lemma Channels_create_Rejects st up uuid n desc priv by_ st' err :
  Channels_create st up uuid n desc priv by_ = (st', Rejects err) → st' = st.
Proof.
  unfold Channels_create. intros H. repeat case_match; by simplify_eq.
Qed.

Lemma Channels_create_Resolves st up uuid nn desc priv by_ st' id row :
  Channels_create st up uuid nn desc priv by_ = (st', Resolves (id, row)) →
  ∃ n n', nn = Some n ∧ up = true ∧ varchar n = Some n' ∧ id = uuid ∧
    row = mkChannelsRow n' (text_in <$> desc) priv by_ ∧
    Channels (tables st) !! uuid = None ∧
    (∀ k v, Channels (tables st) !! k = Some v → name v ≠ n') ∧
    st' = mkStore (mkDb (Users (tables st))
                     (<[uuid := row]> (Channels (tables st)))
                     (Messages (tables st)))
            (ChannelMembers st).
Proof.
  unfold Channels_create. intros H.
  destruct nn as [n|]; [|done].
  destruct up; simpl in H; [|done].
  destruct (varchar n) as [n'|] eqn:Hn'; [|done].
  case_bool_decide as Hpk; simpl in H; [done|].
  case_bool_decide as Hfind; simpl in H; [done|].
  apply eq_None_not_Some in Hpk, Hfind. rewrite find_row_None in Hfind.
  simplify_eq. exists n, n'. do 6 (split; [done|]). split; [|done].
  intros k v Hkv. by apply (Hfind k v).
Qed.

(** The unique constraint on [name]. *)
Lemma Channels_create_taken st uuid n n' desc priv by_ k v :
  varchar n = Some n' →
  Channels (tables st) !! k = Some v → name v = n' →
  Channels_create st true uuid (Some n) desc priv by_
  = (st, Rejects SequelizeUniqueConstraintError).
Proof.
  intros Hn Hk Hv. unfold Channels_create. simpl. rewrite Hn.
  assert (Hf : is_Some (find_row (λ kv : string * ChannelsRow, name kv.2 = n')
                          (Channels (tables st)))).
  { apply not_eq_None_Some. rewrite find_row_None. intros Hno.
    by apply (Hno k v). }
  by rewrite (bool_decide_eq_true_2 _ Hf), orb_true_r.
Qed.

(** The ways a channel creation ends: with nothing written; with the
    channel written and no member added; or with both written, answered
    201.  Only the last is answered 201. *)
Lemma post_channels_inv st env user body st' res :
  post_channels st env user body = (st', res) →
  (st' = st ∧ res_status res ≠ 201) ∨
  ∃ n n', let row := mkChannelsRow n' (text_in <$> cb_description body)
                       (default false (cb_is_private body)) (ru_id user) in
    cb_name body = Some n ∧ varchar n = Some n' ∧
    Channels (tables st) !! env_uuid env = None ∧
    (∀ k v, Channels (tables st) !! k = Some v → name v ≠ n') ∧
    tables st' = mkDb (Users (tables st))
                   (<[env_uuid env := row]> (Channels (tables st)))
                   (Messages (tables st)) ∧
    ((ChannelMembers st' = ChannelMembers st ∧ res_status res ≠ 201) ∨
     (is_Some (Users (tables st) !! ru_id user) ∧
      ChannelMembers st'
      = <[(ru_id user, env_uuid env) := "admin"]> (ChannelMembers st) ∧
      res = mkResponse 201 (ChannelJson (env_uuid env) row))).
Proof.
  unfold post_channels, Channels_addUser. intros Hp.
  destruct (Channels_create _ _ _ _ _ _ _) as [st1 [[id row]|e]] eqn:Hc.
  - apply Channels_create_Resolves in Hc
      as (n & n' & Hn & _ & Hn' & -> & -> & Hnew & Hfree & ->).
    right. exists n, n'. do 4 (split; [done|]).
    destruct (env_up env 2); simpl in Hp;
      [|simplify_eq; split; [done|left; by split]].
    rewrite lookup_insert_eq in Hp.
    destruct (user_fk_ok _ _) eqn:Hu; simpl in Hp;
      [|simplify_eq; split; [done|left; by split]].
    simplify_eq. split; [done|]. right. split; [|done].
    unfold user_fk_ok in Hu. by apply bool_decide_eq_true in Hu.
  - apply Channels_create_Rejects in Hc as ->. left.
    destruct e; by simplify_eq.
Qed.

(** What a 201 means: the new channel is stored under the drawn id with the
    body's name and description as their columns keep them, [is_private]
    defaulting to [false], and the authenticated user as [created_by],
    whatever the body says of [created_by]; that user is its [admin] member;
    the name was free. *)
Theorem post_channels_created st env user body st' res :
  post_channels st env user body = (st', res) → res_status res = 201 →
  ∃ n n', let row := mkChannelsRow n' (text_in <$> cb_description body)
                       (default false (cb_is_private body)) (ru_id user) in
    cb_name body = Some n ∧ varchar n = Some n' ∧
    Channels (tables st) !! env_uuid env = None ∧
    (∀ k v, Channels (tables st) !! k = Some v → name v ≠ n') ∧
    is_Some (Users (tables st) !! ru_id user) ∧
    Channels (tables st') = <[env_uuid env := row]> (Channels (tables st)) ∧
    ChannelMembers st'
    = <[(ru_id user, env_uuid env) := "admin"]> (ChannelMembers st) ∧
    res = mkResponse 201 (ChannelJson (env_uuid env) row).
Proof.
  intros Hp Hst. apply post_channels_inv in Hp
    as [[_ ?]|(n & n' & Hn & Hn' & Hnew & Hfree & Ht
               & [[_ ?]|(Hu & Hm & ->)])];
    [done|done|].
  exists n, n'. do 5 (split; [done|]). by rewrite Ht.
Qed.

(** A name that is taken is answered 400 [Channel name already exists],
    with nothing stored. *)
Theorem post_channels_duplicate st env user body n n' k v :
  cb_name body = Some n → varchar n = Some n' → env_up env 1 = true →
  Channels (tables st) !! k = Some v → name v = n' →
  post_channels st env user body = (st, name_exists).
Proof.
  intros Hn Hn' Hup Hk Hv. unfold post_channels. rewrite Hn, Hup.
  by rewrite (Channels_create_taken _ _ _ n' _ _ _ k v).
Qed.

(** A name its column refuses is answered 500 [Failed to create channel],
    with nothing stored. *)
Theorem post_channels_refused_name st env user body n :
  cb_name body = Some n → varchar n = None → env_up env 1 = true →
  post_channels st env user body = (st, create_failed).
Proof.
  intros Hn Hn' Hup. unfold post_channels, Channels_create.
  by rewrite Hn, Hup, Hn'.
Qed.

(** The channel and its admin are two writes, not one: when the channel is
    stored and [addUser] then fails, the answer is 500 [Failed to create
    channel], yet the channel stays, without any member added; and a second
    try under the same name is answered 400. *)
Theorem post_channels_half_done st env user body n n' env2 :
  cb_name body = Some n → varchar n = Some n' →
  env_up env 1 = true → env_up env 2 = false →
  Channels (tables st) !! env_uuid env = None →
  (∀ k v, Channels (tables st) !! k = Some v → name v ≠ n') →
  env_up env2 1 = true →
  let st' := (post_channels st env user body).1 in
  (post_channels st env user body).2 = create_failed ∧
  Channels (tables st') !! env_uuid env
  = Some (mkChannelsRow n' (text_in <$> cb_description body)
            (default false (cb_is_private body)) (ru_id user)) ∧
  ChannelMembers st' = ChannelMembers st ∧
  post_channels st' env2 user body = (st', name_exists).
Proof.
  intros Hn Hn' Hup1 Hup2 Hnew Hfree Hup1' st'.
  set (row := mkChannelsRow n' (text_in <$> cb_description body)
                (default false (cb_is_private body)) (ru_id user)).
  assert (Hp : post_channels st env user body
    = (mkStore (mkDb (Users (tables st))
                  (<[env_uuid env := row]> (Channels (tables st)))
                  (Messages (tables st)))
         (ChannelMembers st), create_failed)).
  { unfold post_channels, Channels_create, Channels_addUser.
    rewrite Hn, Hup1, Hup2. simpl. rewrite Hn'.
    rewrite bool_decide_eq_false_2 by (rewrite Hnew; by intros [? ?]).
    rewrite bool_decide_eq_false_2; [done|].
    intros [[k v] Hf]. apply find_row_Some in Hf as [Hk Hv].
    by apply (Hfree k v). }
  unfold st'. rewrite Hp. simpl.
  split; [done|]. split; [apply lookup_insert_eq|]. split; [done|].
  unfold post_channels. rewrite Hn, Hup1'.
  by rewrite (Channels_create_taken _ _ _ n' _ _ _ (env_uuid env) row)
    by (done || apply lookup_insert_eq).
Qed.

(** Whatever the request, creating a channel keeps every existing channel
    as it is, touches no user and no message, and keeps channel names
    unique. *)
Theorem post_channels_preserves_channels st env user body :
  let st' := (post_channels st env user body).1 in
  (∀ i r, Channels (tables st) !! i = Some r →
          Channels (tables st') !! i = Some r) ∧
  Users (tables st') = Users (tables st) ∧
  Messages (tables st') = Messages (tables st) ∧
  (channels_unique st → channels_unique st').
Proof.
  destruct (post_channels st env user body) as [st' res] eqn:Hp. simpl.
  apply post_channels_inv in Hp
    as [[-> _]|(n & n' & _ & _ & Hnew & Hfree & Ht & _)]; [done|].
  unfold channels_unique. rewrite Ht. simpl. repeat split; try done.
  - intros i r Hr. rewrite lookup_insert_ne; [done|]. congruence.
  - intros Hu i j r s Hi Hj Hsame.
    apply lookup_insert_Some in Hi as [[<- <-]|[Hni Hi]];
      apply lookup_insert_Some in Hj as [[<- <-]|[Hnj Hj]]; try done.
    + by destruct (Hfree _ _ Hj).
    + by destruct (Hfree _ _ Hi).
    + eauto.
Qed.

(** ** The channels a user has joined *)

Lemma Channels_findAll_of_user_Rows st user_id k :
  uuid_in user_id = Some k → is_Some (Users (tables st) !! k) →
  ∃ l, Channels_findAll_of_user st true user_id = Rows l ∧
    (∀ id row, (id, row) ∈ l ↔
       Channels (tables st) !! id = Some row ∧
       is_Some (ChannelMembers st !! (k, id))) ∧
    NoDup l.*1.
Proof.
  intros Hid Hu. unfold Channels_findAll_of_user.
  rewrite Hid. eexists. split; [done|]. split.
  - intros id row. rewrite merge_sort_Permutation, list_elem_of_filter,
      elem_of_map_to_list. simpl.
    split; [by intros [[? _] ?]|by intros [? ?]].
  - rewrite merge_sort_Permutation.
    apply (sublist_NoDup _ (map_to_list (Channels (tables st))).*1);
      [apply NoDup_fst_map_to_list|].
    apply fmap_sublist, sublist_filter.
Qed.

(** [GET /api/channels/join] lists the channels the user is a member of,
    each once, and no other. *)
Theorem get_channels_join_lists_memberships st env user k :
  env_up env 1 = true → uuid_in (ru_id user) = Some k →
  is_Some (Users (tables st) !! k) →
  ∃ l, get_channels_join st env user = mkResponse 200 (ChannelsJson l) ∧
    (∀ id row, (id, row) ∈ l ↔
       Channels (tables st) !! id = Some row ∧
       is_Some (ChannelMembers st !! (k, id))) ∧
    NoDup l.*1.
Proof.
  intros Hup Hid Hu. unfold get_channels_join. rewrite Hup.
  destruct (Channels_findAll_of_user_Rows st (ru_id user) k Hid Hu)
    as (l & -> & Hl). by exists l.
Qed.

(** A channel shows up in its creator's joined channels as soon as it is
    created: after a 201 from [POST /api/channels], the creator's
    [GET /api/channels/join] lists the new channel. *)
Theorem created_channel_is_joined st env user body st' res env2 :
  post_channels st env user body = (st', res) → res_status res = 201 →
  env_up env2 1 = true → uuid_in (ru_id user) = Some (ru_id user) →
  ∃ l row, get_channels_join st' env2 user = mkResponse 200 (ChannelsJson l) ∧
    res_body res = ChannelJson (env_uuid env) row ∧
    (env_uuid env, row) ∈ l ∧ created_by row = ru_id user.
Proof.
  intros Hp H201 Hup Hid.
  apply post_channels_inv in Hp
    as [[_ ?]|(n & n' & _ & _ & _ & _ & Ht & [[_ ?]|(Hu & Hmem & ->)])];
    [done|done|].
  destruct (Channels_findAll_of_user_Rows st' (ru_id user) _ Hid)
    as (l & Hl & Hin & _); [by rewrite Ht|].
  unfold get_channels_join. rewrite Hup, Hl.
  eexists l, _. split; [done|]. split; [done|]. split; [|done].
  apply Hin. rewrite Ht, Hmem. simpl. rewrite !lookup_insert_eq. eauto.
Qed.

(** ** A channel's messages *)

Global Instance created_before_total : Total created_before.
Proof. intros m1 m2. unfold created_before. lia. Qed.

Global Instance with_sender_inj d : Inj (=) (=) (with_sender d).
Proof.
  intros [k1 [c1 t1 ch1 u1]] [k2 [c2 t2 ch2 u2]]. unfold with_sender. simpl.
  by intros [= -> -> -> -> ->].
Qed.

Lemma Messages_findAll_Rows d c k :
  uuid_in c = Some k →
  ∃ l, Messages_findAll d true c = Rows l ∧
    (∀ m, m ∈ l ↔ ∃ id row, Messages d !! id = Some row ∧
                     channel_id row = Some k ∧ m = with_sender d (id, row)) ∧
    NoDup l ∧ Sorted created_before l.
Proof.
  intros Hid. unfold Messages_findAll. rewrite Hid.
  eexists. split; [done|]. split; [|split].
  - intros m. rewrite merge_sort_Permutation, list_elem_of_filter,
      list_elem_of_fmap. split.
    + intros [Hch ([id row] & -> & Hin)]. apply elem_of_map_to_list in Hin.
      by exists id, row.
    + intros (id & row & Hrow & Hch & ->). split; [done|].
      exists (id, row). split; [done|]. by apply elem_of_map_to_list.
  - rewrite merge_sort_Permutation. apply NoDup_filter.
    apply NoDup_fmap; [apply _|]. apply NoDup_map_to_list.
  - apply Sorted_merge_sort, _.
Qed.

(** [GET /api/messages/:channelId], for a database that answers and a
    [channelId] spelling a uuid, is a 200 with the history of the channel of
    that uuid: each stored message of that channel once, with its sender
    joined, oldest first; messages of other channels are not in it.  A
    [channelId] that is no uuid is a 500. *)
Theorem get_messages_history d env c :
  env_up env 1 = true →
  (∀ k, uuid_in c = Some k →
   ∃ l, get_messages d env c = mkResponse 200 (MessagesJson l) ∧
     (∀ m, m ∈ l ↔ ∃ id row, Messages d !! id = Some row ∧
                      channel_id row = Some k ∧ m = with_sender d (id, row)) ∧
     NoDup l ∧ Sorted created_before l) ∧
  (uuid_in c = None →
   get_messages d env c
   = mkResponse 500 (MessageJson "Failed to fetch messages")).
Proof.
  intros Hup. unfold get_messages. rewrite Hup. split.
  - intros k Hid. destruct (Messages_findAll_Rows d c k Hid) as (l & -> & Hl).
    by exists l.
  - intros Hid. unfold Messages_findAll. by rewrite Hid.
Qed.

(** A message stored through the socket is in the channel's history from
    then on, broadcast or not: once a [send_message] handler's
    [Messages.create] has resolved, every later [GET /api/messages] of that
    channel, under any spelling of its id, lists the record, with the
    content and the channel id as the store keeps them, the sender's id and
    the timestamp of the write. *)
Theorem socket_message_in_history
    d pre t up uuid now sid c content_ u d' acts env c' :
  tasks (run uuid_in text_in jwt_verify (init d) pre).1 !! t
  = Some (AwaitCreate sid (Some c) content_ u) →
  Messages_create uuid_in text_in
    (db (run uuid_in text_in jwt_verify (init d) pre).1) up uuid now content_
    (Some c) u = (d', Resolves uuid) →
  env_up env 1 = true → uuid_in c' = uuid_in c →
  let dfin := db (run uuid_in text_in jwt_verify (init d)
                    (pre ++ Create_settles t up uuid now :: acts)).1 in
  ∃ l m s k, get_messages dfin env c' = mkResponse 200 (MessagesJson l) ∧
    m ∈ l ∧ msg_id m = uuid ∧
    content_ = Some s ∧ msg_content m = text_in s ∧
    uuid_in c = Some k ∧ msg_channel_id m = Some k ∧
    msg_user_id m = u ∧ msg_created_at m = now.
Proof.
  intros Ht Hc Hup Hsame dfin.
  pose proof Hc
    as (s & ch & -> & -> & _ & Hnew & Hch & _ & _ & ->)%Messages_create_Resolves.
  simpl in Hch. destruct (uuid_in c) as [k|] eqn:Hk; [|done].
  simpl in Hch. injection Hch as <-.
  assert (Hrow : Messages dfin !! uuid
                 = Some (mkMessagesRow (text_in s) now (Some k) u)).
  { unfold dfin. rewrite run_app. cbn [fst]. rewrite run_cons. cbn [fst].
    apply run_Messages_mono. simpl. rewrite Ht, Hc. simpl.
    apply lookup_insert_eq. }
  destruct (Messages_findAll_Rows dfin c' k Hsame) as (l & Hl & Hin & _).
  unfold get_messages. rewrite Hup, Hl.
  exists l, (with_sender dfin (uuid, mkMessagesRow (text_in s) now (Some k) u)),
    s, k.
  split; [done|]. split; [|done].
  apply Hin. by exists uuid, (mkMessagesRow (text_in s) now (Some k) u).
Qed.

(** ** Appending a message over HTTP *)

(** What a 201 means: the route's [channelId] spells the uuid of a channel,
    and the record is stored under the drawn id with the body's content as
    the store keeps it, that channel and the authenticated user as sender,
    whatever else the body carries; the response is that record with its
    sender joined. *)
Theorem post_messages_created d env user c body d' res :
  post_messages d env user c body = (d', res) → res_status res = 201 →
  ∃ s k, let row := mkMessagesRow (text_in s) (env_now env) (Some k)
                      (ru_id user) in
    body !! "content" = Some s ∧ uuid_in c = Some k ∧
    Messages d !! env_uuid env = None ∧
    is_Some (Channels d !! k) ∧
    d' = mkDb (Users d) (Channels d) (<[env_uuid env := row]> (Messages d)) ∧
    res = mkResponse 201
            (MessageWithSenderJson (Some (with_sender d' (env_uuid env, row)))).
Proof.
  unfold post_messages. intros Hp Hst.
  destruct (Messages_create _ _ _ _ _ _ _ _ _) as [d1 [id|e]] eqn:Hc;
    [|by simplify_eq].
  apply Messages_create_Resolves in Hc
    as (s & ch & Hs & _ & -> & Hnew & Hk & Hch & _ & ->).
  simpl in Hk. destruct (uuid_in c) as [k|] eqn:Hc'; [|done].
  simpl in Hk. injection Hk as <-.
  unfold Messages_findByPk in Hp.
  destruct (env_up env 2); [|by simplify_eq].
  simpl in Hp. rewrite lookup_insert_eq in Hp. simplify_eq.
  exists s, k. simpl. do 3 (split; [done|]). split; [|done].
  unfold channel_fk_ok in Hch. by apply bool_decide_eq_true in Hch.
Qed.

(** A 500 does not mean nothing was stored: when the write goes through
    and the read-back fails, the answer is 500 [Failed to send message] and
    the record is in the store. *)
Theorem post_messages_stored_but_500 d env user c k body s :
  body !! "content" = Some s → uuid_in c = Some k →
  env_up env 1 = true → env_up env 2 = false →
  Messages d !! env_uuid env = None →
  is_Some (Channels d !! k) → is_Some (Users d !! ru_id user) →
  post_messages d env user c body
  = (mkDb (Users d) (Channels d)
       (<[env_uuid env := mkMessagesRow (text_in s) (env_now env) (Some k)
                            (ru_id user)]>
          (Messages d)),
     mkResponse 500 (MessageJson "Failed to send message")).
Proof.
  intros Hs Hk Hup1 Hup2 Hnew Hch Hu.
  unfold post_messages, Messages_findByPk.
  rewrite Hs, Hup1, Hup2.
  rewrite (Messages_create_accepts _ _ _ _ _ _ _ (Some k)).
  - done.
  - done.
  - simpl. by rewrite Hk.
  - by apply bool_decide_eq_true_2.
  - by apply bool_decide_eq_true_2.
Qed.

End http.
(** * The HTTP API at the concrete deployment *)

(** A [VARCHAR(255)] column refuses a string of more than 255 characters,
    unless what exceeds them is spaces, which it drops. *)
Fixpoint all_spaces (s : string) : bool :=
  match s with
  | EmptyString => true
  | String a s => Nat.eqb (Ascii.nat_of_ascii a) 32 && all_spaces s
  end.

Definition pg_varchar (s : string) : option string :=
  let s := pg_text s in
  if Nat.leb (String.length s) 255 then Some s
  else if all_spaces (String.substring 255 (String.length s - 255) s)
  then Some (String.substring 0 255 s)
  else None.

(** A name of 255 characters, and longer ones. *)
Definition name255 : string :=
  String.string_of_list_ascii (replicate 255 (Ascii.ascii_of_nat 97)).

Example pg_varchar_limit :
  pg_varchar "random" = Some "random" ∧
  pg_varchar name255 = Some name255 ∧
  pg_varchar (name255 +:+ "a") = None ∧
  pg_varchar (name255 +:+ "  ") = Some name255.
Proof. repeat split; vm_compute; reflexivity. Qed.

(** [jwt.sign] for the tokens [verify] knows, a [bcrypt] that keeps the
    password legible, and an [isEmail] that looks for an at sign. *)
Definition sign (now : Time) (id : string) : string :=
  if decide (id = alice_id) then "tok-alice"
  else if decide (id = bob_id) then "tok-bob"
  else String.append "tok-" id.

Definition hash (salt p : string) : string := String.append "$2a$10$" p.

Definition compare (p hashed : string) : bool :=
  bool_decide (hashed = String.append "$2a$10$" p).

Fixpoint has_at (s : string) : bool :=
  match s with
  | EmptyString => false
  | String a s => Nat.eqb (Ascii.nat_of_ascii a) 64 || has_at s
  end.

(** The handlers of this deployment. *)
Abbreviation protect0 := (protect pg_uuid verify).
Abbreviation signup0 := (signup pg_text pg_varchar sign hash has_at).
Abbreviation login0 := (login pg_text sign compare).
Abbreviation post_channels0 := (post_channels pg_text pg_varchar).
Abbreviation get_channels_join0 := (get_channels_join pg_uuid String.leb).
Abbreviation get_messages0 := (get_messages pg_uuid).
Abbreviation post_messages0 := (post_messages pg_uuid pg_text).
Abbreviation api0 := (api pg_uuid pg_text pg_varchar verify String.leb).

Definition store0 : Store := mkStore db0 ∅.

(** The id drawn for the row a request creates. *)
Definition x1 : string := "00000000-0000-4000-8000-0000000000f1".

Definition env0 : Env := mkEnv 7 x1 "salt" 2 (λ _, true).

(** The database answers the handler's first call and fails its later
    ones. *)
Definition env_half : Env :=
  mkEnv 7 x1 "salt" 2 (λ k, bool_decide (k ≤ 1)%nat).

Definition alice_row : UsersRow :=
  mkUsersRow "alice" "alice@example.org" "$2a$10$a" "bg-blue-600" "online".

Definition ralice : ReqUser :=
  mkReqUser alice_id "alice" "alice@example.org" "bg-blue-600" "online".

Definition carol : gmap string string :=
  <["username" := "carol"]> (<["email" := "carol@example.org"]>
    (<["password" := "c"]> ∅)).

Definition alice_login : gmap string string :=
  <["email" := "alice@example.org"]> (<["password" := "a"]> ∅).

Definition random_channel : ChannelBody :=
  mkChannelBody (Some "random") None None (Some bob_id).

(** The store after Alice's [hi] was stored through the socket. *)
Definition db1 : Db := db (run0 (init db0) stored).1.

Lemma compare_hash salt p : compare p (hash salt p) = true.
Proof. unfold compare, hash. by apply bool_decide_eq_true_2. Qed.

Lemma users_unique_db0 : users_unique db0.
Proof.
  intros i j r s Hi Hj Hsame. simpl in Hi, Hj.
  apply lookup_insert_Some in Hi as [[<- <-]|[_ Hi]];
    [|apply lookup_insert_Some in Hi as [[<- <-]|[_ Hi]];
      [|by rewrite lookup_empty in Hi]];
  (apply lookup_insert_Some in Hj as [[<- <-]|[_ Hj]];
    [|apply lookup_insert_Some in Hj as [[<- <-]|[_ Hj]];
      [|by rewrite lookup_empty in Hj]]);
  simpl in Hsame; try done; by destruct Hsame.
Qed.

Lemma channels_unique_store0 : channels_unique store0.
Proof.
  intros i j r s Hi Hj _. simpl in Hi, Hj.
  apply lookup_insert_Some in Hi as [[<- <-]|[_ Hi]];
    [|by rewrite lookup_empty in Hi].
  apply lookup_insert_Some in Hj as [[<- <-]|[_ Hj]];
    [done|by rewrite lookup_empty in Hj].
Qed.

Example signup_carol :
  (signup0 db0 env0 carol).2
  = mkResponse 201
      (AuthJson (Some "User created successfully") (String.append "tok-" x1)
         (mkPublicUser x1 "carol" "carol@example.org" "bg-red-600")).
Proof. vm_compute. reflexivity. Qed.

(** The history of [general], asked for under two spellings of its id. *)
Example history_general :
  get_messages0 db1 env0 general = mkResponse 200 (MessagesJson [hi]) ∧
  get_messages0 db1 env0 GENERAL = mkResponse 200 (MessagesJson [hi]).
Proof. split; vm_compute; reflexivity. Qed.

(** ** The socket server *)

Lemma socket_user_fixed_witness :
  let σ := (run0 (init db0) joined).1 in
  let acts := [Send_message "A" (payload general "hi"); Disconnect "B"] in
  sockets σ !! "A" = Some alice ∧
  (sockets (run0 σ acts).1 !! "A" = Some alice ∨
   (sockets (run0 σ acts).1 !! "A" = None ∧ "A" ∈ closed (run0 σ acts).1)).
Proof.
  intros σ acts.
  assert (Hs : sockets σ !! "A" = Some alice) by (vm_compute; reflexivity).
  split; [exact Hs|].
  exact (socket_user_fixed pg_uuid pg_text verify σ "A" alice acts Hs).
Defined.

Lemma socket_server_only_adds_messages_witness :
  Users (db (run0 (init db0) stored).1) = Users db0 ∧
  Channels (db (run0 (init db0) stored).1) = Channels db0 ∧
  ∀ id row, Messages db0 !! id = Some row →
            Messages (db (run0 (init db0) stored).1) !! id = Some row.
Proof.
  exact (socket_server_only_adds_messages pg_uuid pg_text verify (init db0)
           stored).
Defined.

Lemma membership_by_own_join_witness :
  "B" ∈ members (rooms (run0 (init db0) joined).1) (Some general) ∧
  (Some general = Some "B" ∨
   ∃ pre post, joined = pre ++ Join_channel "B" (Some general) :: post ∧
               is_Some (sockets (run0 (init db0) pre).1 !! "B")).
Proof.
  assert (Hin : "B" ∈ members (rooms (run0 (init db0) joined).1)
                        (Some general)) by compute_done.
  split; [exact Hin|].
  exact (membership_by_own_join pg_uuid pg_text verify db0 joined "B"
           (Some general) Hin).
Defined.

Lemma disconnect_leaves_others_witness :
  let σ := (run0 (init db0) stored).1 in
  let σ' := (step0 σ (Disconnect "A")).1 in
  tasks σ !! 0 = Some (AwaitFind "A" (Some general) m1) ∧
  db σ' = db σ ∧ tasks σ' = tasks σ ∧ next_task σ' = next_task σ ∧
  ∀ s, s ≠ "A" →
    sockets σ' !! s = sockets σ !! s ∧
    ∀ r, s ∈ members (rooms σ') r ↔ s ∈ members (rooms σ) r.
Proof.
  intros σ σ'. split; [vm_compute; reflexivity|].
  exact (disconnect_leaves_others pg_uuid pg_text verify σ "A").
Defined.

(** ** [protect] and the router *)

Lemma protect_Pass_witness :
  protect0 db0 true 0 (Some "Bearer tok-alice") = Pass ralice ∧
  ∃ h token i row,
    Some "Bearer tok-alice" = Some h ∧
    String.prefix "Bearer" h = true ∧
    split_space h !! 1 = Some token ∧ token ≠ "" ∧
    verify 0 token = JwtDecoded (Some i) ∧
    true = true ∧ pg_uuid i = Some (ru_id ralice) ∧
    Users db0 !! ru_id ralice = Some row ∧
    ralice = mkReqUser (ru_id ralice) (username row) (email row)
               (avatar_color row) (status row).
Proof.
  assert (Hp : protect0 db0 true 0 (Some "Bearer tok-alice") = Pass ralice)
    by (vm_compute; reflexivity).
  split; [exact Hp|].
  exact (proj1 (protect_Pass pg_uuid verify db0 true 0 _ ralice) Hp).
Defined.

Lemma protect_Bearer_witness :
  "tok-alice" ≠ "" ∧ has_space "tok-alice" = false ∧
  verify 0 "tok-alice" = JwtDecoded (Some alice_id) ∧
  pg_uuid alice_id = Some alice_id ∧
  protect0 db0 true 0 (Some (String.append "Bearer " "tok-alice"))
  = Pass ralice.
Proof.
  assert (Hne : "tok-alice" ≠ "") by done.
  assert (Hsp : has_space "tok-alice" = false) by (vm_compute; reflexivity).
  assert (Hv : verify 0 "tok-alice" = JwtDecoded (Some alice_id))
    by (vm_compute; reflexivity).
  assert (Hid : pg_uuid alice_id = Some alice_id) by (vm_compute; reflexivity).
  do 4 (split; [done|]).
  exact (protect_Bearer pg_uuid verify db0 0 "tok-alice" alice_id alice_id
           alice_row Hne Hsp Hv Hid ltac:(vm_compute; reflexivity)).
Defined.

Lemma protect_no_second_field_witness :
  has_space "Bearer" = false ∧ has_space "tok-alice" = false ∧
  protect0 db0 true 0 (Some "Bearer") = Deny token_failed ∧
  protect0 db0 true 0 (Some "tok-alice") = Deny no_token.
Proof.
  assert (H1 : has_space "Bearer" = false) by (vm_compute; reflexivity).
  assert (H2 : has_space "tok-alice" = false) by (vm_compute; reflexivity).
  split; [exact H1|]. split; [exact H2|]. split.
  - exact (protect_no_second_field pg_uuid verify db0 true 0 "Bearer" H1).
  - exact (protect_no_second_field pg_uuid verify db0 true 0 "tok-alice" H2).
Defined.


(** ** Signing up and logging in *)

Lemma signup_conflict_witness :
  let body := <["email" := "alice@example.org"]> carol in
  body !! "email" = Some "alice@example.org" ∧
  body !! "username" = Some "carol" ∧
  signup0 db0 env0 body
  = (db0, mkResponse 409 (MessageJson "User already exists")).
Proof.
  intros body.
  assert (He : body !! "email" = Some "alice@example.org")
    by (vm_compute; reflexivity).
  assert (Hu : body !! "username" = Some "carol") by (vm_compute; reflexivity).
  split; [exact He|]. split; [exact Hu|].
  exact (signup_conflict pg_text pg_varchar sign hash has_at db0 env0 body _ _
           alice_id alice_row He Hu eq_refl ltac:(vm_compute; reflexivity)
           (or_introl eq_refl)).
Defined.


Lemma signup_created_witness :
  res_status (signup0 db0 env0 carol).2 = 201 ∧
  ∃ u e p c u',
    carol !! "username" = Some u ∧ carol !! "email" = Some e ∧
    carol !! "password" = Some p ∧ has_at e = true ∧
    pg_varchar u = Some u' ∧ c ∈ colors ∧
    Users db0 !! env_uuid env0 = None ∧
    (∀ k v, Users db0 !! k = Some v →
            username v ≠ u' ∧ email v ≠ pg_text e) ∧
    (signup0 db0 env0 carol).1
    = mkDb (<[env_uuid env0 :=
                mkUsersRow u' (pg_text e) (hash (env_salt env0) p) c
                  "online"]>
              (Users db0)) (Channels db0) (Messages db0) ∧
    (signup0 db0 env0 carol).2
    = mkResponse 201
        (AuthJson (Some "User created successfully")
           (sign (env_now env0) (env_uuid env0))
           (mkPublicUser (env_uuid env0) u' (pg_text e) c)).
Proof.
  assert (H201 : res_status (signup0 db0 env0 carol).2 = 201)
    by (vm_compute; reflexivity).
  split; [exact H201|].
  exact (signup_created pg_text pg_varchar sign hash has_at db0 env0 carol _ _
           (surjective_pairing _) H201).
Defined.

Lemma signup_preserves_users_witness :
  users_unique db0 ∧
  users_unique (signup0 db0 env0 carol).1 ∧
  Users (signup0 db0 env0 carol).1 !! alice_id = Users db0 !! alice_id.
Proof.
  destruct (signup_preserves_users pg_text pg_varchar sign hash has_at db0
              env0 carol) as (Hkeep & _ & _ & Huniq).
  split; [exact users_unique_db0|]. split; [exact (Huniq users_unique_db0)|].
  exact (Hkeep alice_id _ ltac:(vm_compute; reflexivity)).
Defined.

Lemma login_rejected_witness :
  let wrong := <["password" := "b"]> alice_login in
  let nobody := <["email" := "dave@example.org"]> alice_login in
  login0 db0 env0 wrong = (db0, invalid_login) ∧
  login0 db0 env0 nobody = (db0, invalid_login).
Proof.
  intros wrong nobody. split.
  - apply (login_rejected pg_text sign compare db0 env0 wrong
             "alice@example.org" "b");
      [vm_compute; reflexivity..|].
    intros i r Hi Hmail. simpl in Hi.
    apply lookup_insert_Some in Hi as [[<- <-]|[_ Hi]]; [done|].
    apply lookup_insert_Some in Hi as [[<- <-]|[_ Hi]]; [done|].
    by rewrite lookup_empty in Hi.
  - apply (login_rejected pg_text sign compare db0 env0 nobody
             "dave@example.org" "a");
      [vm_compute; reflexivity..|].
    intros i r Hi Hmail. simpl in Hi.
    apply lookup_insert_Some in Hi as [[<- <-]|[_ Hi]]; [done|].
    apply lookup_insert_Some in Hi as [[<- <-]|[_ Hi]]; [done|].
    by rewrite lookup_empty in Hi.
Defined.

Lemma login_without_password_witness :
  let known : gmap string string := {["email" := "alice@example.org"]} in
  known !! "password" = None ∧
  login0 db0 env0 known = (db0, internal_error).
Proof.
  intros known.
  assert (Hp : known !! "password" = None) by (vm_compute; reflexivity).
  split; [exact Hp|].
  exact (proj2 (login_without_password pg_text sign compare db0 env0 known
                  "alice@example.org" ltac:(vm_compute; reflexivity) Hp
                  eq_refl)
           alice_id _ ltac:(vm_compute; reflexivity) eq_refl).
Defined.


Lemma signup_then_login_witness :
  let d' := (signup0 db0 env0 carol).1 in
  (∀ salt p, compare p (hash salt p) = true) ∧
  ∃ message token user,
    res_body (signup0 db0 env0 carol).2 = AuthJson message token user ∧
    pu_id user = env_uuid env0 ∧
    login0 d' env_half carol
    = (d', mkResponse 200
             (AuthJson None (sign (env_now env_half) (pu_id user)) user)).
Proof.
  intros d'. split; [exact compare_hash|].
  exact (signup_then_login pg_text pg_varchar sign hash compare has_at db0
           env0 carol _ _ env_half carol compare_hash (surjective_pairing _)
           ltac:(vm_compute; reflexivity) eq_refl eq_refl
           ltac:(vm_compute; reflexivity)).
Defined.

Lemma issued_token_authenticates_witness :
  let d' := (login0 db0 env0 alice_login).1 in
  (login0 db0 env0 alice_login).2
  = mkResponse 200
      (AuthJson None "tok-alice"
         (mkPublicUser alice_id "alice" "alice@example.org" "bg-blue-600")) ∧
  verify 99 "tok-alice" = JwtDecoded (Some alice_id) ∧
  pg_uuid alice_id = Some alice_id ∧
  io_use_auth pg_uuid verify d' true 99 (Some "tok-alice") = Next alice ∧
  protect0 d' true 99 (Some (String.append "Bearer " "tok-alice"))
  = Pass ralice.
Proof.
  intros d'.
  assert (Hres : (login0 db0 env0 alice_login).2
    = mkResponse 200
        (AuthJson None "tok-alice"
           (mkPublicUser alice_id "alice" "alice@example.org" "bg-blue-600")))
    by (vm_compute; reflexivity).
  assert (Hv : verify 99 "tok-alice" = JwtDecoded (Some alice_id))
    by (vm_compute; reflexivity).
  assert (Hid : pg_uuid alice_id = Some alice_id) by (vm_compute; reflexivity).
  split; [exact Hres|]. split; [exact Hv|]. split; [exact Hid|].
  exact (issued_token_authenticates pg_uuid pg_text pg_varchar verify sign
           hash compare has_at db0 env0 alice_login d'
           (login0 db0 env0 alice_login).2 None "tok-alice"
           (mkPublicUser alice_id "alice" "alice@example.org" "bg-blue-600")
           99 (or_intror (surjective_pairing _))
           ltac:(rewrite Hres; reflexivity)
           ltac:(done) ltac:(vm_compute; reflexivity) Hv Hid).
Defined.

(** ** Channels *)

Lemma post_channels_created_witness :
  res_status (post_channels0 store0 env0 ralice random_channel).2 = 201 ∧
  ∃ n n', let row := mkChannelsRow n'
                       (pg_text <$> cb_description random_channel)
                       (default false (cb_is_private random_channel))
                       (ru_id ralice) in
    cb_name random_channel = Some n ∧ pg_varchar n = Some n' ∧
    Channels (tables store0) !! env_uuid env0 = None ∧
    (∀ k v, Channels (tables store0) !! k = Some v → name v ≠ n') ∧
    is_Some (Users (tables store0) !! ru_id ralice) ∧
    Channels (tables (post_channels0 store0 env0 ralice random_channel).1)
    = <[env_uuid env0 := row]> (Channels (tables store0)) ∧
    ChannelMembers (post_channels0 store0 env0 ralice random_channel).1
    = <[(ru_id ralice, env_uuid env0) := "admin"]> (ChannelMembers store0) ∧
    (post_channels0 store0 env0 ralice random_channel).2
    = mkResponse 201 (ChannelJson (env_uuid env0) row).
Proof.
  assert (H201 : res_status (post_channels0 store0 env0 ralice
                               random_channel).2 = 201)
    by (vm_compute; reflexivity).
  split; [exact H201|].
  exact (post_channels_created pg_text pg_varchar store0 env0 ralice
           random_channel _ _ (surjective_pairing _) H201).
Defined.

Lemma post_channels_duplicate_witness :
  let body := mkChannelBody (Some "general") None (Some true) None in
  pg_varchar "general" = Some "general" ∧
  Channels (tables store0) !! general
  = Some (mkChannelsRow "general" None false alice_id) ∧
  post_channels0 store0 env0 ralice body
  = (store0, mkResponse 400 (MessageJson "Channel name already exists")).
Proof.
  intros body.
  assert (Hn : pg_varchar "general" = Some "general")
    by (vm_compute; reflexivity).
  assert (Hk : Channels (tables store0) !! general
               = Some (mkChannelsRow "general" None false alice_id))
    by (vm_compute; reflexivity).
  split; [exact Hn|]. split; [exact Hk|].
  exact (post_channels_duplicate pg_text pg_varchar store0 env0 ralice body
           "general" "general" general _ eq_refl Hn eq_refl Hk eq_refl).
Defined.

Lemma post_channels_refused_name_witness :
  let body := mkChannelBody (Some (name255 +:+ "a")) None None None in
  pg_varchar (name255 +:+ "a") = None ∧
  post_channels0 store0 env0 ralice body
  = (store0, mkResponse 500 (MessageJson "Failed to create channel")).
Proof.
  intros body.
  assert (Hn : pg_varchar (name255 +:+ "a") = None)
    by (vm_compute; reflexivity).
  split; [exact Hn|].
  exact (post_channels_refused_name pg_text pg_varchar store0 env0 ralice body
           (name255 +:+ "a") eq_refl Hn eq_refl).
Defined.

Lemma post_channels_half_done_witness :
  let st' := (post_channels0 store0 env_half ralice random_channel).1 in
  pg_varchar "random" = Some "random" ∧
  env_up env_half 1 = true ∧ env_up env_half 2 = false ∧
  (post_channels0 store0 env_half ralice random_channel).2
  = mkResponse 500 (MessageJson "Failed to create channel") ∧
  Channels (tables st') !! x1
  = Some (mkChannelsRow "random" None false alice_id) ∧
  ChannelMembers st' = ChannelMembers store0 ∧
  post_channels0 st' env0 ralice random_channel
  = (st', mkResponse 400 (MessageJson "Channel name already exists")).
Proof.
  intros st'.
  assert (Hn : pg_varchar "random" = Some "random")
    by (vm_compute; reflexivity).
  split; [exact Hn|]. split; [reflexivity|]. split; [reflexivity|].
  apply (post_channels_half_done pg_text pg_varchar store0 env_half ralice
           random_channel "random" "random" env0 eq_refl Hn eq_refl eq_refl
           ltac:(vm_compute; reflexivity)).
  - intros k v Hk. simpl in Hk.
    apply lookup_insert_Some in Hk as [[<- <-]|[_ Hk]]; [done|].
    by rewrite lookup_empty in Hk.
  - reflexivity.
Defined.

Lemma post_channels_preserves_channels_witness :
  let st' := (post_channels0 store0 env0 ralice random_channel).1 in
  channels_unique store0 ∧ channels_unique st' ∧
  Channels (tables st') !! general = Channels (tables store0) !! general.
Proof.
  intros st'.
  destruct (post_channels_preserves_channels pg_text pg_varchar store0 env0
              ralice random_channel) as (Hkeep & _ & _ & Huniq).
  split; [exact channels_unique_store0|].
  split; [exact (Huniq channels_unique_store0)|].
  exact (Hkeep general _ ltac:(vm_compute; reflexivity)).
Defined.

Lemma get_channels_join_lists_memberships_witness :
  let st' := (post_channels0 store0 env0 ralice random_channel).1 in
  pg_uuid (ru_id ralice) = Some alice_id ∧
  is_Some (Users (tables st') !! alice_id) ∧
  ∃ l, get_channels_join0 st' env0 ralice
       = mkResponse 200 (ChannelsJson l) ∧
    (∀ id row, (id, row) ∈ l ↔
       Channels (tables st') !! id = Some row ∧
       is_Some (ChannelMembers st' !! (alice_id, id))) ∧
    NoDup l.*1.
Proof.
  intros st'.
  assert (Hid : pg_uuid (ru_id ralice) = Some alice_id)
    by (vm_compute; reflexivity).
  assert (Hu : is_Some (Users (tables st') !! alice_id))
    by (vm_compute; eauto).
  split; [exact Hid|]. split; [exact Hu|].
  exact (get_channels_join_lists_memberships pg_uuid String.leb st' env0
           ralice alice_id eq_refl Hid Hu).
Defined.

Lemma created_channel_is_joined_witness :
  let st' := (post_channels0 store0 env0 ralice random_channel).1 in
  res_status (post_channels0 store0 env0 ralice random_channel).2 = 201 ∧
  pg_uuid (ru_id ralice) = Some (ru_id ralice) ∧
  get_channels_join0 store0 env0 ralice = mkResponse 200 (ChannelsJson []) ∧
  ∃ l row, get_channels_join0 st' env0 ralice
           = mkResponse 200 (ChannelsJson l) ∧
    res_body (post_channels0 store0 env0 ralice random_channel).2
    = ChannelJson (env_uuid env0) row ∧
    (env_uuid env0, row) ∈ l ∧ created_by row = ru_id ralice.
Proof.
  intros st'.
  assert (H201 : res_status (post_channels0 store0 env0 ralice
                               random_channel).2 = 201)
    by (vm_compute; reflexivity).
  assert (Hid : pg_uuid (ru_id ralice) = Some (ru_id ralice))
    by (vm_compute; reflexivity).
  split; [exact H201|]. split; [exact Hid|].
  split; [vm_compute; reflexivity|].
  exact (created_channel_is_joined pg_uuid pg_text pg_varchar String.leb
           store0 env0 ralice random_channel _ _ env0 (surjective_pairing _)
           H201 eq_refl Hid).
Defined.

(** ** Messages *)

Lemma get_messages_history_witness :
  env_up env0 1 = true ∧ pg_uuid GENERAL = Some general ∧
  pg_uuid "general" = None ∧
  (∃ l, get_messages0 db1 env0 GENERAL = mkResponse 200 (MessagesJson l) ∧
     (∀ m, m ∈ l ↔ ∃ id row, Messages db1 !! id = Some row ∧
                      channel_id row = Some general ∧
                      m = with_sender db1 (id, row)) ∧
     NoDup l ∧ Sorted created_before l) ∧
  get_messages0 db1 env0 "general"
  = mkResponse 500 (MessageJson "Failed to fetch messages").
Proof.
  assert (H1 : pg_uuid GENERAL = Some general) by (vm_compute; reflexivity).
  assert (H2 : pg_uuid "general" = None) by (vm_compute; reflexivity).
  split; [reflexivity|]. split; [exact H1|]. split; [exact H2|]. split.
  - exact (proj1 (get_messages_history pg_uuid db1 env0 GENERAL eq_refl)
             general H1).
  - exact (proj2 (get_messages_history pg_uuid db1 env0 "general" eq_refl)
             H2).
Defined.

Lemma socket_message_in_history_witness :
  let pre := joined ++ [Send_message "A" (payload GENERAL "hi")] in
  let dfin := db (run0 (init db0)
                    (pre ++ Create_settles 0 true m1 5
                         :: [Find_settles 0 false; Disconnect "A"])).1 in
  tasks (run0 (init db0) pre).1 !! 0
  = Some (AwaitCreate "A" (Some GENERAL) (Some "hi") alice_id) ∧
  pg_uuid general = pg_uuid GENERAL ∧
  ∃ l m s k, get_messages0 dfin env0 general
             = mkResponse 200 (MessagesJson l) ∧
    m ∈ l ∧ msg_id m = m1 ∧
    Some "hi" = Some s ∧ msg_content m = pg_text s ∧
    pg_uuid GENERAL = Some k ∧ msg_channel_id m = Some k ∧
    msg_user_id m = alice_id ∧ msg_created_at m = 5.
Proof.
  intros pre dfin.
  assert (Ht : tasks (run0 (init db0) pre).1 !! 0
               = Some (AwaitCreate "A" (Some GENERAL) (Some "hi") alice_id))
    by (vm_compute; reflexivity).
  assert (Hsame : pg_uuid general = pg_uuid GENERAL)
    by (vm_compute; reflexivity).
  split; [exact Ht|]. split; [exact Hsame|].
  exact (socket_message_in_history pg_uuid pg_text verify db0 pre 0 true m1 5
           "A" GENERAL (Some "hi") alice_id _
           [Find_settles 0 false; Disconnect "A"] env0 general Ht
           ltac:(vm_compute; reflexivity) eq_refl Hsame).
Defined.

Lemma post_messages_created_witness :
  let body := <["user_id" := bob_id]> (<["content" := "over http"]> ∅) in
  res_status (post_messages0 db0 env0 ralice GENERAL body).2 = 201 ∧
  ∃ s k, let row := mkMessagesRow (pg_text s) (env_now env0) (Some k)
                      (ru_id ralice) in
    body !! "content" = Some s ∧ pg_uuid GENERAL = Some k ∧
    Messages db0 !! env_uuid env0 = None ∧
    is_Some (Channels db0 !! k) ∧
    (post_messages0 db0 env0 ralice GENERAL body).1
    = mkDb (Users db0) (Channels db0)
        (<[env_uuid env0 := row]> (Messages db0)) ∧
    (post_messages0 db0 env0 ralice GENERAL body).2
    = mkResponse 201
        (MessageWithSenderJson
           (Some (with_sender (post_messages0 db0 env0 ralice GENERAL body).1
                    (env_uuid env0, row)))).
Proof.
  intros body.
  assert (H201 : res_status (post_messages0 db0 env0 ralice GENERAL body).2
                 = 201) by (vm_compute; reflexivity).
  split; [exact H201|].
  exact (post_messages_created pg_uuid pg_text db0 env0 ralice GENERAL body
           _ _ (surjective_pairing _) H201).
Defined.

Lemma post_messages_stored_but_500_witness :
  let body : gmap string string := {["content" := "over http"]} in
  pg_uuid general = Some general ∧
  env_up env_half 1 = true ∧ env_up env_half 2 = false ∧
  post_messages0 db0 env_half ralice general body
  = (mkDb (Users db0) (Channels db0)
       (<[x1 := mkMessagesRow "over http" 7 (Some general) alice_id]>
          (Messages db0)),
     mkResponse 500 (MessageJson "Failed to send message")).
Proof.
  intros body.
  assert (Hk : pg_uuid general = Some general) by (vm_compute; reflexivity).
  split; [exact Hk|]. split; [reflexivity|]. split; [reflexivity|].
  exact (post_messages_stored_but_500 pg_uuid pg_text db0 env_half ralice
           general general body "over http" ltac:(vm_compute; reflexivity)
           Hk eq_refl eq_refl ltac:(vm_compute; reflexivity)
           ltac:(vm_compute; eauto) ltac:(vm_compute; eauto)).
Defined.
